(** * djixt2tiff: metadata normalisation for DJI XT2 TIFF pages

    A shallow embedding of [djixt2tiff.py] and the properties of its
    GPS decoder, tag normaliser, property assembler and JSON serialiser.

    Python values are a closed universe [pyval]; exceptions are values of
    [exn] threaded through the [result] monad; [float] is IEEE-754 binary64
    as given by the standard library's [SpecFloat]; a generator is the list
    of pairs it yields together with the way it ends; dictionaries are
    insertion-ordered association lists living in a heap of objects. *)

From Stdlib Require Import ZArith String Ascii List Bool Lia.
From Stdlib Require Import Floats.SpecFloat.
From stdpp Require Import base list strings.

Local Set Warnings "-register-all".
Local Open Scope string_scope.
Local Open Scope Z_scope.

(** ** Floating point: Python's [float] is binary64 *)

Module Float.

Definition float := spec_float.

Definition prec : Z := 53.
Definition emax : Z := 1024.

Definition add : float -> float -> float := SFadd prec emax.
Definition div : float -> float -> float := SFdiv prec emax.
Definition opp : float -> float := SFopp.
Definition ltb : float -> float -> bool := SFltb.
Definition leb : float -> float -> bool := SFleb.
Definition eqb : float -> float -> bool := SFeqb.

(** The exact value of an integer, not yet rounded to 53 bits: an
    operand for [div], which rounds once. Comparisons need the
    normalised [of_Z]. *)
Definition exact (n : Z) : float :=
  match n with
  | Z0 => S754_zero false
  | Zpos p => S754_finite false p 0
  | Zneg p => S754_finite true p 0
  end.

(** [float(n)]: the integer rounded to the nearest binary64. *)
Definition of_Z (n : Z) : float := binary_normalize prec emax n 0 false.

Definition is_zero (x : float) : bool :=
  match x with S754_zero _ => true | _ => false end.

Definition is_inf (x : float) : bool :=
  match x with S754_infinity _ => true | _ => false end.

Definition is_nan (x : float) : bool :=
  match x with S754_nan => true | _ => false end.

(** Neither infinite nor NaN. *)
Definition is_finite (x : float) : bool :=
  match x with S754_zero _ | S754_finite _ _ _ => true | _ => false end.

End Float.

Abbreviation float := Float.float.

(** ** Values *)

(** [class WGS84Coords(NamedTuple)] *)
Record WGS84Coords := mkWGS84Coords { lat : float; lon : float; alt : float }.

(** [datetime.datetime], naive (no time zone). *)
Record datetime := mkdatetime {
  year : Z; month : Z; day : Z;
  hour : Z; minute : Z; second : Z; microsecond : Z }.

(** The values a tag, a nested group or a property map can hold.
    [VEnum] is an [enum.IntEnum] member, as all of tifffile's enumerations
    are: it has a name and behaves as its integer code in arithmetic. *)
Inductive pyval :=
| VInt (n : Z)
| VFloat (f : float)
| VStr (s : string)
| VBytes (b : list Byte.byte)
| VTuple (l : list pyval)
| VDict (d : list (string * pyval))
| VEnum (name : string) (code : Z)
| VCoords (c : WGS84Coords)
| VDateTime (dt : datetime).

(** An insertion-ordered [dict] with string keys. *)
Abbreviation pydict := (list (string * pyval)).

(** ** Exceptions and the result monad *)

Inductive exn :=
| ValueError (msg : string)
| RuntimeError (what : string) (args : list pyval)
    (* RuntimeError(f"<what> {args[0]!r} ...") *)
| KeyError (key : pyval)
    (* a failed subscript d[key] *)
| KeyExists (k : string) (old new : pyval)
    (* KeyError(f"Key {k!r} already exists with value {old!r}, can't set it to {new!r}.") *)
| IndexError
| ZeroDivisionError
| OverflowError
| TypeError
| UnicodeDecodeError
| AttributeError
| ParseError.

Inductive result (A : Type) :=
| Return (a : A)
| Raise (e : exn).
Arguments Return {A} a.
Arguments Raise {A} e.

Definition bind {A B} (k : A -> result B) (m : result A) : result B :=
  match m with
  | Return a => k a
  | Raise e => Raise e
  end.

(** [x ← m; k] runs [m] and, unless it raised, continues with [k]. *)
#[global] Instance result_bind : MBind result := @bind.
#[global] Instance result_ret : MRet result := @Return.

Definition returns {A} (m : result A) : Prop := exists a, m = Return a.
Definition raises {A} (m : result A) : Prop := exists e, m = Raise e.

(** ** Python primitives used by the decoder *)

Definition dict_get (d : pydict) (k : string) : option pyval :=
  snd <$> find (fun kv => String.eqb (fst kv) k) d.

(** ['k' in d] *)
Definition dict_in (k : string) (d : pydict) : bool :=
  match dict_get d k with Some _ => true | None => false end.

(** [v[k]] for a string key. *)
Definition getitem (v : pyval) (k : string) : result pyval :=
  match v with
  | VDict d =>
      match dict_get d k with
      | Some x => Return x
      | None => Raise (KeyError (VStr k))
      end
  | _ => Raise TypeError
  end.

(** [len(v)] *)
Definition len (v : pyval) : result Z :=
  match v with
  | VTuple l => Return (Z.of_nat (length l))
  | VDict d => Return (Z.of_nat (length d))
  | VStr s => Return (Z.of_nat (String.length s))
  | VBytes b => Return (Z.of_nat (length b))
  | _ => Raise TypeError
  end.

(** [v[i]] for a literal index [i >= 0]. *)
Definition index (v : pyval) (i : nat) : result pyval :=
  match v with
  | VTuple l =>
      match l !! i with Some x => Return x | None => Raise IndexError end
  | VBytes b =>
      match b !! i with
      | Some x => Return (VInt (Z.of_N (Byte.to_N x)))
      | None => Raise IndexError
      end
  | VStr s =>
      match String.get i s with
      | Some c => Return (VStr (String c EmptyString))
      | None => Raise IndexError
      end
  | VDict _ => Raise (KeyError (VInt (Z.of_nat i)))
  | _ => Raise TypeError
  end.

(** [a / b] on two [int]s: the correctly rounded quotient. *)
Definition int_truediv (a b : Z) : result float :=
  if b =? 0 then Raise ZeroDivisionError
  else
    let q := Float.div (Float.exact a) (Float.exact b) in
    if Float.is_inf q then Raise OverflowError else Return q.

(** [float(n)] as done by a mixed operation. *)
Definition int_to_float (n : Z) : result float :=
  let x := Float.of_Z n in
  if Float.is_inf x then Raise OverflowError else Return x.

Definition float_truediv (a b : float) : result float :=
  if Float.is_zero b then Raise ZeroDivisionError else Return (Float.div a b).

Inductive number := NInt (n : Z) | NFloat (f : float).

Definition as_number (v : pyval) : option number :=
  match v with
  | VInt n | VEnum _ n => Some (NInt n)
  | VFloat f => Some (NFloat f)
  | _ => None
  end.

(** [a / b] *)
Definition truediv (a b : pyval) : result float :=
  match as_number a, as_number b with
  | Some (NInt x), Some (NInt y) => int_truediv x y
  | Some (NInt x), Some (NFloat y) => x' ← int_to_float x; float_truediv x' y
  | Some (NFloat x), Some (NInt y) => y' ← int_to_float y; float_truediv x y'
  | Some (NFloat x), Some (NFloat y) => float_truediv x y
  | _, _ => Raise TypeError
  end.

(** [v == 'literal'] *)
Definition eq_str (v : pyval) (s : string) : bool :=
  match v with VStr t => String.eqb t s | _ => false end.

(** [v == n] for an integer literal. *)
Definition eq_int (v : pyval) (n : Z) : bool :=
  match v with
  | VInt m | VEnum _ m => m =? n
  | VFloat f => Float.eqb f (Float.of_Z n)
  | _ => false
  end.

(** ** The GPS decoder *)

(** What the code reads of a [tifffile.TiffTag]. *)
Record TiffTag := mkTiffTag { name : string; value : pyval }.

(** [y[0]/y[1] + (y[2]/y[3])/60.0 + (y[4]/y[5])/3600.0], evaluated left to
    right. *)
Definition sexagesimal (y : pyval) : result float :=
  y0 ← index y 0; y1 ← index y 1; d ← truediv y0 y1;
  y2 ← index y 2; y3 ← index y 3; m ← truediv y2 y3;
  m60 ← float_truediv m (Float.of_Z 60);
  y4 ← index y 4; y5 ← index y 5; s ← truediv y4 y5;
  s3600 ← float_truediv s (Float.of_Z 3600);
  Return (Float.add (Float.add d m60) s3600).

(** [x > hi or x < 0] *)
Definition out_of_range (x : float) (hi : Z) : bool :=
  Float.ltb (Float.of_Z hi) x || Float.ltb x (Float.of_Z 0).

(** One axis of the position, the code under [### lat ###] and again under
    [### lon ###]: the sequence at [key] must have six elements and decode
    to a magnitude in [[0, hi]]; the reference at [refkey] leaves the
    magnitude ([pos]) or negates it ([neg]). *)
Definition axis (gps : pyval) (key : string) (hi : Z) (refkey pos neg : string)
  : result float :=
  y ← getitem gps key;
  n ← len y;
  if negb (n =? 6) then Raise (RuntimeError key [y]) else
  v ← sexagesimal y;
  if out_of_range v hi then Raise (RuntimeError key [y]) else
  ref ← getitem gps refkey;
  if eq_str ref pos then Return v
  else if eq_str ref neg then Return (Float.opp v)
  else Raise (RuntimeError refkey [ref]).

(** The code under [### alti ###]. *)
Definition altitude (gps : pyval) : result float :=
  altref ← getitem gps "GPSAltitudeRef";
  if negb (eq_int altref 0) then Raise (RuntimeError "GPSAltitudeRef" [altref]) else
  z ← getitem gps "GPSAltitude";
  z0 ← index z 0; z1 ← index z 1;
  truediv z0 z1.

Definition convert_gpstag (tag : TiffTag) : result WGS84Coords :=
  if negb (String.eqb (name tag) "GPSTag") then Raise (ValueError EmptyString) else
  let gps := value tag in
  datum ← getitem gps "GPSMapDatum";
  if negb (eq_str datum "WGS-84") then Raise (RuntimeError "GPSMapDatum" [datum]) else
  lat ← axis gps "GPSLatitude" 90 "GPSLatitudeRef" "N" "S";
  lon ← axis gps "GPSLongitude" 180 "GPSLongitudeRef" "E" "W";
  alt ← altitude gps;
  Return {| lon := lon; lat := lat; alt := alt |}.

(** ** Text formatting *)

(** The character of a decimal digit. *)
Definition digit_char (d : Z) : ascii := ascii_of_nat (48 + Z.to_nat d).

Fixpoint decimal_aux (fuel : nat) (n : Z) (acc : string) : string :=
  match fuel with
  | O => acc
  | S fuel' =>
      let acc' := String (digit_char (n mod 10)) acc in
      if n <? 10 then acc' else decimal_aux fuel' (n / 10) acc'
  end.

(** The decimal digits of [n >= 0], most significant first. *)
Definition decimal (n : Z) : string :=
  decimal_aux (S (Z.to_nat (Z.log2 n))) n "".

(** [str(n)] for an [int]. *)
Definition int_str (n : Z) : string :=
  if n <? 0 then "-" ++ decimal (- n) else decimal n.

(** The last [p] decimal digits of [n >= 0], zero padded. *)
Definition low_digits (p : nat) (n : Z) : string :=
  string_of_list_ascii
    (map (fun i => digit_char ((n / 10 ^ Z.of_nat i) mod 10)) (rev (seq 0 p))).

(** [m * 2^e * 10^p] rounded to an integer, ties to even. *)
Definition scaled_round (p : nat) (m : positive) (e : Z) : Z :=
  let num := Zpos m * 10 ^ Z.of_nat p in
  if 0 <=? e then num * 2 ^ e
  else
    let den := 2 ^ (- e) in
    let q := num / den in
    let r := num mod den in
    match 2 * r ?= den with
    | Lt => q
    | Gt => q + 1
    | Eq => if Z.even q then q else q + 1
    end.

(** [n / 10^p] written in fixed-point notation with [p] decimals. *)
Definition fixed (p : nat) (n : Z) : string :=
  let int_part := decimal (n / 10 ^ Z.of_nat p) in
  match p with
  | O => int_part
  | _ => int_part ++ "." ++ low_digits p n
  end.

Definition sign_str (s : bool) : string := if s then "-" else "".

(** [f"{x:.<p>f}"] *)
Definition format_f (p : nat) (x : float) : string :=
  match x with
  | S754_nan => "nan"
  | S754_infinity s => sign_str s ++ "inf"
  | S754_zero s => sign_str s ++ fixed p 0
  | S754_finite s m e => sign_str s ++ fixed p (scaled_round p m e)
  end.

(** [WGS84Coords.__str__]:
    [f"{self.lat:.9f},{self.lon:.9f},{self.alt:.2f}"] *)
Definition WGS84Coords_str (self : WGS84Coords) : string :=
  format_f 9 (lat self) ++ "," ++ format_f 9 (lon self) ++ "," ++ format_f 2 (alt self).

(** Two decimal digits, zero padded (as [%02d]); four for [%04d]. *)
Definition pad2 (n : Z) : string := low_digits 2 n.
Definition pad3 (n : Z) : string := low_digits 3 n.
Definition pad4 (n : Z) : string := low_digits 4 n.

(** [dt.isoformat(sep=' ', timespec='milliseconds')] *)
Definition isoformat_ms (dt : datetime) : string :=
  pad4 (year dt) ++ "-" ++ pad2 (month dt) ++ "-" ++ pad2 (day dt) ++ " " ++
  pad2 (hour dt) ++ ":" ++ pad2 (minute dt) ++ ":" ++ pad2 (second dt) ++ "." ++
  pad3 (microsecond dt / 1000).

(** ** Regular expressions

    A backtracking matcher for the constructs the two compiled patterns of
    the module (and the one [strptime] builds) are made of.  Repetition is
    only ever applied to a character class, and is greedy. *)

Module Regex.

Definition charset := ascii -> bool.

Inductive regex :=
| Lit (s : string)                   (* literal text *)
| Set1 (p : charset)                 (* one character of a class *)
| Star (p : charset)                 (* [p*] *)
| Plus (p : charset)                 (* [p+] *)
| Cat (r1 r2 : regex)
| Alt (r1 r2 : regex)                (* [r1|r2], [r1] tried first *)
| Group (name : string) (r : regex)  (* [(?P<name>r)] *)
| Backref (name : string).           (* [\g<name>] *)

(** Captured groups, the most recent first. *)
Definition groups := list (string * string).

Definition group (g : groups) (name : string) : option string :=
  snd <$> find (fun kv => String.eqb (fst kv) name) g.

(** [s] without its prefix [p], if it starts with [p]. *)
Fixpoint strip_prefix (p s : string) : option string :=
  match p, s with
  | EmptyString, _ => Some s
  | String a p', String b s' => if Ascii.eqb a b then strip_prefix p' s' else None
  | String _ _, EmptyString => None
  end.

(** What was consumed between [s] and its suffix [rest]. *)
Definition consumed (s rest : string) : string :=
  substring 0 (String.length s - String.length rest) s.

Section Run.
Context {A : Type}.

(** Greedy repetition: take as many characters as possible, give back
    one at a time while the continuation fails. *)
Fixpoint star (p : charset) (k : string -> option A) (s : string) : option A :=
  match s with
  | String c s' =>
      if p c then
        match star p k s' with
        | Some r => Some r
        | None => k s
        end
      else k s
  | EmptyString => k s
  end.

Fixpoint run (r : regex) (s : string) (g : groups)
    (k : string -> groups -> option A) : option A :=
  match r with
  | Lit l =>
      match strip_prefix l s with Some s' => k s' g | None => None end
  | Set1 p =>
      match s with
      | String c s' => if p c then k s' g else None
      | EmptyString => None
      end
  | Star p => star p (fun s' => k s' g) s
  | Plus p =>
      match s with
      | String c s' => if p c then star p (fun s' => k s' g) s' else None
      | EmptyString => None
      end
  | Cat r1 r2 => run r1 s g (fun s' g' => run r2 s' g' k)
  | Alt r1 r2 =>
      match run r1 s g k with
      | Some x => Some x
      | None => run r2 s g k
      end
  | Group n r1 => run r1 s g (fun s' g' => k s' ((n, consumed s s') :: g'))
  | Backref n =>
      match group g n with
      | Some t =>
          match strip_prefix t s with Some s' => k s' g | None => None end
      | None => None
      end
  end.
End Run.

(** Every character of [w] is of the class [p]. *)
Definition all_in (p : charset) (w : string) : Prop :=
  forallb p (list_ascii_of_string w) = true.

(** What the matcher computes, said without a continuation:
    [matches r g w g'] when [r] can consume exactly the text [w],
    starting with the captured groups [g] and ending with [g']. *)
Inductive matches : regex -> groups -> string -> groups -> Prop :=
| m_lit l g : matches (Lit l) g l g
| m_set p c g : p c = true -> matches (Set1 p) g (String c EmptyString) g
| m_star p w g : all_in p w -> matches (Star p) g w g
| m_plus p w g : w <> EmptyString -> all_in p w -> matches (Plus p) g w g
| m_cat r1 r2 g w1 g1 w2 g2 :
    matches r1 g w1 g1 -> matches r2 g1 w2 g2 ->
    matches (Cat r1 r2) g (w1 ++ w2) g2
| m_alt_l r1 r2 g w g' : matches r1 g w g' -> matches (Alt r1 r2) g w g'
| m_alt_r r1 r2 g w g' : matches r2 g w g' -> matches (Alt r1 r2) g w g'
| m_group n r g w g' : matches r g w g' -> matches (Group n r) g w ((n, w) :: g')
| m_backref n g t : group g n = Some t -> matches (Backref n) g t g.

(** [pattern.fullmatch(s)]: the groups of the first way to match all of
    [s], or [None]. *)
Definition fullmatch (r : regex) (s : string) : option groups :=
  run r s [] (fun rest g => if String.eqb rest "" then Some g else None).

(** Character classes. *)
Definition code (c : ascii) : N := N_of_ascii c.
Definition in_range (lo hi : N) (c : ascii) : bool :=
  ((lo <=? code c) && (code c <=? hi))%N.
Definition any : charset := fun _ => true.
Definition one_of (s : string) : charset :=
  fun c => existsb (Ascii.eqb c) (list_ascii_of_string s).
Definition none_of (s : string) : charset := fun c => negb (one_of s c).
Definition union (p q : charset) : charset := fun c => p c || q c.
Definition digit : charset := in_range 48 57.
(** [\w] on ASCII text. *)
Definition word : charset :=
  fun c => in_range 48 57 c || in_range 65 90 c || in_range 97 122 c
           || (code c =? 95)%N.
(** [\s] of the [regex] module on ASCII text: tab, LF, VT, FF, CR, space. *)
Definition space : charset := fun c => in_range 9 13 c || (code c =? 32)%N.
(** [str.isspace], which is also [\s] of the [re] module, on the code
    points below 256: the above, the separators FS, GS, RS, US, the next
    line control U+0085 and the no-break space U+00A0. *)
Definition isspace : charset :=
  fun c => space c || in_range 28 31 c || (code c =? 133)%N || (code c =? 160)%N.
Definition nul : charset := fun c => (code c =? 0)%N.

End Regex.

Import Regex.

Declare Scope regex_scope.
Delimit Scope regex_scope with re.
Bind Scope regex_scope with regex.
Infix "·" := Cat (at level 40, left associativity) : regex_scope.
Infix "∣" := Alt (at level 50, left associativity) : regex_scope.

(** The double quote, the backslash and the line feed, as one-character
    strings. *)
Definition dq : string := String (ascii_of_nat 34) EmptyString.
Definition backslash : string := String (ascii_of_nat 92) EmptyString.
Definition nl : string := String (ascii_of_nat 10) EmptyString.

(** [_xmp_re], compiled with [DOTALL|X]: white space in the pattern text is
    not part of the pattern, the dot matches every character, and
    [\g<q>] stands for the text the group [q] captured. The anchors
    [\A] and [\Z] are those of [fullmatch]. *)
Definition _xmp_re : regex :=
  (Star space · Lit "<?xpacket" · Plus space
   · Lit "begin=" · (Lit "'" · Star (none_of "'>") · Lit "'"
                     ∣ Lit dq · Star (none_of (dq ++ ">")) · Lit dq)
   · Plus space
   · Lit "id=" · Group "q" (Set1 (one_of (dq ++ "'"))) · Lit "W5M0MpCehiHzreSzNTczkc9d"
   · Backref "q" · Lit "?>"
   · Group "content" (Star any)
   · Lit "<?xpacket" · Plus space
   · Lit "end=" · (Lit "'" · Star (none_of "'>") · Lit "'"
                   ∣ Lit dq · Star (none_of (dq ++ ">")) · Lit dq)
   · Lit "?>" · Star (union space nul))%re.

(** [_tagname_re] *)
Definition _tagname_re : regex :=
  (Lit "{" · Plus (none_of "}") · Lit "}" · Group "name" (Plus word))%re.

(** ** Text and byte helpers *)

(** Text is a sequence of characters of eight bits; a character stands
    for the code point of its code, so that text here is text of code
    points below 256.  Text decoded from ASCII bytes has codes below 128
    only; the text of an XML element can hold any code point, written as a
    character reference. *)

(** [b.decode(encoding='ASCII')] *)
Fixpoint decode_ascii (b : list Byte.byte) : result string :=
  match b with
  | [] => Return EmptyString
  | x :: b' =>
      if (Byte.to_N x <? 128)%N
      then s ← decode_ascii b'; Return (String (ascii_of_byte x) s)
      else Raise UnicodeDecodeError
  end.

(** [value.decode(encoding='ASCII')] on a tag value: only [bytes] has the
    method. *)
Definition decode (v : pyval) : result string :=
  match v with
  | VBytes b => decode_ascii b
  | _ => Raise AttributeError
  end.

Fixpoint lstrip (s : string) : string :=
  match s with
  | String c s' => if isspace c then lstrip s' else s
  | EmptyString => s
  end.

Fixpoint rstrip (s : string) : string :=
  match s with
  | String c s' =>
      match rstrip s' with
      | EmptyString => if isspace c then EmptyString else String c EmptyString
      | t => String c t
      end
  | EmptyString => s
  end.

(** [s.strip()] *)
Definition strip (s : string) : string := rstrip (lstrip s).

(** [sep.join(l)] *)
Fixpoint join (sep : string) (l : list string) : string :=
  match l with
  | [] => EmptyString
  | [s] => s
  | s :: l' => s ++ sep ++ join sep l'
  end.

(** ** XML elements, as [xml.etree.ElementTree] presents them *)

Inductive Element :=
  mkElement (tag : string) (text : string) (children : list Element) (tail : string).

Definition Element_tag (e : Element) : string :=
  let 'mkElement t _ _ _ := e in t.
Definition Element_tail (e : Element) : string :=
  let 'mkElement _ _ _ t := e in t.
Definition Element_children (e : Element) : list Element :=
  let 'mkElement _ _ c _ := e in c.

(** [if t: yield t] *)
Definition nonempty (t : string) : list string :=
  match t with EmptyString => [] | _ => [t] end.

(** [list(e.itertext())]: the element's text, then for each child its own
    texts followed by its tail; empty texts are skipped. *)
Fixpoint itertext (e : Element) : list string :=
  let 'mkElement _ text children _ := e in
  (nonempty text ++
   flat_map (fun c => itertext c ++ nonempty (Element_tail c)) children)%list.

(** [list(e.iter())]: the element and its descendants in document order. *)
Fixpoint iter (e : Element) : list Element :=
  e :: flat_map iter (Element_children e).

(** [x.findall('.//{ns}*')]: every proper descendant of [x] whose tag lies
    in the name space [ns], in document order. *)
Definition findall_ns (ns : string) (x : Element) : list Element :=
  List.filter (fun e => match strip_prefix ("{" ++ ns ++ "}") (Element_tag e) with
                   | Some _ => true | None => false end)
         (flat_map iter (Element_children x)).

(** ** Generators

    A generator of key/value pairs that has no effect besides raising is
    determined by the pairs it yields, in order, and by how it ends: with
    a value, or with an exception raised after the last pair. *)

Record gen (A : Type) := Gen {
  yielded : list (string * pyval);
  outcome : result A }.
Arguments Gen {A} yielded outcome.
Arguments yielded {A} g.
Arguments outcome {A} g.

Definition gen_bind {A B} (k : A -> gen B) (m : gen A) : gen B :=
  match outcome m with
  | Return a => Gen (yielded m ++ yielded (k a))%list (outcome (k a))
  | Raise e => Gen (yielded m) (Raise e)
  end.

#[global] Instance gen_mbind : MBind gen := @gen_bind.
#[global] Instance gen_mret : MRet gen := fun A a => Gen [] (Return a).

(** [yield k, v] *)
Definition yield (k : string) (v : pyval) : gen unit := Gen [(k, v)] (Return tt).

(** An expression evaluated inside the generator. *)
Definition eval {A} (r : result A) : gen A := Gen [] r.

(** [for x in l: body] *)
Fixpoint for_each {A} (l : list A) (body : A -> gen unit) : gen unit :=
  match l with
  | [] => mret tt
  | x :: l' => _ ← body x; for_each l' body
  end.

(** ** The tag normaliser *)

(** A [tifffile.TiffPage], reduced to its tag collection. *)
Record TiffPage := mkTiffPage { tags : list TiffTag }.

(** [page.tags[key]]: the first tag of that name. *)
Definition tags_getitem (page : TiffPage) (key : string) : result TiffTag :=
  match find (fun t => String.eqb (name t) key) (tags page) with
  | Some t => Return t
  | None => Raise (KeyError (VStr key))
  end.

(** [key in page.tags] *)
Definition tags_contains (page : TiffPage) (key : string) : bool :=
  existsb (fun t => String.eqb (name t) key) (tags page).

(** [m.group(name)]; the groups asked for take part in every match of
    their pattern. *)
Definition group_text (m : groups) (n : string) : string :=
  default EmptyString (group m n).

Definition ns_dji : string := "http://www.dji.com/drone-dji/1.0/".
Definition ns_flir : string := "http://www.dji.com/FLIR/1.0/".

Section Normaliser.

(** [xml.etree.ElementTree.fromstring], which raises [ParseError] on text
    that is not well-formed. *)
Variable fromstring : string -> result Element.

(** The body of [if tag.name == 'XMP']. *)
Definition xmp_branch (tag : TiffTag) : gen unit :=
  text ← eval (decode (value tag));
  match fullmatch _xmp_re text with
  | None => eval (Raise (RuntimeError "Failed to parse XMP" [value tag]))
  | Some m =>
      x ← eval (fromstring (group_text m "content"));
      for_each (findall_ns ns_dji x ++ findall_ns ns_flir x)%list (fun e =>
        match fullmatch _tagname_re (Element_tag e) with
        | None => eval (Raise (RuntimeError "Failed to parse tag name"
                                 [VStr (Element_tag e)]))
        | Some m => yield (group_text m "name") (VStr (strip (join " " (itertext e))))
        end)
  end.

(** The body of [elif isinstance(tag.value, dict)]. *)
Definition dict_branch (d : pydict) : gen unit :=
  for_each d (fun kv =>
    match snd kv with
    | VBytes b => s ← eval (decode_ascii b); yield (fst kv) (VStr s)
    | v => yield (fst kv) v
    end).

(** The body of [for tag in page.tags]. *)
Definition tag_branch (tag : TiffTag) : gen unit :=
  if String.eqb (name tag) "XMP" then xmp_branch tag
  else match value tag with
       | VDict d => dict_branch d
       | VEnum n _ => yield (name tag) (VStr n)
       | v => yield (name tag) v
       end.

Definition not_a_dji_xt2 (page : TiffPage) : gen unit :=
  mk ← eval (tags_getitem page "Make");
  md ← eval (tags_getitem page "Model");
  eval (Raise (RuntimeError "This is not a DJI XT2, it is a" [value mk; value md])).

Definition _page_tagconv_it (page : TiffPage) : gen unit :=
  mk ← eval (tags_getitem page "Make");
  if negb (eq_str (value mk) "DJI") then not_a_dji_xt2 page else
  md ← eval (tags_getitem page "Model");
  if negb (eq_str (value md) "XT2") then not_a_dji_xt2 page else
  _ ← for_each (tags page) tag_branch;
  if tags_contains page "GPSTag" then
    t ← eval (tags_getitem page "GPSTag");
    c ← eval (convert_gpstag t);
    yield "Coords" (VCoords c)
  else mret tt.

End Normaliser.

(** ** Dates, times and integers from text *)

(** The value of a string of decimal digits. *)
Definition digits_value (s : string) : Z :=
  fold_left (fun acc c => 10 * acc + (Z.of_N (code c) - 48))
            (list_ascii_of_string s) 0.

(** [[lo-hi]] *)
Definition rng (lo hi : ascii) : regex := Set1 (in_range (code lo) (code hi)).

(** The pattern [datetime.strptime] compiles for ['%Y:%m:%d %H:%M:%S']:
    [(?P<Y>\d\d\d\d):(?P<m>1[0-2]|0[1-9]|[1-9]):(?P<d>3[0-1]|[1-2]\d|0[1-9]|[1-9]| [1-9])\s+(?P<H>2[0-3]|[0-1]\d|\d):(?P<M>[0-5]\d|\d):(?P<S>6[0-1]|[0-5]\d|\d)] *)
Definition strptime_re : regex :=
  let d := Set1 digit in
  (Group "Y" (d · d · d · d) · Lit ":"
   · Group "m" (Lit "1" · rng "0" "2" ∣ Lit "0" · rng "1" "9" ∣ rng "1" "9") · Lit ":"
   · Group "d" (Lit "3" · rng "0" "1" ∣ rng "1" "2" · d ∣ Lit "0" · rng "1" "9"
                ∣ rng "1" "9" ∣ Lit " " · rng "1" "9")
   · Plus isspace
   · Group "H" (Lit "2" · rng "0" "3" ∣ rng "0" "1" · d ∣ d) · Lit ":"
   · Group "M" (rng "0" "5" · d ∣ d) · Lit ":"
   · Group "S" (Lit "6" · rng "0" "1" ∣ rng "0" "5" · d ∣ d))%re.

Definition is_leap (y : Z) : bool :=
  (y mod 4 =? 0) && (negb (y mod 100 =? 0) || (y mod 400 =? 0)).

Definition days_in_month (y m : Z) : Z :=
  if m =? 2 then (if is_leap y then 29 else 28)
  else if (m =? 4) || (m =? 6) || (m =? 9) || (m =? 11) then 30
  else 31.

(** The checks of the [datetime] constructor. *)
Definition valid_datetime (dt : datetime) : bool :=
  (1 <=? year dt) && (year dt <=? 9999)
  && (1 <=? month dt) && (month dt <=? 12)
  && (1 <=? day dt) && (day dt <=? days_in_month (year dt) (month dt))
  && (0 <=? hour dt) && (hour dt <=? 23)
  && (0 <=? minute dt) && (minute dt <=? 59)
  && (0 <=? second dt) && (second dt <=? 59)
  && (0 <=? microsecond dt) && (microsecond dt <=? 999999).

Definition make_datetime (dt : datetime) : result datetime :=
  if valid_datetime dt then Return dt else Raise (ValueError "datetime").

(** [datetime.datetime.strptime(v, '%Y:%m:%d %H:%M:%S')] *)
Definition strptime (v : pyval) : result datetime :=
  match v with
  | VStr s =>
      match fullmatch strptime_re s with
      | None => Raise (ValueError "strptime")
      | Some m =>
          let field n := digits_value (lstrip (group_text m n)) in
          make_datetime {| year := field "Y"; month := field "m"; day := field "d";
                           hour := field "H"; minute := field "M"; second := field "S";
                           microsecond := 0 |}
      end
  | _ => Raise TypeError
  end.

(** [dt] with its microsecond field set to [us]. *)
Definition with_microsecond (dt : datetime) (us : Z) : datetime :=
  {| year := year dt; month := month dt; day := day dt;
     hour := hour dt; minute := minute dt; second := second dt;
     microsecond := us |}.

(** [dt.replace(microsecond=us)]: the argument is converted to a C [int],
    which fails with [OverflowError] outside 32 bits; the new [datetime]
    is then checked as any other. *)
Definition replace_microsecond (dt : datetime) (us : Z) : result datetime :=
  if (us <? - 2147483648) || (2147483647 <? us) then Raise OverflowError
  else make_datetime (with_microsecond dt us).

(** Digits with single underscores between them, as [int()] accepts. *)
Fixpoint int_digits (s : string) (after_digit : bool) (acc : Z) : option Z :=
  match s with
  | EmptyString => if after_digit then Some acc else None
  | String c s' =>
      if digit c then int_digits s' true (10 * acc + (Z.of_N (code c) - 48))
      else if Ascii.eqb c "_" && after_digit then int_digits s' false acc
      else None
  end.

(** [s] without the characters of the class [p] at its start, at its end. *)
Fixpoint skip_left (p : charset) (s : string) : string :=
  match s with
  | String c s' => if p c then skip_left p s' else s
  | EmptyString => s
  end.

Fixpoint skip_right (p : charset) (s : string) : string :=
  match s with
  | String c s' =>
      match skip_right p s' with
      | EmptyString => if p c then EmptyString else String c EmptyString
      | t => String c t
      end
  | EmptyString => s
  end.

(** What [int()] makes of a character before it reads the text: an ASCII
    character is kept, white space beyond ASCII becomes a space, and
    anything else beyond ASCII (no code point below 256 is a decimal digit
    there) becomes a character that no number holds. *)
Definition int_char (c : ascii) : ascii :=
  if (code c <? 127)%N then c
  else if isspace c then " "%char
  else "?"%char.

(** [sys.get_int_max_str_digits()], as the interpreter starts. *)
Definition max_str_digits : nat := 4300.

Definition count_digits (s : string) : nat :=
  length (List.filter digit (list_ascii_of_string s)).

(** [int(s)] for text: white space of the C locale (tab, LF, VT, FF, CR,
    space) at both ends, an optional sign, digits; a text of more than
    [max_str_digits] digits is refused. *)
Definition int_of_text (s : string) : result Z :=
  let text := string_of_list_ascii (map int_char (list_ascii_of_string s)) in
  let body := skip_right space (skip_left space text) in
  let parsed :=
    match body with
    | String "-" b => Z.opp <$> int_digits b false 0
    | String "+" b => int_digits b false 0
    | _ => int_digits body false 0
    end in
  match parsed with
  | Some n =>
      if (max_str_digits <? count_digits body)%nat then Raise (ValueError "int")
      else Return n
  | None => Raise (ValueError "int")
  end.

(** [int(x)] for a float: truncation towards zero. *)
Definition int_of_float (x : float) : result Z :=
  match x with
  | S754_nan => Raise (ValueError "int")
  | S754_infinity _ => Raise OverflowError
  | S754_zero _ => Return 0
  | S754_finite s m e =>
      let a := if 0 <=? e then Zpos m * 2 ^ e else Zpos m / 2 ^ (- e) in
      Return (if s then - a else a)
  end.

(** [int(v)] *)
Definition int (v : pyval) : result Z :=
  match v with
  | VInt n | VEnum _ n => Return n
  | VFloat x => int_of_float x
  | VStr s => int_of_text s
  | VBytes b =>
      if forallb (fun x => (Byte.to_N x <? 128)%N) b
      then int_of_text (string_of_list_byte b)
      else Raise (ValueError "int")
  | _ => Raise TypeError
  end.

(** ** The property assembler *)

(** [d[k] = v]: replaces the value of a present key where it stands, adds a
    new key at the end. *)
Fixpoint dict_set (d : pydict) (k : string) (v : pyval) : pydict :=
  match d with
  | [] => [(k, v)]
  | (k', v') :: d' =>
      if String.eqb k' k then (k, v) :: d' else (k', v') :: dict_set d' k v
  end.

(** The loop [for k, v in ...: if k in atts: raise KeyError(...); atts[k] = v]
    over the pairs a generator hands out. *)
Fixpoint collect (pairs : list (string * pyval)) (atts : pydict) : result pydict :=
  match pairs with
  | [] => Return atts
  | (k, v) :: pairs' =>
      match dict_get atts k with
      | Some old => Raise (KeyExists k old v)
      | None => collect pairs' (dict_set atts k v)
      end
  end.

(** Running the loop against a generator: the pairs are consumed as they
    are yielded, so the loop fails on a pair before the generator gets to
    raise after it. *)
Definition consume (g : gen unit) (atts : pydict) : result pydict :=
  atts ← collect (yielded g) atts;
  _ ← outcome g;
  Return atts.

(** The date/time fixup at the end of [pageprops]. *)
Definition fixup_datetime (atts : pydict) : result pydict :=
  if dict_in "DateTimeOriginal" atts then
    v ← getitem (VDict atts) "DateTimeOriginal";
    dt ← strptime v;
    dt ← (if dict_in "SubsecTimeOriginal" atts then
            s ← getitem (VDict atts) "SubsecTimeOriginal";
            n ← int s;
            replace_microsecond dt (n * 10000)
          else Return dt);
    Return (dict_set atts "DateTimeOriginal" (VDateTime dt))
  else Return atts.

Section Assembler.

Variable fromstring : string -> result Element.

Definition pageprops (idx : Z) (page : TiffPage) : result pydict :=
  atts ← consume (_page_tagconv_it fromstring page) [];
  fixup_datetime atts.

End Assembler.

(** ** JSON *)

Definition hex_digit (d : N) : ascii :=
  ascii_of_N (if (d <? 10)%N then 48 + d else 87 + d).

(** One character of a string, as [json] writes it with [ensure_ascii]. *)
Definition json_char (c : ascii) : string :=
  let n := code c in
  if (n =? 34)%N then backslash ++ dq
  else if (n =? 92)%N then backslash ++ backslash
  else if (n =? 10)%N then backslash ++ "n"
  else if (n =? 13)%N then backslash ++ "r"
  else if (n =? 9)%N then backslash ++ "t"
  else if (n =? 8)%N then backslash ++ "b"
  else if (n =? 12)%N then backslash ++ "f"
  else if (n <? 32)%N || (126 <? n)%N then
    backslash ++ "u00"
    ++ String (hex_digit (n / 16)) (String (hex_digit (n mod 16)) EmptyString)
  else String c EmptyString.

Definition json_string (s : string) : string :=
  dq ++ String.concat EmptyString (map json_char (list_ascii_of_string s)) ++ dq.

Definition spaces (n : nat) : string := string_of_list_ascii (repeat " "%char n).

(** [opening + items + closing] laid out with [indent=2] at nesting depth
    [level]. *)
Definition json_block (opening closing : string) (level : nat) (items : list string) : string :=
  match items with
  | [] => opening ++ closing
  | _ =>
      opening ++ nl ++ spaces (2 * S level)
      ++ join ("," ++ nl ++ spaces (2 * S level)) items
      ++ nl ++ spaces (2 * level) ++ closing
  end.

Section Json.

(** [float.__repr__] for a finite float: the shortest decimal text that
    reads back as the same float. *)
Variable float_repr : float -> string.

Definition json_float (x : float) : string :=
  match x with
  | S754_nan => "NaN"
  | S754_infinity s => sign_str s ++ "Infinity"
  | _ => float_repr x
  end.

(** The encoding of a value at nesting depth [level]. *)
Fixpoint json_value (level : nat) (v : pyval) {struct v} : result string :=
  match v with
  | VInt n | VEnum _ n => Return (int_str n)
  | VFloat x => Return (json_float x)
  | VStr s => Return (json_string s)
  | VTuple l =>
      items ← (fix encode_items (l : list pyval) : result (list string) :=
                 match l with
                 | [] => Return []
                 | x :: l' =>
                     match json_value (S level) x with
                     | Return s =>
                         match encode_items l' with
                         | Return ss => Return (s :: ss)
                         | Raise e => Raise e
                         end
                     | Raise e => Raise e
                     end
                 end) l;
      Return (json_block "[" "]" level items)
  | VDict d =>
      items ← (fix encode_items (d : pydict) : result (list string) :=
                 match d with
                 | [] => Return []
                 | (k, x) :: d' =>
                     match json_value (S level) x with
                     | Return s =>
                         match encode_items d' with
                         | Return ss => Return ((json_string k ++ ": " ++ s) :: ss)
                         | Raise e => Raise e
                         end
                     | Raise e => Raise e
                     end
                 end) d;
      Return (json_block "{" "}" level items)
  | VCoords c =>
      Return (json_block "[" "]" level
                [json_float (lat c); json_float (lon c); json_float (alt c)])
  | VBytes _ | VDateTime _ => Raise TypeError
  end.

(** [json.dumps(d, indent=2)] *)
Definition json_dumps (d : pydict) : result string := json_value 0 (VDict d).

End Json.

(** ** Objects and the JSON serialiser

    Dictionaries are mutable objects: a variable holds the address of one
    in the heap, and two variables may hold the same address. *)

Abbreviation loc := nat.
Abbreviation heap := (list pydict).

(** A computation that reads and updates the heap and may raise. *)
Record action (A : Type) := Action { run_action : heap -> heap * result A }.
Arguments Action {A} run_action.
Arguments run_action {A} a h.

#[global] Instance action_mret : MRet action := fun A a => Action (fun h => (h, Return a)).
#[global] Instance action_mbind : MBind action := fun A B k m =>
  Action (fun h =>
    match run_action m h with
    | (h', Return a) => run_action (k a) h'
    | (h', Raise e) => (h', Raise e)
    end).

Definition lift {A} (r : result A) : action A := Action (fun h => (h, r)).

(** The dictionary at an address; [TypeError] stands for an argument that
    is not a dictionary at all. *)
Definition deref (l : loc) : action pydict :=
  Action (fun h => match h !! l with
                   | Some d => (h, Return d)
                   | None => (h, Raise TypeError)
                   end).

(** [d.copy()]: a new object with the same keys and values. *)
Definition copy (l : loc) : action loc :=
  d ← deref l;
  Action (fun h => ((h ++ [d])%list, Return (length h))).

(** [k in d] *)
Definition contains (l : loc) (k : string) : action bool :=
  d ← deref l; mret (dict_in k d).

(** [d[k]] *)
Definition load (l : loc) (k : string) : action pyval :=
  d ← deref l; lift (getitem (VDict d) k).

(** [d[k] = v] *)
Definition store (l : loc) (k : string) (v : pyval) : action unit :=
  d ← deref l;
  Action (fun h => (<[l := dict_set d k v]> h, Return tt)).

(** [v.isoformat(sep=' ', timespec='milliseconds')]: a method of
    [datetime] only. *)
Definition isoformat (v : pyval) : result string :=
  match v with
  | VDateTime dt => Return (isoformat_ms dt)
  | _ => Raise AttributeError
  end.

Section Serialiser.

Variable float_repr : float -> string.
(** The built-in [str] on values other than a [WGS84Coords]. *)
Variable builtin_str : pyval -> string.

(** [str(v)] *)
Definition str (v : pyval) : string :=
  match v with
  | VCoords c => WGS84Coords_str c
  | _ => builtin_str v
  end.

Definition props2json (atts : loc) : action string :=
  atts2 ← copy atts;
  b ← contains atts2 "DateTimeOriginal";
  _ ← (if b : bool then
         v ← load atts2 "DateTimeOriginal";
         s ← lift (isoformat v);
         store atts2 "DateTimeOriginal" (VStr s)
       else mret tt);
  b ← contains atts2 "Coords";
  _ ← (if b : bool then
         v ← load atts2 "Coords";
         store atts2 "Coords" (VStr (str v))
       else mret tt);
  d ← deref atts2;
  lift (json_dumps float_repr d).

End Serialiser.

(** ** Vocabulary of the specification *)

(** The coordinate after the hemisphere reference is applied. *)
Definition signed (negate : bool) (x : float) : float :=
  if negate then Float.opp x else x.

(** The group carries the expected tag name and datum. *)
Record datum_ok (tag : TiffTag) (gps : pydict) : Prop := {
  d_name : name tag = "GPSTag";
  d_value : value tag = VDict gps;
  d_datum : dict_get gps "GPSMapDatum" = Some (VStr "WGS-84") }.

(** The sequence [y] at [key] has six elements and decodes to [m]. *)
Record decodes (gps : pydict) (key : string) (y : pyval) (m : float) : Prop := {
  s_entry : dict_get gps key = Some y;
  s_shape : len y = Return 6;
  s_decode : sexagesimal y = Return m }.

(** A GPS tag group that passes the datum, shape and range validation of
    [convert_gpstag]: [y] and [x] are its latitude and longitude
    sequences, [mlat] and [mlon] the magnitudes decoded from them. *)
Record validated (tag : TiffTag) (gps : pydict) (y x : pyval) (mlat mlon : float) : Prop := {
  v_datum : datum_ok tag gps;
  v_lat : decodes gps "GPSLatitude" y mlat;
  v_lat_range : out_of_range mlat 90 = false;
  v_lon : decodes gps "GPSLongitude" x mlon;
  v_lon_range : out_of_range mlon 180 = false }.

(** The altitude part of a group decodes to [a]. *)
Definition altitude_decodes (gps : pydict) (a : float) : Prop :=
  altitude (VDict gps) = Return a.






(** What the nested-group branch yields for an entry: the value itself,
    or the text of a byte value. *)
Definition entry_yielded (kv out : string * pyval) : Prop :=
  fst out = fst kv /\
  (snd out = snd kv \/
   exists b s, snd kv = VBytes b /\ decode_ascii b = Return s /\ snd out = VStr s).

(** The identifier every XMP packet of the camera carries. *)
Definition xpacket_id : string := "W5M0MpCehiHzreSzNTczkc9d".

(** The envelope [_xmp_re] describes, spelled out: the packet header with
    its [begin] and [id] attributes, the content, the trailer with its
    [end] attribute, and padding. *)
Definition envelope (text content : string) : Prop :=
  exists lead sp1 b sp2 q sp3 e pad,
    text = lead ++ "<?xpacket" ++ sp1 ++ "begin=" ++ b ++ sp2
           ++ "id=" ++ q ++ xpacket_id ++ q ++ "?>"
           ++ content
           ++ "<?xpacket" ++ sp3 ++ "end=" ++ e ++ "?>" ++ pad /\
    (q = dq \/ q = "'") /\
    all_in space lead /\ all_in (union space nul) pad.

(** [t] occurs in [s]. *)
Definition occurs (t s : string) : Prop := exists a b, s = a ++ t ++ b.

(** Text made of decimal digits only. *)
Definition all_digits (s : string) : bool :=
  forallb Regex.digit (list_ascii_of_string s).

(** ** Sample data *)

(** A tuple of [int]s, as [tifffile] delivers a RATIONAL tag. *)
Definition ints (l : list Z) : pyval := VTuple (map VInt l).

(** The float nearest to [n/d]: what the literal for that decimal denotes. *)
Definition ratio (n d : Z) : float := Float.div (Float.exact n) (Float.exact d).

Definition gps_group (datum : string) (lat : list Z) (latref : string)
    (lon : list Z) (lonref : string) (altref : Z) (alt : list Z) : pydict :=
  [("GPSLatitudeRef", VStr latref); ("GPSLatitude", ints lat);
   ("GPSLongitudeRef", VStr lonref); ("GPSLongitude", ints lon);
   ("GPSAltitudeRef", VInt altref); ("GPSAltitude", ints alt);
   ("GPSMapDatum", VStr datum)].

Definition gpstag (gps : pydict) : TiffTag := mkTiffTag "GPSTag" (VDict gps).

(** 52°30'N 13°24'E, 34.12 m. *)
Definition berlin : pydict :=
  gps_group "WGS-84" [52; 1; 30; 1; 0; 1] "N" [13; 1; 24; 1; 0; 1] "E" 0 [3412; 100].

(** 33°51'S 70°39'W, 520 m. *)
Definition santiago : pydict :=
  gps_group "WGS-84" [33; 1; 27; 1; 0; 1] "S" [70; 1; 39; 1; 0; 1] "W" 0 [520; 1].

(** A longitude of 200 degrees behind a latitude reference that is neither
    'N' nor 'S'. *)
Definition lon200_latref_X : pydict :=
  gps_group "WGS-84" [10; 1; 0; 1; 0; 1] "X" [200; 1; 0; 1; 0; 1] "E" 0 [1; 1].



(** [b'...'] *)
Definition bytes (s : string) : pyval := VBytes (list_byte_of_string s).

(** An XML parser that accepts nothing. *)
Definition no_xml (s : string) : result Element := Raise ParseError.

Definition make_dji : TiffTag := mkTiffTag "Make" (VStr "DJI").
Definition model_xt2 : TiffTag := mkTiffTag "Model" (VStr "XT2").

(** A nested group repeats the key of a top-level tag; an XMP tag that
    cannot be parsed follows. *)
Definition page_duplicate : TiffPage :=
  mkTiffPage [make_dji; model_xt2;
              mkTiffTag "ExifTag" (VDict [("Make", VStr "Hasselblad")]);
              mkTiffTag "XMP" (bytes "junk")].

(** A page whose EXIF group carries the given date/time and sub-second
    texts. *)
Definition page_taken (when subsec : string) : TiffPage :=
  mkTiffPage [make_dji; model_xt2;
              mkTiffTag "ExifTag" (VDict [("DateTimeOriginal", VStr when);
                                          ("SubsecTimeOriginal", VStr subsec)])].

(** Stand-ins for [float.__repr__] and the built-in [str], for maps on
    which neither is called. *)
Definition no_repr (x : float) : string := EmptyString.
Definition no_str (v : pyval) : string := EmptyString.

(** The coordinate (lat=52.5, lon=13.4, alt=34.12). *)
Definition berlin_coords : WGS84Coords :=
  {| lat := ratio 525 10; lon := ratio 134 10; alt := ratio 3412 100 |}.

(** An assembled map with a timestamp and a coordinate. *)
Definition assembled : pydict :=
  [("Make", VStr "DJI");
   ("DateTimeOriginal", VDateTime (mkdatetime 2022 5 1 12 0 0 500000));
   ("Coords", VCoords berlin_coords)].

(** ** Framing

    [frames n a Q]: run on a heap of at least [n] objects, the action [a]
    leaves the first [n] objects as they were, whether it returns or
    raises, and a value it returns satisfies [Q]. *)
Definition frames {A} (n : nat) (a : action A) (Q : A -> Prop) : Prop :=
  forall h h' r,
    (n <= length h)%nat -> run_action a h = (h', r) ->
    (n <= length h')%nat /\
    (forall l, (l < n)%nat -> h' !! l = h !! l) /\
    (forall v, r = Return v -> Q v).

(** A page with some tags around its GPS tag group. *)
Definition page_with_gps : TiffPage :=
  mkTiffPage [mkTiffTag "ImageWidth" (VInt 640); make_dji; model_xt2;
              gpstag berlin; mkTiffTag "Software" (VStr "V01.02")].

(** An XMP packet around [content], with the identifier [id]. *)
Definition xpacket (id content : string) : string :=
  "<?xpacket begin='' id='" ++ id ++ "'?>" ++ content ++ "<?xpacket end='w'?>" ++ nl.

(** A page whose XMP tag carries [payload]. *)
Definition page_with_xmp (payload : string) : TiffPage :=
  mkTiffPage [make_dji; model_xt2; mkTiffTag "XMP" (bytes payload)].

(** ** Further vocabulary *)

(** [x] is neither above [hi] nor below [-hi]. *)
Definition within (x : float) (hi : Z) : Prop :=
  Float.ltb (Float.of_Z hi) x = false /\ Float.ltb x (Float.of_Z (- hi)) = false.

(** A latitude sequence of five elements in an otherwise valid group. *)
Definition lat_five : pydict :=
  gps_group "WGS-84" [52; 1; 30; 1; 0] "N" [13; 1; 24; 1; 0; 1] "E" 0 [3412; 100].

(** A valid position without an altitude entry. *)
Definition no_altitude : pydict :=
  [("GPSLatitudeRef", VStr "N"); ("GPSLatitude", ints [52; 1; 30; 1; 0; 1]);
   ("GPSLongitudeRef", VStr "E"); ("GPSLongitude", ints [13; 1; 24; 1; 0; 1]);
   ("GPSAltitudeRef", VInt 0); ("GPSMapDatum", VStr "WGS-84")].

(** A page of another camera, with a tag that would not parse. *)
Definition page_other_camera : TiffPage :=
  mkTiffPage [mkTiffTag "Make" (VStr "FLIR"); mkTiffTag "Model" (VStr "Vue Pro");
              mkTiffTag "XMP" (bytes "junk")].

(** The keys a tag contributes to the stream. *)
Definition keys_of (fromstring : string -> result Element) (tag : TiffTag) : list string :=
  map fst (yielded (tag_branch fromstring tag)).

(** A page with a tag named as the synthesised key. *)
Definition page_coords_twice : TiffPage :=
  mkTiffPage [make_dji; model_xt2; mkTiffTag "Coords" (VStr "here"); gpstag berlin].

(** A page with a sub-second text and no date/time. *)
Definition page_subsec_only : TiffPage :=
  mkTiffPage [make_dji; model_xt2; mkTiffTag "SubsecTimeOriginal" (VStr "250")].

(** Bytes below 128. *)
Definition is_ascii (b : list Byte.byte) : bool :=
  forallb (fun x => (Byte.to_N x <? 128)%N) b.

(** What the nested-group branch makes of an entry that it can yield. *)
Definition entry_pair (kv : string * pyval) : string * pyval :=
  match snd kv with
  | VBytes b => (fst kv, VStr (string_of_list_byte b))
  | v => (fst kv, v)
  end.

(** The entry is a byte value that is not ASCII. *)
Definition undecodable (kv : string * pyval) : Prop :=
  exists b, snd kv = VBytes b /\ is_ascii b = false.

(** A page whose EXIF group has a byte value that is not ASCII after a
    first entry. *)
Definition page_bad_bytes : TiffPage :=
  mkTiffPage [make_dji; model_xt2;
              mkTiffTag "ExifTag" (VDict [("ExifVersion", bytes "0210");
                                          ("MakerNote", VBytes [Byte.xff])])].

(** The class [p] cannot go on into [rest]. *)
Definition stops (p : charset) (rest : string) : Prop :=
  match rest with
  | EmptyString => True
  | String c _ => p c = false
  end.

(** A non-empty text of word characters. *)
Definition is_word (s : string) : bool :=
  negb (String.eqb s EmptyString) && forallb word (list_ascii_of_string s).

(** What follows the first closing brace of [s]. *)
Fixpoint after_brace (s : string) : string :=
  match s with
  | EmptyString => EmptyString
  | String c s' => if Ascii.eqb c "}" then s' else after_brace s'
  end.

(** The elements the XMP branch visits: those of the DJI name space in
    document order, then those of the FLIR name space. *)
Definition xmp_elements (x : Element) : list Element :=
  (findall_ns ns_dji x ++ findall_ns ns_flir x)%list.

(** The local name of an element is a non-empty word. *)
Definition well_named (e : Element) : bool :=
  is_word (after_brace (Element_tag e)).

(** The pair an element stands for: its local name and its trimmed text. *)
Definition xmp_entry (e : Element) : string * pyval :=
  (after_brace (Element_tag e), VStr (strip (join " " (itertext e)))).

Definition starts_with_space (s : string) : bool :=
  match s with
  | String c _ => isspace c
  | EmptyString => false
  end.

Fixpoint ends_with_space (s : string) : bool :=
  match s with
  | EmptyString => false
  | String c EmptyString => isspace c
  | String _ s' => ends_with_space s'
  end.

(** The no-break space U+00A0 and the next line control U+0085, as
    one-character strings. *)
Definition nbsp : string := String (ascii_of_nat 160) EmptyString.
Definition nel : string := String (ascii_of_nat 133) EmptyString.

(** A document with one FLIR element before one DJI element, the second
    with a no-break space and a next line control around its text, and the
    tree [fromstring] gives for it. *)
Definition sample_content : string :=
  "<r xmlns:d='http://www.dji.com/drone-dji/1.0/' xmlns:f='http://www.dji.com/FLIR/1.0/'>"
  ++ "<f:TlinearGain> 0.04 </f:TlinearGain>"
  ++ "<d:GimbalRollDegree>&#160; +0.00 &#133;</d:GimbalRollDegree></r>".

Definition sample_tree : Element :=
  mkElement "r" "" [
    mkElement "{http://www.dji.com/FLIR/1.0/}TlinearGain" " 0.04 " [] "";
    mkElement "{http://www.dji.com/drone-dji/1.0/}GimbalRollDegree"
              (nbsp ++ " +0.00 " ++ nel) [] ""
  ] "".

(** [fromstring] as far as it is known here: on [sample_content]. *)
Definition parse_sample (s : string) : result Element :=
  if String.eqb s sample_content then Return sample_tree else Raise ParseError.

(** A quoted attribute value, as [_xmp_re] takes it: between single
    quotes without a single quote or '>', or between double quotes
    without a double quote or '>'. *)
Definition attribute (s : string) : Prop :=
  exists v,
    (s = "'" ++ v ++ "'" /\ all_in (none_of "'>") v) \/
    (s = dq ++ v ++ dq /\ all_in (none_of (dq ++ ">")) v).

(** An XMP packet around [content]: an [envelope] whose attributes are
    quoted values and whose white space is there, and whose [end] value
    has no '<'. *)
Definition packet (text content : string) : Prop :=
  exists lead sp1 b sp2 q sp3 e pad,
    text = lead ++ "<?xpacket" ++ sp1 ++ "begin=" ++ b ++ sp2
           ++ "id=" ++ q ++ xpacket_id ++ q ++ "?>"
           ++ content
           ++ "<?xpacket" ++ sp3 ++ "end=" ++ e ++ "?>" ++ pad /\
    all_in space lead /\
    (sp1 <> EmptyString /\ all_in space sp1) /\ attribute b /\
    (sp2 <> EmptyString /\ all_in space sp2) /\ (q = dq \/ q = "'") /\
    (sp3 <> EmptyString /\ all_in space sp3) /\
    (attribute e /\ all_in (none_of "<") e) /\
    all_in (union space nul) pad.

(** ** The example script

    A generator of items, as a consumer sees it: it is exhausted, or it
    yields an item and goes on when asked again, or it raises.  What
    follows an item is only computed when the consumer asks for more. *)

Inductive stream (A : Type) :=
| Done
| Yield (a : A) (rest : stream A)
| Fail (e : exn).
Arguments Done {A}.
Arguments Yield {A} a rest.
Arguments Fail {A} e.

(** What [next] gives: an item, [StopIteration], or the exception the
    generator raised. *)
Inductive fetched (A : Type) :=
| Got (a : A)
| StopIteration
| Raised (e : exn).
Arguments Got {A} a.
Arguments StopIteration {A}.
Arguments Raised {A} e.

(** [next(islice(iterable, n, n+1))] for [n >= 0]: [n] items are taken
    and dropped, the next one is returned. *)
Fixpoint nth_item {A} (n : Z) (iterable : stream A) {struct iterable} : fetched A :=
  match iterable with
  | Done => StopIteration
  | Fail e => Raised e
  | Yield a rest => if n <=? 0 then Got a else nth_item (n - 1) rest
  end.

Section Plot.

(** [numpy.ndarray] *)
Variable ndarray : Type.
(** [TiffFile(fn).pages], which raises for a file that cannot be read. *)
Variable TiffFile : string -> result (list TiffPage).
(** [page.asarray()] *)
Variable asarray : TiffPage -> result ndarray.
Variable fromstring : string -> result Element.
(** [sys.maxsize], the largest index of the platform. *)
Variable maxsize : Z.
(** The text of the [ValueError] of [islice] for the given bounds. *)
Variable islice_message : Z -> Z -> string.

(** [iter_nth]: [islice] refuses, before it asks the iterable for
    anything, a bound that is negative or above [sys.maxsize]; the bounds
    are [n] and [n + 1]. *)
Definition iter_nth {A} (iterable : stream A) (n : Z) : fetched A :=
  if (n <? 0) || (maxsize <? n + 1)
  then Raised (ValueError (islice_message n (n + 1)))
  else nth_item n iterable.

(** [page.asarray(), pageprops(idx=idx, page=page)] *)
Definition page_item (idx : Z) (page : TiffPage) : result (ndarray * pydict) :=
  a ← asarray page;
  d ← pageprops fromstring idx page;
  Return (a, d).

(** [for idx, page in enumerate(pages, idx): yield ...], followed by
    [next]. *)
Fixpoint each_page (idx : Z) (pages : list TiffPage)
    (next : stream (ndarray * pydict)) : stream (ndarray * pydict) :=
  match pages with
  | [] => next
  | page :: pages' =>
      match page_item idx page with
      | Return item => Yield item (each_page (idx + 1) pages' next)
      | Raise e => Fail e
      end
  end.

Fixpoint allimgs (files : list string) : stream (ndarray * pydict) :=
  match files with
  | [] => Done
  | fn :: files' =>
      match TiffFile fn with
      | Return pages => each_page 0 pages (allimgs files')
      | Raise e => Fail e
      end
  end.

(** Every page of [pages], counted from 0, gives its item. *)
Definition all_given (pages : list TiffPage) : Prop :=
  forall i p, pages !! i = Some p -> exists x, page_item (Z.of_nat i) p = Return x.

End Plot.
Arguments page_item {ndarray} asarray fromstring idx page.
Arguments each_page {ndarray} asarray fromstring idx pages next.
Arguments allimgs {ndarray} TiffFile asarray fromstring files.
Arguments all_given {ndarray} asarray fromstring pages.

(** A file of two pages, the first of another camera, and files that
    cannot be read. *)
Definition two_pages (fn : string) : result (list TiffPage) :=
  if String.eqb fn "a.tif" then Return [page_other_camera; mkTiffPage [make_dji; model_xt2]]
  else if String.eqb fn "b.tif" then Return [mkTiffPage [make_dji; model_xt2]]
  else Raise (RuntimeError "not a TIFF file" []).

(** Pixels as a number of them. *)
Definition no_pixels (page : TiffPage) : result nat := Return 0%nat.

Definition no_message (start stop : Z) : string := EmptyString.

(** [sys.maxsize] where addresses have 64 bits. *)
Definition maxsize64 : Z := 9223372036854775807.

(** What [props2json] writes for a pair of a map that [pageprops]
    returned: the timestamp as ISO text with milliseconds, the coordinate
    as its text, everything else as it is. *)
Definition printable (builtin_str : pyval -> string) (kv : string * pyval)
    : string * pyval :=
  let k := fst kv in
  let v := snd kv in
  if String.eqb k "DateTimeOriginal" then
    (k, match v with VDateTime dt => VStr (isoformat_ms dt) | _ => v end)
  else if String.eqb k "Coords" then (k, VStr (str builtin_str v))
  else kv.

(** A page with a tag of bytes. *)
Definition page_with_profile : TiffPage :=
  mkTiffPage [make_dji; model_xt2; mkTiffTag "InterColorProfile" (bytes "acsp")].

(** [n] is the integer nearest to [m * 2^e * 10^p], the even one of two
    that are equally near. *)
Definition nearest (p : nat) (m : positive) (e : Z) (n : Z) : Prop :=
  let num := Zpos m * 10 ^ Z.of_nat p in
  if 0 <=? e then n = num * 2 ^ e
  else
    2 * Z.abs (n * 2 ^ (- e) - num) <= 2 ^ (- e) /\
    (2 * Z.abs (n * 2 ^ (- e) - num) = 2 ^ (- e) -> Z.even n = true).

(** The EXIF text of a time stamp: 'YYYY:MM:DD HH:MM:SS'. *)
Definition exif_text (dt : datetime) : string :=
  pad4 (year dt) ++ ":" ++ pad2 (month dt) ++ ":" ++ pad2 (day dt) ++ " " ++
  pad2 (hour dt) ++ ":" ++ pad2 (minute dt) ++ ":" ++ pad2 (second dt).

(** An exception other than [ValueError]. *)
Definition not_value_error (e : exn) : Prop :=
  match e with ValueError _ => False | _ => True end.

(** The fields of a date and time that its EXIF text can hold, as far as
    the pattern of [strptime] goes: any four-digit year, a month, a day up
    to 31, a second up to 61. *)
Definition exif_fields (dt : datetime) : Prop :=
  0 <= year dt <= 9999 /\ 1 <= month dt <= 12 /\ 1 <= day dt <= 31 /\
  0 <= hour dt <= 23 /\ 0 <= minute dt <= 59 /\ 0 <= second dt <= 61.

(** ** Coordinates and their text *)

(** A coordinate as the specification defines it: a latitude from -90 to
    90 degrees, a longitude from -180 to 180 degrees, and an altitude that
    is a number. *)
Definition Coordinate (c : WGS84Coords) : Prop :=
  (Float.leb (Float.of_Z (- 90)) (lat c) = true /\
   Float.leb (lat c) (Float.of_Z 90) = true) /\
  (Float.leb (Float.of_Z (- 180)) (lon c) = true /\
   Float.leb (lon c) (Float.of_Z 180) = true) /\
  Float.is_finite (alt c) = true.

(** The sign bit of a float: set for the negative numbers and for -0.0. *)
Definition negative (x : float) : bool :=
  match x with
  | S754_zero s | S754_infinity s | S754_finite s _ _ => s
  | S754_nan => false
  end.

(** Integer digits as they are written: at least one, and no zero before
    another digit. *)
Definition plain_digits (i : string) : Prop :=
  all_digits i = true /\
  (i = "0" \/ exists c r, i = String c r /\ c <> "0"%char).

(** [t] is the number [x] written with exactly [p] decimals: a minus
    sign exactly when the sign bit is set, integer digits, a point and [p]
    fraction digits; all the digits, read as one integer, are the integer
    nearest to the magnitude of [x] times [10^p], the even one of two that
    are equally near. *)
Definition written (p : nat) (x : float) (t : string) : Prop :=
  exists i f,
    t = (if negative x then "-" else "") ++ i ++ "." ++ f /\
    plain_digits i /\ all_digits f = true /\ String.length f = p /\
    match x with
    | S754_finite _ m e =>
        nearest p m e (digits_value i * 10 ^ Z.of_nat p + digits_value f)
    | S754_zero _ => digits_value i * 10 ^ Z.of_nat p + digits_value f = 0
    | _ => False
    end.

(** The coordinate (lat=-33.45, lon=-70.66, alt=-5.5). *)
Definition south_west_coords : WGS84Coords :=
  {| lat := Float.opp (ratio 3345 100); lon := Float.opp (ratio 7066 100);
     alt := Float.opp (ratio 55 10) |}.

(** * Properties *)

Local Open Scope list_scope.

(** ** Reasoning about [result] *)

Lemma bind_Return {A B} (a : A) (k : A -> result B) : (Return a ≫= k) = k a.
Proof. reflexivity. Qed.

Lemma bind_returns {A B} (m : result A) (k : A -> result B) (b : B) :
  (m ≫= k) = Return b -> exists a, m = Return a /\ k a = Return b.
Proof. destruct m as [a|e]; [eauto | discriminate]. Qed.

Lemma eq_str_true v s : eq_str v s = true <-> v = VStr s.
Proof.
  destruct v; simpl; try (split; [discriminate | intros H; discriminate H]).
  rewrite String.eqb_eq. split; [intros -> | intros [= ->]]; reflexivity.
Qed.

Lemma eq_str_false v s : eq_str v s = false <-> v <> VStr s.
Proof.
  rewrite <- eq_str_true. destruct (eq_str v s); split; congruence.
Qed.

Lemma getitem_dict d k v : dict_get d k = Some v -> getitem (VDict d) k = Return v.
Proof. intros H. simpl. rewrite H. reflexivity. Qed.

(** Inverting a successful run, one statement at a time. *)
Tactic Notation "step" hyp(H) "as" simple_intropattern(a) simple_intropattern(Ha) :=
  apply bind_returns in H as (a & Ha & H).
Tactic Notation "step" hyp(H) := step H as ? ?.

(** ** The GPS decoder *)

(** A float that is not below zero, and is a number, is at least zero. *)
Lemma not_below_zero (x : float) :
  Float.ltb x (Float.of_Z 0) = false -> Float.is_nan x = false ->
  Float.leb (Float.of_Z 0) x = true.
Proof.
  destruct x as [[]|[]| |[] m e]; cbn; intros; congruence.
Qed.

Lemma out_of_range_false x hi :
  out_of_range x hi = false ->
  Float.ltb (Float.of_Z hi) x = false /\ Float.ltb x (Float.of_Z 0) = false.
Proof. unfold out_of_range. apply orb_false_elim. Qed.

(** Whatever can be indexed has a length. *)
Lemma index_len y i v : index y i = Return v -> exists n, len y = Return n.
Proof. destruct y; simpl; intros H; try discriminate; eauto. Qed.

Lemma sexagesimal_len y m : sexagesimal y = Return m -> exists n, len y = Return n.
Proof. unfold sexagesimal. intros H. step H. eauto using index_len. Qed.

(** The decoder past the name and datum checks. *)
Lemma convert_gpstag_datum_ok tag gps :
  datum_ok tag gps ->
  convert_gpstag tag =
    (lat ← axis (VDict gps) "GPSLatitude" 90 "GPSLatitudeRef" "N" "S";
     lon ← axis (VDict gps) "GPSLongitude" 180 "GPSLongitudeRef" "E" "W";
     alt ← altitude (VDict gps);
     Return {| lon := lon; lat := lat; alt := alt |}).
Proof.
  intros [Hn Hv Hd]. unfold convert_gpstag.
  rewrite Hn, Hv, String.eqb_refl. cbn [negb].
  rewrite (getitem_dict _ _ _ Hd), bind_Return. cbn [eq_str].
  rewrite String.eqb_refl. reflexivity.
Qed.

(** A magnitude outside the range is rejected before the reference is
    looked at, whatever the length check said. *)
Lemma axis_out_of_range gps key hi refkey pos neg y m :
  dict_get gps key = Some y -> sexagesimal y = Return m ->
  out_of_range m hi = true ->
  axis (VDict gps) key hi refkey pos neg = Raise (RuntimeError key [y]).
Proof.
  intros Hy Hm Hr. unfold axis.
  rewrite (getitem_dict _ _ _ Hy), bind_Return.
  destruct (sexagesimal_len _ _ Hm) as [n ->]. rewrite bind_Return.
  destruct (negb (n =? 6)); [reflexivity|].
  rewrite Hm, bind_Return, Hr. reflexivity.
Qed.

(** An axis that passes the shape and range checks comes down to its
    reference. *)
Lemma axis_in_range gps key hi refkey pos neg y m :
  decodes gps key y m -> out_of_range m hi = false ->
  axis (VDict gps) key hi refkey pos neg =
    (ref ← getitem (VDict gps) refkey;
     if eq_str ref pos then Return m
     else if eq_str ref neg then Return (Float.opp m)
     else Raise (RuntimeError refkey [ref])).
Proof.
  intros [Hy Hs Hm] Hr. unfold axis.
  rewrite (getitem_dict _ _ _ Hy), bind_Return, Hs, bind_Return.
  cbn [Z.eqb Pos.eqb negb]. rewrite Hm, bind_Return, Hr. reflexivity.
Qed.

Lemma axis_reference gps key hi refkey pos neg y m ref :
  decodes gps key y m -> out_of_range m hi = false ->
  dict_get gps refkey = Some ref ->
  axis (VDict gps) key hi refkey pos neg =
    if eq_str ref pos then Return m
    else if eq_str ref neg then Return (Float.opp m)
    else Raise (RuntimeError refkey [ref]).
Proof.
  intros Hd Hr Href. rewrite (axis_in_range _ _ _ _ _ _ _ _ Hd Hr).
  rewrite (getitem_dict _ _ _ Href). reflexivity.
Qed.

Lemma axis_reference_valid gps key hi refkey pos neg y m ref :
  decodes gps key y m -> out_of_range m hi = false ->
  dict_get gps refkey = Some ref ->
  pos <> neg ->
  ref = VStr pos \/ ref = VStr neg ->
  axis (VDict gps) key hi refkey pos neg = Return (signed (eq_str ref neg) m).
Proof.
  intros Hd Hr Href Hne Hv. rewrite (axis_reference _ _ _ _ _ _ _ _ _ Hd Hr Href).
  destruct Hv as [-> | ->]; cbn [eq_str]; rewrite !String.eqb_refl.
  - apply String.eqb_neq in Hne. rewrite Hne. reflexivity.
  - destruct (String.eqb neg pos) eqn:E; [|reflexivity].
    apply String.eqb_eq in E. congruence.
Qed.

Lemma axis_returns gps key hi refkey pos neg y m ref v :
  decodes gps key y m -> out_of_range m hi = false ->
  dict_get gps refkey = Some ref ->
  axis (VDict gps) key hi refkey pos neg = Return v ->
  ref = VStr pos /\ v = m \/ ref = VStr neg /\ v = Float.opp m.
Proof.
  intros Hd Hr Href. rewrite (axis_reference _ _ _ _ _ _ _ _ _ Hd Hr Href).
  destruct (eq_str ref pos) eqn:Ep; [|destruct (eq_str ref neg) eqn:En];
    intros [= <-] || discriminate; rewrite ?eq_str_true in *; auto.
Qed.

Lemma axis_reference_invalid gps key hi refkey pos neg y m ref :
  decodes gps key y m -> out_of_range m hi = false ->
  dict_get gps refkey = Some ref ->
  ref <> VStr pos -> ref <> VStr neg ->
  axis (VDict gps) key hi refkey pos neg = Raise (RuntimeError refkey [ref]).
Proof.
  intros Hd Hr Href Hp Hn. rewrite (axis_reference _ _ _ _ _ _ _ _ _ Hd Hr Href).
  apply eq_str_false in Hp, Hn. rewrite Hp, Hn. reflexivity.
Qed.

(** C1. For a GPS tag group that passes the datum, shape and range
    validation: with reference 'N' the latitude returned is the decoded
    magnitude, which is not negative, and with 'S' it is the negated
    magnitude; likewise 'E' and 'W' for the longitude; any other reference
    value raises the invalid-reference error. The decoder does return such
    a coordinate whenever the altitude part decodes. *)
Theorem convert_gpstag_hemisphere tag gps y x mlat mlon latref lonref :
  validated tag gps y x mlat mlon ->
  dict_get gps "GPSLatitudeRef" = Some latref ->
  dict_get gps "GPSLongitudeRef" = Some lonref ->
  (* the magnitudes are not negative *)
  (Float.ltb mlat (Float.of_Z 0) = false /\
   Float.ltb mlon (Float.of_Z 0) = false /\
   (Float.is_nan mlat = false -> Float.leb (Float.of_Z 0) mlat = true) /\
   (Float.is_nan mlon = false -> Float.leb (Float.of_Z 0) mlon = true)) /\
  (* what is returned carries the sign the reference asks for *)
  (forall c, convert_gpstag tag = Return c ->
     (latref = VStr "N" /\ lat c = mlat \/ latref = VStr "S" /\ lat c = Float.opp mlat) /\
     (lonref = VStr "E" /\ lon c = mlon \/ lonref = VStr "W" /\ lon c = Float.opp mlon)) /\
  (* with valid references and a decodable altitude it does return *)
  (forall a, altitude_decodes gps a ->
     latref = VStr "N" \/ latref = VStr "S" ->
     lonref = VStr "E" \/ lonref = VStr "W" ->
     convert_gpstag tag =
       Return {| lat := signed (eq_str latref "S") mlat;
                 lon := signed (eq_str lonref "W") mlon;
                 alt := a |}) /\
  (* any other reference value is rejected *)
  (latref <> VStr "N" -> latref <> VStr "S" ->
     convert_gpstag tag = Raise (RuntimeError "GPSLatitudeRef" [latref])) /\
  (latref = VStr "N" \/ latref = VStr "S" ->
   lonref <> VStr "E" -> lonref <> VStr "W" ->
     convert_gpstag tag = Raise (RuntimeError "GPSLongitudeRef" [lonref])).
Proof.
  intros [Hd Hy Hyr Hx Hxr] Hlat Hlon.
  rewrite (convert_gpstag_datum_ok _ _ Hd).
  destruct (out_of_range_false _ _ Hyr) as [_ Hlat0].
  destruct (out_of_range_false _ _ Hxr) as [_ Hlon0].
  split; [|split; [|split; [|split]]].
  - auto using not_below_zero.
  - intros c Hc. do 3 step Hc. injection Hc as <-. cbn [lat lon].
    split; eauto using axis_returns.
  - intros a Ha HNS HEW.
    rewrite (axis_reference_valid _ _ _ _ _ _ _ _ _ Hy Hyr Hlat), bind_Return by (done || discriminate).
    rewrite (axis_reference_valid _ _ _ _ _ _ _ _ _ Hx Hxr Hlon), bind_Return by (done || discriminate).
    unfold altitude_decodes in Ha. rewrite Ha. reflexivity.
  - intros HN HS.
    rewrite (axis_reference_invalid _ _ _ _ _ _ _ _ _ Hy Hyr Hlat HN HS). reflexivity.
  - intros HNS HE HW.
    rewrite (axis_reference_valid _ _ _ _ _ _ _ _ _ Hy Hyr Hlat), bind_Return by (done || discriminate).
    rewrite (axis_reference_invalid _ _ _ _ _ _ _ _ _ Hx Hxr Hlon HE HW). reflexivity.
Qed.

Lemma convert_gpstag_hemisphere_witness :
  validated (gpstag santiago) santiago
    (ints [33; 1; 27; 1; 0; 1]) (ints [70; 1; 39; 1; 0; 1]) (ratio 3345 100) (ratio 7065 100)
  /\ convert_gpstag (gpstag santiago) =
       Return {| lat := Float.opp (ratio 3345 100);
                 lon := Float.opp (ratio 7065 100);
                 alt := ratio 520 1 |}.
Proof.
  assert (Hv : validated (gpstag santiago) santiago
            (ints [33; 1; 27; 1; 0; 1]) (ints [70; 1; 39; 1; 0; 1])
            (ratio 3345 100) (ratio 7065 100))
    by (repeat constructor; vm_compute; reflexivity).
  split; [exact Hv|].
  destruct (convert_gpstag_hemisphere _ _ _ _ _ _ (VStr "S") (VStr "W") Hv eq_refl eq_refl)
    as (_ & _ & H & _).
  apply (H (ratio 520 1)); [vm_compute; reflexivity | right; reflexivity | right; reflexivity].
Defined.

(** C2 as stated fails for the longitude: a longitude above 180 degrees
    behind a latitude reference that is neither 'N' nor 'S' ends in the
    invalid-reference error of the latitude, not in a range error. *)
Lemma longitude_range_after_latitude_reference :
  ~ (forall tag gps x mlon,
       datum_ok tag gps ->
       decodes gps "GPSLongitude" x mlon ->
       Float.ltb (Float.of_Z 180) mlon = true ->
       convert_gpstag tag = Raise (RuntimeError "GPSLongitude" [x])).
Proof.
  intros H.
  specialize (H (gpstag lon200_latref_X) lon200_latref_X
                (ints [200; 1; 0; 1; 0; 1]) (ratio 200 1)).
  assert (E : convert_gpstag (gpstag lon200_latref_X)
              = Raise (RuntimeError "GPSLatitudeRef" [VStr "X"]))
    by (vm_compute; reflexivity).
  rewrite E in H.
  discriminate H; repeat constructor; vm_compute; reflexivity.
Qed.

(** C2, amended. A decoded latitude magnitude above 90 degrees raises the
    range error whatever the references are. A decoded longitude magnitude
    above 180 degrees raises the range error whatever the longitude
    reference is, once the latitude has passed its own checks, its
    reference included; with a latitude reference that is neither 'N' nor
    'S' the invalid-reference error of the latitude comes first. *)
Theorem range_check_before_reference tag gps :
  datum_ok tag gps ->
  (forall y mlat,
     dict_get gps "GPSLatitude" = Some y -> sexagesimal y = Return mlat ->
     Float.ltb (Float.of_Z 90) mlat = true ->
     convert_gpstag tag = Raise (RuntimeError "GPSLatitude" [y])) /\
  (forall y mlat latref x mlon,
     decodes gps "GPSLatitude" y mlat -> out_of_range mlat 90 = false ->
     dict_get gps "GPSLatitudeRef" = Some latref ->
     dict_get gps "GPSLongitude" = Some x -> sexagesimal x = Return mlon ->
     Float.ltb (Float.of_Z 180) mlon = true ->
     (latref = VStr "N" \/ latref = VStr "S" ->
        convert_gpstag tag = Raise (RuntimeError "GPSLongitude" [x])) /\
     (latref <> VStr "N" -> latref <> VStr "S" ->
        convert_gpstag tag = Raise (RuntimeError "GPSLatitudeRef" [latref]))).
Proof.
  intros Hd. rewrite (convert_gpstag_datum_ok _ _ Hd). split.
  - intros y mlat Hy Hm Hr.
    rewrite (axis_out_of_range _ _ _ _ _ _ _ _ Hy Hm); [reflexivity|].
    unfold out_of_range. rewrite Hr. reflexivity.
  - intros y mlat latref x mlon Hy Hyr Href Hx Hm Hr. split.
    + intros HNS.
      rewrite (axis_reference_valid _ _ _ _ _ _ _ _ _ Hy Hyr Href), bind_Return
        by (done || discriminate).
      rewrite (axis_out_of_range _ _ _ _ _ _ _ _ Hx Hm); [reflexivity|].
      unfold out_of_range. rewrite Hr. reflexivity.
    + intros HN HS.
      rewrite (axis_reference_invalid _ _ _ _ _ _ _ _ _ Hy Hyr Href HN HS). reflexivity.
Qed.

Lemma range_check_before_reference_witness :
  datum_ok (gpstag lon200_latref_X) lon200_latref_X /\
  convert_gpstag (gpstag lon200_latref_X) = Raise (RuntimeError "GPSLatitudeRef" [VStr "X"]).
Proof.
  assert (Hd : datum_ok (gpstag lon200_latref_X) lon200_latref_X)
    by (constructor; reflexivity).
  split; [exact Hd|].
  destruct (range_check_before_reference _ _ Hd) as [_ H].
  apply (H (ints [10; 1; 0; 1; 0; 1]) (ratio 10 1) (VStr "X")
           (ints [200; 1; 0; 1; 0; 1]) (ratio 200 1));
    try (constructor; vm_compute; reflexivity); try (vm_compute; reflexivity);
    discriminate.
Defined.

(** *** What the decoder leaves unchecked *)
























(** ** Dictionaries *)

Lemma dict_get_nil k : dict_get [] k = None.
Proof. reflexivity. Qed.

Lemma dict_get_cons k' v' d k :
  dict_get ((k', v') :: d) k = if String.eqb k' k then Some v' else dict_get d k.
Proof. unfold dict_get. simpl. destruct (String.eqb k' k); reflexivity. Qed.

(** With unique keys, a pair of the dictionary is what its key looks up. *)
Lemma dict_get_NoDup d k v :
  List.NoDup (map fst d) -> In (k, v) d -> dict_get d k = Some v.
Proof.
  induction d as [|[k' v'] d IH]; simpl; [tauto|].
  intros Hnd [[= -> ->] | Hin]; rewrite dict_get_cons.
  - rewrite String.eqb_refl. reflexivity.
  - apply List.NoDup_cons_iff in Hnd as [Hk' Hnd].
    destruct (String.eqb_spec k' k) as [->|Hne]; [|auto].
    exfalso. apply Hk'.
    change k with (fst (k, v)). apply in_map. assumption.
Qed.

Lemma dict_get_app d1 d2 k :
  dict_get (d1 ++ d2) k =
    match dict_get d1 k with Some v => Some v | None => dict_get d2 k end.
Proof.
  induction d1 as [|[k' v'] d1 IH]; [reflexivity|].
  rewrite <- app_comm_cons, !dict_get_cons. destruct (String.eqb k' k); auto.
Qed.

(** Setting a new key appends it. *)
Lemma dict_set_fresh d k v : dict_get d k = None -> dict_set d k v = d ++ [(k, v)].
Proof.
  induction d as [|[k' v'] d IH]; [reflexivity|].
  rewrite dict_get_cons. simpl. destruct (String.eqb k' k); [discriminate|].
  intros H. rewrite IH by assumption. reflexivity.
Qed.

Lemma dict_get_set d k v k' :
  dict_get (dict_set d k v) k' = if String.eqb k k' then Some v else dict_get d k'.
Proof.
  induction d as [|[k0 v0] d IH]; simpl.
  - rewrite dict_get_cons, dict_get_nil. reflexivity.
  - destruct (String.eqb_spec k0 k) as [->|Hne]; rewrite !dict_get_cons.
    + destruct (String.eqb k k'); reflexivity.
    + rewrite IH. destruct (String.eqb_spec k0 k') as [->|]; [|reflexivity].
      destruct (String.eqb_spec k k'); [congruence | reflexivity].
Qed.

Lemma dict_set_keys d k v :
  dict_get d k <> None -> map fst (dict_set d k v) = map fst d.
Proof.
  induction d as [|[k0 v0] d IH]; simpl; [rewrite dict_get_nil; congruence|].
  rewrite dict_get_cons. destruct (String.eqb_spec k0 k) as [->|Hne]; simpl.
  - reflexivity.
  - intros H. rewrite IH by assumption. reflexivity.
Qed.

(** ** The property assembler *)

(** The loop, split at any point of the pair sequence. *)
Lemma collect_app l1 l2 atts :
  collect (l1 ++ l2) atts = (atts' ← collect l1 atts; collect l2 atts').
Proof.
  revert atts. induction l1 as [|[k v] l1 IH]; intros atts; simpl; [reflexivity|].
  destruct (dict_get atts k); [reflexivity | apply IH].
Qed.

(** Pairs with new and distinct keys are all taken, in order. *)
Lemma collect_fresh pairs atts :
  List.NoDup (map fst pairs) ->
  (forall k, In k (map fst pairs) -> dict_get atts k = None) ->
  collect pairs atts = Return (atts ++ pairs).
Proof.
  revert atts. induction pairs as [|[k v] pairs IH]; intros atts Hnd Hfresh; simpl.
  - rewrite app_nil_r. reflexivity.
  - apply List.NoDup_cons_iff in Hnd as [Hk Hnd].
    rewrite Hfresh by (left; reflexivity).
    rewrite dict_set_fresh by (apply Hfresh; left; reflexivity).
    rewrite IH.
    + rewrite <- app_assoc. reflexivity.
    + assumption.
    + intros k' Hk'. rewrite dict_get_app, Hfresh by (right; assumption).
      rewrite dict_get_cons, dict_get_nil.
      destruct (String.eqb_spec k k') as [->|]; [|reflexivity].
      exfalso. apply Hk. assumption.
Qed.

(** The loop ends well only on pairs with new and distinct keys, and then
    the map holds exactly those pairs after the ones it had. *)
Lemma collect_returns pairs atts atts' :
  collect pairs atts = Return atts' ->
  List.NoDup (map fst pairs) /\
  (forall k, In k (map fst pairs) -> dict_get atts k = None) /\
  atts' = atts ++ pairs.
Proof.
  revert atts. induction pairs as [|[k v] pairs IH]; intros atts; simpl.
  - intros [= <-]. rewrite app_nil_r. repeat split; [constructor | tauto].
  - destruct (dict_get atts k) eqn:Ek; [discriminate|].
    intros H. apply IH in H as (Hnd & Hfresh & ->).
    rewrite dict_set_fresh in * by assumption.
    assert (Hk : ~ In k (map fst pairs)).
    { intros Hin. apply Hfresh in Hin.
      rewrite dict_get_app, Ek, dict_get_cons, String.eqb_refl in Hin. discriminate. }
    repeat split.
    + apply List.NoDup_cons_iff. split; assumption.
    + intros k' [<- | Hin]; [assumption|].
      apply Hfresh in Hin. rewrite dict_get_app in Hin.
      destruct (dict_get atts k'); [discriminate | reflexivity].
    + rewrite <- app_assoc. reflexivity.
Qed.

(** The loop stops at the second pair of a key, with both values. *)
Lemma collect_duplicate pre k v1 v2 rest :
  List.NoDup (map fst pre) -> In (k, v1) pre ->
  collect (pre ++ (k, v2) :: rest) [] = Raise (KeyExists k v1 v2).
Proof.
  intros Hnd Hin. rewrite collect_app, collect_fresh, bind_Return; auto.
  simpl. rewrite (dict_get_NoDup _ _ _ Hnd Hin). reflexivity.
Qed.

Lemma fixup_datetime_returns atts atts' :
  fixup_datetime atts = Return atts' ->
  map fst atts' = map fst atts /\
  (forall k, k <> "DateTimeOriginal" -> dict_get atts' k = dict_get atts k).
Proof.
  unfold fixup_datetime, dict_in.
  destruct (dict_get atts "DateTimeOriginal") as [v|] eqn:E.
  - intros H. step H. step H. step H. injection H as <-. split.
    + apply dict_set_keys. congruence.
    + intros k Hk. rewrite dict_get_set.
      destruct (String.eqb_spec "DateTimeOriginal" k); [congruence | reflexivity].
  - intros [= <-]. auto.
Qed.

Lemma consume_returns g atts :
  consume g [] = Return atts ->
  List.NoDup (map fst (yielded g)) /\ atts = yielded g /\ outcome g = Return tt.
Proof.
  unfold consume. intros H. step H as atts0 H0. step H as u Hu. injection H as <-.
  apply collect_returns in H0 as (Hnd & _ & ->). destruct u. auto.
Qed.

(** C3. The assembler raises the duplicate-key error, with the key and
    both values, at the second pair of a key: whatever pairs the normaliser
    would yield afterwards and however it would end. When the assembler
    returns, every key was yielded once and holds the value yielded for
    it (the date/time key holding the timestamp built from it). *)
Theorem duplicate_key_is_eager (fromstring : string -> result Element) idx page :
  (forall pre k v1 v2 rest,
     yielded (_page_tagconv_it fromstring page) = pre ++ (k, v2) :: rest ->
     List.NoDup (map fst pre) -> In (k, v1) pre ->
     pageprops fromstring idx page = Raise (KeyExists k v1 v2)) /\
  (forall atts,
     pageprops fromstring idx page = Return atts ->
     List.NoDup (map fst (yielded (_page_tagconv_it fromstring page))) /\
     map fst atts = map fst (yielded (_page_tagconv_it fromstring page)) /\
     (forall k v, In (k, v) (yielded (_page_tagconv_it fromstring page)) ->
        k <> "DateTimeOriginal" -> dict_get atts k = Some v)).
Proof.
  unfold pageprops. split.
  - intros pre k v1 v2 rest Hy Hnd Hin.
    unfold consume. rewrite Hy, (collect_duplicate _ _ _ _ _ Hnd Hin). reflexivity.
  - intros atts H. step H as atts0 H0.
    apply consume_returns in H0 as (Hnd & -> & _).
    apply fixup_datetime_returns in H as (Hkeys & Hvals).
    repeat split; [assumption | assumption |].
    intros k v Hin Hk. rewrite Hvals by assumption.
    apply dict_get_NoDup; assumption.
Qed.

Lemma duplicate_key_is_eager_witness :
  outcome (_page_tagconv_it no_xml page_duplicate)
    = Raise (RuntimeError "Failed to parse XMP" [bytes "junk"]) /\
  pageprops no_xml 0 page_duplicate
    = Raise (KeyExists "Make" (VStr "DJI") (VStr "Hasselblad")).
Proof.
  split; [reflexivity|].
  apply (proj1 (duplicate_key_is_eager no_xml 0 page_duplicate)
           [("Make", VStr "DJI"); ("Model", VStr "XT2")] "Make" (VStr "DJI")
           (VStr "Hasselblad") []).
  - reflexivity.
  - repeat constructor; simpl; intuition discriminate.
  - left. reflexivity.
Defined.

(** ** The date/time fixup *)

Lemma make_datetime_returns dt dt' :
  make_datetime dt = Return dt' -> dt' = dt /\ valid_datetime dt = true.
Proof.
  unfold make_datetime. destruct (valid_datetime dt); [|discriminate].
  intros [= <-]. auto.
Qed.

(** What [strptime] returns is a valid date and time on a whole second. *)
Lemma strptime_returns v dt :
  strptime v = Return dt -> valid_datetime dt = true /\ microsecond dt = 0.
Proof.
  destruct v; try discriminate. simpl.
  destruct (fullmatch strptime_re s) as [m|]; [|discriminate].
  intros H. apply make_datetime_returns in H as [-> Hv]. auto.
Qed.

(** On a valid [datetime], replacing the microsecond is checked on the new
    microsecond alone. *)
Lemma valid_with_microsecond dt us :
  valid_datetime dt = true ->
  valid_datetime (with_microsecond dt us) = (0 <=? us) && (us <=? 999999).
Proof.
  unfold valid_datetime. cbn [with_microsecond year month day hour minute second microsecond].
  intros H. rewrite !andb_true_iff in H.
  destruct H as [[[[[[[[[[[[[-> ->] ->] ->] ->] ->] ->] ->] ->] ->] ->] ->] _] _].
  reflexivity.
Qed.

Lemma replace_microsecond_in_range dt us :
  valid_datetime dt = true -> 0 <= us <= 999999 ->
  replace_microsecond dt us = Return (with_microsecond dt us).
Proof.
  intros Hv Hus. unfold replace_microsecond, make_datetime.
  destruct (Z.ltb_spec us (- 2147483648)), (Z.ltb_spec 2147483647 us); try lia.
  cbn [orb]. rewrite (valid_with_microsecond _ _ Hv).
  destruct (Z.leb_spec 0 us), (Z.leb_spec us 999999); try lia. reflexivity.
Qed.

(** Out of range, the new microsecond is refused by the constructor when
    it is a C [int], and by the conversion when it is not. *)
Lemma replace_microsecond_out_of_range dt us :
  valid_datetime dt = true -> us < 0 \/ 999999 < us ->
  replace_microsecond dt us
    = Raise (if (- 2147483648 <=? us) && (us <=? 2147483647)
             then ValueError "datetime" else OverflowError).
Proof.
  intros Hv Hus. unfold replace_microsecond, make_datetime.
  destruct (Z.ltb_spec us (- 2147483648)), (Z.ltb_spec 2147483647 us),
    (Z.leb_spec (- 2147483648) us), (Z.leb_spec us 2147483647); try lia;
    cbn [orb andb]; try reflexivity.
  rewrite (valid_with_microsecond _ _ Hv).
  destruct (Z.leb_spec 0 us), (Z.leb_spec us 999999); try lia; reflexivity.
Qed.

Lemma replace_microsecond_returns dt us dt' :
  replace_microsecond dt us = Return dt' ->
  dt' = with_microsecond dt us /\ valid_datetime (with_microsecond dt us) = true.
Proof.
  unfold replace_microsecond. destruct (_ || _); [discriminate|].
  apply make_datetime_returns.
Qed.

(** The fixup when both keys are present and both texts are read. *)
Lemma fixup_datetime_subsec atts v dt s n :
  dict_get atts "DateTimeOriginal" = Some v -> strptime v = Return dt ->
  dict_get atts "SubsecTimeOriginal" = Some s -> int s = Return n ->
  fixup_datetime atts =
    (dt' ← replace_microsecond dt (n * 10000);
     Return (dict_set atts "DateTimeOriginal" (VDateTime dt'))).
Proof.
  intros Hv Hdt Hs Hn. unfold fixup_datetime, dict_in. rewrite Hv, Hs.
  rewrite (getitem_dict _ _ _ Hv), bind_Return, Hdt, bind_Return.
  rewrite (getitem_dict _ _ _ Hs), bind_Return, Hn, bind_Return. reflexivity.
Qed.

(** C5. A map with DateTimeOriginal '2022:05:01 12:00:00' and
    SubsecTimeOriginal '50' is given the timestamp of that second with
    microsecond 500000, by the fixup and so by [pageprops]; in general the
    microsecond of the timestamp is the sub-second value times 10
    milliseconds, the other fields being those of the parsed text. *)
Theorem subsecond_is_ten_milliseconds :
  (forall atts,
     dict_get atts "DateTimeOriginal" = Some (VStr "2022:05:01 12:00:00") ->
     dict_get atts "SubsecTimeOriginal" = Some (VStr "50") ->
     fixup_datetime atts =
       Return (dict_set atts "DateTimeOriginal"
                 (VDateTime (mkdatetime 2022 5 1 12 0 0 500000)))) /\
  (forall (fromstring : string -> result Element) idx page atts,
     consume (_page_tagconv_it fromstring page) [] = Return atts ->
     dict_get atts "DateTimeOriginal" = Some (VStr "2022:05:01 12:00:00") ->
     dict_get atts "SubsecTimeOriginal" = Some (VStr "50") ->
     exists atts', pageprops fromstring idx page = Return atts' /\
       dict_get atts' "DateTimeOriginal"
         = Some (VDateTime (mkdatetime 2022 5 1 12 0 0 500000))) /\
  (forall atts v dt s n atts',
     dict_get atts "DateTimeOriginal" = Some v -> strptime v = Return dt ->
     dict_get atts "SubsecTimeOriginal" = Some s -> int s = Return n ->
     fixup_datetime atts = Return atts' ->
     dict_get atts' "DateTimeOriginal"
       = Some (VDateTime (with_microsecond dt (n * 10 * 1000)))).
Proof.
  assert (H50 : forall atts,
     dict_get atts "DateTimeOriginal" = Some (VStr "2022:05:01 12:00:00") ->
     dict_get atts "SubsecTimeOriginal" = Some (VStr "50") ->
     fixup_datetime atts =
       Return (dict_set atts "DateTimeOriginal"
                 (VDateTime (mkdatetime 2022 5 1 12 0 0 500000)))).
  { intros atts Hv Hs.
    assert (Hdt : strptime (VStr "2022:05:01 12:00:00")
                  = Return (mkdatetime 2022 5 1 12 0 0 0)) by (vm_compute; reflexivity).
    assert (Hn : int (VStr "50") = Return 50) by (vm_compute; reflexivity).
    rewrite (fixup_datetime_subsec atts _ _ _ _ Hv Hdt Hs Hn). reflexivity. }
  split; [exact H50 | split].
  - intros fromstring idx page atts Hc Hv Hs. unfold pageprops.
    rewrite Hc, bind_Return, (H50 _ Hv Hs). eexists. split; [reflexivity|].
    rewrite dict_get_set. reflexivity.
  - intros atts v dt s n atts' Hv Hdt Hs Hn.
    rewrite (fixup_datetime_subsec _ _ _ _ _ Hv Hdt Hs Hn).
    intros H. step H as dt' Hdt'. injection H as <-.
    apply replace_microsecond_returns in Hdt' as [-> _].
    rewrite dict_get_set. cbn. do 3 f_equal. lia.
Qed.

Lemma subsecond_is_ten_milliseconds_witness :
  consume (_page_tagconv_it no_xml (page_taken "2022:05:01 12:00:00" "50")) []
    = Return [("Make", VStr "DJI"); ("Model", VStr "XT2");
              ("DateTimeOriginal", VStr "2022:05:01 12:00:00");
              ("SubsecTimeOriginal", VStr "50")] /\
  exists atts',
    pageprops no_xml 0 (page_taken "2022:05:01 12:00:00" "50") = Return atts' /\
    dict_get atts' "DateTimeOriginal"
      = Some (VDateTime (mkdatetime 2022 5 1 12 0 0 500000)).
Proof.
  split; [reflexivity|].
  destruct subsecond_is_ten_milliseconds as (_ & H & _).
  apply (H no_xml 0 (page_taken "2022:05:01 12:00:00" "50")
           [("Make", VStr "DJI"); ("Model", VStr "XT2");
            ("DateTimeOriginal", VStr "2022:05:01 12:00:00");
            ("SubsecTimeOriginal", VStr "50")]); reflexivity.
Defined.

(** C8. When the fixup is applied (the date/time text parses and the
    sub-second value reads as the integer [n]), the microsecond field is
    replaced by [n * 10000]: for [n] from 0 to 99 [pageprops] returns the
    map with that timestamp; for [n] of 100 or more the new microsecond is
    1000000 or more and [pageprops] fails, nothing being carried into the
    seconds: with a [ValueError] while [n * 10000] is a C [int], which is
    up to [n] = 214748, and with an [OverflowError] beyond; it fails for
    a negative [n] as well; so it returns exactly for 0 to 99. The
    replacement does not depend on the microsecond the timestamp had, and
    leaves every other field as it was. *)
Theorem subsecond_replaces_microsecond
    (fromstring : string -> result Element) idx page atts v dt s n :
  consume (_page_tagconv_it fromstring page) [] = Return atts ->
  dict_get atts "DateTimeOriginal" = Some v -> strptime v = Return dt ->
  dict_get atts "SubsecTimeOriginal" = Some s -> int s = Return n ->
  (0 <= n <= 99 ->
     pageprops fromstring idx page =
       Return (dict_set atts "DateTimeOriginal"
                 (VDateTime (with_microsecond dt (n * 10000))))) /\
  (100 <= n ->
     1000000 <= n * 10000 /\
     pageprops fromstring idx page
       = Raise (if n <=? 214748 then ValueError "datetime" else OverflowError)) /\
  (n < 0 ->
     pageprops fromstring idx page
       = Raise (if - 214748 <=? n then ValueError "datetime" else OverflowError)) /\
  (returns (pageprops fromstring idx page) <-> 0 <= n <= 99) /\
  (forall dt0 us dt', replace_microsecond dt0 us = Return dt' ->
     dt' = with_microsecond dt0 us /\ microsecond dt' = us /\ second dt' = second dt0).
Proof.
  intros Hc Hv Hdt Hs Hn.
  assert (Hp : pageprops fromstring idx page =
               (dt' ← replace_microsecond dt (n * 10000);
                Return (dict_set atts "DateTimeOriginal" (VDateTime dt')))).
  { unfold pageprops. rewrite Hc, bind_Return.
    apply (fixup_datetime_subsec _ _ _ _ _ Hv Hdt Hs Hn). }
  destruct (strptime_returns _ _ Hdt) as [Hvalid _].
  assert (Hin : 0 <= n <= 99 ->
            pageprops fromstring idx page =
              Return (dict_set atts "DateTimeOriginal"
                        (VDateTime (with_microsecond dt (n * 10000))))).
  { intros Hr. rewrite Hp, replace_microsecond_in_range by (assumption || lia).
    reflexivity. }
  assert (Hhigh : 100 <= n ->
            pageprops fromstring idx page
              = Raise (if n <=? 214748 then ValueError "datetime" else OverflowError)).
  { intros Hr. rewrite Hp, replace_microsecond_out_of_range by (assumption || lia).
    destruct (Z.leb_spec n 214748), (Z.leb_spec (- 2147483648) (n * 10000)),
      (Z.leb_spec (n * 10000) 2147483647); try lia; reflexivity. }
  assert (Hlow : n < 0 ->
            pageprops fromstring idx page
              = Raise (if - 214748 <=? n then ValueError "datetime" else OverflowError)).
  { intros Hr. rewrite Hp, replace_microsecond_out_of_range by (assumption || lia).
    destruct (Z.leb_spec (- 214748) n), (Z.leb_spec (- 2147483648) (n * 10000)),
      (Z.leb_spec (n * 10000) 2147483647); try lia; reflexivity. }
  split; [exact Hin|]. split; [intros Hr; split; [lia | exact (Hhigh Hr)]|].
  split; [exact Hlow|]. split.
  - split.
    + intros [atts' Hret].
      destruct (Z_lt_le_dec n 0) as [Hneg|Hpos].
      { rewrite (Hlow Hneg) in Hret. discriminate Hret. }
      destruct (Z_le_gt_dec n 99) as [Hle|Hgt]; [lia|].
      rewrite Hhigh in Hret by lia. discriminate Hret.
    + intros Hr. eexists. exact (Hin Hr).
  - intros dt0 us dt' H. apply replace_microsecond_returns in H as [-> _]. auto.
Qed.

Lemma subsecond_replaces_microsecond_witness :
  pageprops no_xml 0 (page_taken "2022:05:01 12:00:00" "100")
    = Raise (ValueError "datetime") /\
  pageprops no_xml 0 (page_taken "2022:05:01 12:00:00" "214749")
    = Raise OverflowError.
Proof.
  split.
  - destruct (subsecond_replaces_microsecond no_xml 0
                (page_taken "2022:05:01 12:00:00" "100")
                [("Make", VStr "DJI"); ("Model", VStr "XT2");
                 ("DateTimeOriginal", VStr "2022:05:01 12:00:00");
                 ("SubsecTimeOriginal", VStr "100")]
                (VStr "2022:05:01 12:00:00") (mkdatetime 2022 5 1 12 0 0 0)
                (VStr "100") 100 eq_refl eq_refl eq_refl eq_refl eq_refl)
      as (_ & H & _).
    apply H. lia.
  - destruct (subsecond_replaces_microsecond no_xml 0
                (page_taken "2022:05:01 12:00:00" "214749")
                [("Make", VStr "DJI"); ("Model", VStr "XT2");
                 ("DateTimeOriginal", VStr "2022:05:01 12:00:00");
                 ("SubsecTimeOriginal", VStr "214749")]
                (VStr "2022:05:01 12:00:00") (mkdatetime 2022 5 1 12 0 0 0)
                (VStr "214749") 214749 eq_refl eq_refl eq_refl eq_refl eq_refl)
      as (_ & H & _).
    apply H. lia.
Defined.

(** ** The JSON serialiser *)

Lemma frames_ret {A} n (a : A) (Q : A -> Prop) : Q a -> frames n (mret a) Q.
Proof.
  intros HQ h h' r Hn. cbn. intros [= <- <-]. repeat split; [assumption|].
  intros v [= <-]. exact HQ.
Qed.

Lemma frames_lift {A} n (x : result A) : frames n (lift x) (fun _ => True).
Proof. intros h h' r Hn. cbn. intros [= <- <-]. auto. Qed.

Lemma run_bind {A B} (m : action A) (k : A -> action B) h :
  run_action (m ≫= k) h =
    match run_action m h with
    | (h', Return a) => run_action (k a) h'
    | (h', Raise e) => (h', Raise e)
    end.
Proof. reflexivity. Qed.

Lemma frames_bind {A B} n (m : action A) (k : A -> action B) (Q : A -> Prop) (R : B -> Prop) :
  frames n m Q -> (forall a, Q a -> frames n (k a) R) -> frames n (m ≫= k) R.
Proof.
  intros Hm Hk h h' r Hn. rewrite run_bind.
  destruct (run_action m h) as [h1 [a|e]] eqn:E1;
    destruct (Hm _ _ _ Hn E1) as (Hn1 & Hf1 & HQ).
  - intros E2. destruct (Hk a (HQ a eq_refl) _ _ _ Hn1 E2) as (Hn2 & Hf2 & HR).
    repeat split; [assumption | | assumption].
    intros l Hl. rewrite Hf2, Hf1 by assumption. reflexivity.
  - intros [= <- <-]. repeat split; [assumption | assumption | discriminate].
Qed.

Lemma frames_deref n l : frames n (deref l) (fun _ => True).
Proof.
  intros h h' r Hn. unfold deref. cbn [run_action].
  destruct (h !! l); cbn; intros [= <- <-]; auto.
Qed.

(** The copy is a new object, past everything that was there. *)
Lemma frames_copy n l : frames n (copy l) (fun l' => (n <= l')%nat).
Proof.
  unfold copy. eapply frames_bind; [apply frames_deref|].
  intros d _ h h' r Hn. cbn [run_action]. intros [= <- <-].
  rewrite length_app. repeat split.
  - lia.
  - intros l' Hl'. apply lookup_app_l. lia.
  - intros v [= <-]. assumption.
Qed.

Lemma frames_contains n l k : frames n (contains l k) (fun _ => True).
Proof.
  unfold contains. eapply frames_bind; [apply frames_deref|].
  intros d _. apply frames_ret. exact I.
Qed.

Lemma frames_load n l k : frames n (load l k) (fun _ => True).
Proof.
  unfold load. eapply frames_bind; [apply frames_deref|].
  intros d _. apply frames_lift.
Qed.

(** A store into an object past the first [n] leaves those alone. *)
Lemma frames_store n l k v : (n <= l)%nat -> frames n (store l k v) (fun _ => True).
Proof.
  intros Hl. unfold store. eapply frames_bind; [apply frames_deref|].
  intros d _ h h' r Hn. cbn [run_action]. intros [= <- <-].
  rewrite length_insert. repeat split; [assumption|].
  intros l' Hl'. apply list_lookup_insert_ne. lia.
Qed.

Lemma props2json_frames float_repr builtin_str n atts :
  frames n (props2json float_repr builtin_str atts) (fun _ => True).
Proof.
  unfold props2json.
  eapply frames_bind; [apply frames_copy|]. intros atts2 Hatts2.
  eapply frames_bind; [apply frames_contains|]. intros b1 _.
  eapply frames_bind with (Q := fun _ => True).
  { destruct b1; [|apply frames_ret; exact I].
    eapply frames_bind; [apply frames_load|]. intros v _.
    eapply frames_bind; [apply frames_lift|]. intros s _.
    apply frames_store. assumption. }
  intros _ _.
  eapply frames_bind; [apply frames_contains|]. intros b2 _.
  eapply frames_bind with (Q := fun _ => True).
  { destruct b2; [|apply frames_ret; exact I].
    eapply frames_bind; [apply frames_load|]. intros v _.
    apply frames_store. assumption. }
  intros _ _.
  eapply frames_bind; [apply frames_deref|]. intros d _.
  apply frames_lift.
Qed.

(** C7. [props2json] works on a copy: whatever it returns or raises, every
    object of the caller's heap, the map at [atts] among them, is after
    the call what it was before, key for key and value for value. *)
Theorem props2json_leaves_caller_map
    (float_repr : float -> string) (builtin_str : pyval -> string)
    (h : heap) (atts : loc) (h' : heap) (r : result string) :
  run_action (props2json float_repr builtin_str atts) h = (h', r) ->
  (forall l d, h !! l = Some d -> h' !! l = Some d) /\
  (forall d, h !! atts = Some d -> h' !! atts = Some d).
Proof.
  intros E.
  destruct (props2json_frames float_repr builtin_str (length h) atts h h' r (le_n _) E)
    as (_ & Hf & _).
  assert (H : forall l d, h !! l = Some d -> h' !! l = Some d).
  { intros l d Hl. rewrite Hf; [assumption|]. eapply lookup_lt_Some. eassumption. }
  split; [exact H | apply H].
Qed.

(** ** Fixed-point text *)

Lemma digit_char_is_digit d : 0 <= d < 10 -> Regex.digit (digit_char d) = true.
Proof.
  intros H.
  assert (d = 0 \/ d = 1 \/ d = 2 \/ d = 3 \/ d = 4 \/ d = 5 \/ d = 6 \/ d = 7
          \/ d = 8 \/ d = 9) as Hd by lia.
  repeat (destruct Hd as [-> | Hd]; [reflexivity|]). subst d. reflexivity.
Qed.

Lemma length_string_of_list_ascii l : String.length (string_of_list_ascii l) = length l.
Proof. induction l as [|c l IH]; simpl; [reflexivity | rewrite IH; reflexivity]. Qed.

Lemma low_digits_length p n : String.length (low_digits p n) = p.
Proof.
  unfold low_digits.
  rewrite length_string_of_list_ascii, length_map, length_rev, length_seq. reflexivity.
Qed.

Lemma low_digits_all_digits p n : all_digits (low_digits p n) = true.
Proof.
  unfold all_digits, low_digits. rewrite list_ascii_of_string_of_list_ascii.
  apply forallb_forall. intros c Hc. apply in_map_iff in Hc as (i & <- & _).
  apply digit_char_is_digit. apply Z.mod_pos_bound. lia.
Qed.

Lemma decimal_aux_all_digits fuel n acc :
  all_digits acc = true -> all_digits (decimal_aux fuel n acc) = true.
Proof.
  revert n acc. induction fuel as [|fuel IH]; intros n acc Hacc;
    cbn [decimal_aux]; [assumption|].
  assert (Hd : all_digits (String (digit_char (n mod 10)) acc) = true).
  { unfold all_digits in *. cbn [list_ascii_of_string forallb].
    rewrite Hacc, digit_char_is_digit; [reflexivity|].
    apply Z.mod_pos_bound. lia. }
  destruct (n <? 10); [assumption | apply IH; assumption].
Qed.

Lemma decimal_all_digits n : all_digits (decimal n) = true.
Proof. apply decimal_aux_all_digits. reflexivity. Qed.

(** How each heap primitive runs on an object that is there. *)
Lemma run_deref (h : heap) l d :
  h !! l = Some d -> run_action (deref l) h = (h, Return d).
Proof. intros H. unfold deref. cbn [run_action]. rewrite H. reflexivity. Qed.

Lemma run_copy (h : heap) l d :
  h !! l = Some d -> run_action (copy l) h = (h ++ [d], Return (length h)).
Proof. intros H. unfold copy. rewrite run_bind, (run_deref _ _ _ H). reflexivity. Qed.

Lemma run_contains (h : heap) l d k :
  h !! l = Some d -> run_action (contains l k) h = (h, Return (dict_in k d)).
Proof. intros H. unfold contains. rewrite run_bind, (run_deref _ _ _ H). reflexivity. Qed.

Lemma run_load (h : heap) l d k :
  h !! l = Some d -> run_action (load l k) h = (h, getitem (VDict d) k).
Proof. intros H. unfold load. rewrite run_bind, (run_deref _ _ _ H). reflexivity. Qed.

Lemma run_store (h : heap) l d k v :
  h !! l = Some d ->
  run_action (store l k v) h = (<[l := dict_set d k v]> h, Return tt).
Proof. intros H. unfold store. rewrite run_bind, (run_deref _ _ _ H). reflexivity. Qed.

Lemma lookup_new (h : heap) (d : pydict) : (h ++ [d]) !! length h = Some d.
Proof. rewrite lookup_app_r, Nat.sub_diag by lia. reflexivity. Qed.

Lemma lookup_stored (h : heap) (d d' : pydict) :
  <[length h := d']> (h ++ [d]) !! length h = Some d'.
Proof. apply list_lookup_insert_eq. rewrite length_app. simpl. lia. Qed.

(** What [props2json] returns for a map with a coordinate and no
    timestamp: the encoding of the map with the coordinate as text. *)
Lemma props2json_coords float_repr builtin_str (h : heap) atts d c :
  h !! atts = Some d ->
  dict_get d "DateTimeOriginal" = None ->
  dict_get d "Coords" = Some (VCoords c) ->
  snd (run_action (props2json float_repr builtin_str atts) h)
    = json_dumps float_repr (dict_set d "Coords" (VStr (WGS84Coords_str c))).
Proof.
  intros Hd Hdt Hc. unfold props2json.
  rewrite run_bind, (run_copy _ _ _ Hd).
  rewrite run_bind, (run_contains _ _ _ _ (lookup_new h d)).
  unfold dict_in at 1. rewrite Hdt.
  rewrite run_bind. cbn [mret action_mret run_action].
  rewrite run_bind, (run_contains _ _ _ _ (lookup_new h d)).
  unfold dict_in at 1. rewrite Hc.
  rewrite run_bind, run_bind, (run_load _ _ _ _ (lookup_new h d)).
  rewrite (getitem_dict _ _ _ Hc), (run_store _ _ _ _ _ (lookup_new h d)).
  rewrite run_bind, (run_deref _ _ _ (lookup_stored h d _)).
  reflexivity.
Qed.

Lemma props2json_leaves_caller_map_witness :
  fst (run_action (props2json no_repr no_str 0%nat) [assembled]) !! 0%nat = Some assembled /\
  (d ← fst (run_action (props2json no_repr no_str 0%nat) [assembled]) !! 1%nat;
   dict_get d "DateTimeOriginal") = Some (VStr "2022-05-01 12:00:00.500").
Proof.
  split; [|vm_compute; reflexivity].
  apply (proj2 (props2json_leaves_caller_map no_repr no_str [assembled] 0%nat
                  (fst (run_action (props2json no_repr no_str 0%nat) [assembled]))
                  (snd (run_action (props2json no_repr no_str 0%nat) [assembled]))
                  ltac:(vm_compute; reflexivity))).
  reflexivity.
Defined.

(** ** Generators *)

Lemma gen_bind_ok {A B} (m : gen A) (k : A -> gen B) (b : B) :
  outcome (m ≫= k) = Return b ->
  exists a, outcome m = Return a /\ outcome (k a) = Return b /\
            yielded (m ≫= k) = yielded m ++ yielded (k a).
Proof.
  unfold mbind, gen_mbind, gen_bind.
  destruct (outcome m) as [a|e]; cbn [outcome yielded]; [eauto | discriminate].
Qed.

Lemma eval_bind {A B} (r : result A) (k : A -> gen B) :
  (eval r ≫= k) = match r with Return a => k a | Raise e => Gen [] (Raise e) end.
Proof.
  unfold mbind, gen_mbind, gen_bind, eval. cbn [outcome yielded].
  destruct r as [a|e]; [|reflexivity]. destruct (k a). reflexivity.
Qed.

Lemma for_each_app {A} (l1 l2 : list A) (body : A -> gen unit) :
  outcome (for_each (l1 ++ l2) body) = Return tt ->
  outcome (for_each l1 body) = Return tt /\ outcome (for_each l2 body) = Return tt /\
  yielded (for_each (l1 ++ l2) body)
    = yielded (for_each l1 body) ++ yielded (for_each l2 body).
Proof.
  induction l1 as [|x l1 IH]; cbn [app for_each].
  - intros H. repeat split; assumption.
  - intros H. apply gen_bind_ok in H as ([] & Hx & Hrest & Hy).
    destruct (IH Hrest) as (H1 & H2 & Hy12).
    unfold mbind, gen_mbind, gen_bind in *. rewrite Hx in *.
    cbn [outcome yielded] in *. rewrite Hy12, app_assoc. auto.
Qed.

Lemma for_each_cons {A} (x : A) (l : list A) (body : A -> gen unit) :
  outcome (for_each (x :: l) body) = Return tt ->
  outcome (body x) = Return tt /\ outcome (for_each l body) = Return tt /\
  yielded (for_each (x :: l) body) = yielded (body x) ++ yielded (for_each l body).
Proof.
  cbn [for_each]. intros H. apply gen_bind_ok in H as ([] & Hx & Hrest & Hy). auto.
Qed.

(** ** The tag normaliser *)

Lemma tags_getitem_returns page key t :
  tags_getitem page key = Return t ->
  name t = key /\ tags_contains page key = true /\
  exists l1 l2, tags page = l1 ++ t :: l2.
Proof.
  unfold tags_getitem, tags_contains.
  destruct (find _ (tags page)) as [t'|] eqn:E; [|discriminate].
  intros [= ->]. apply find_some in E as [Hin Hn].
  apply String.eqb_eq in Hn. repeat split; [assumption | | apply in_split; assumption].
  apply existsb_exists. exists t. rewrite Hn, String.eqb_refl. auto.
Qed.

Lemma dict_branch_yields d :
  outcome (dict_branch d) = Return tt ->
  Forall2 entry_yielded d (yielded (dict_branch d)).
Proof.
  unfold dict_branch. induction d as [|[k v] d IH]; intros H.
  - constructor.
  - apply for_each_cons in H as (Hx & Hrest & ->). cbn beta iota delta [fst snd] in *.
    destruct v;
      try (constructor; [split; [reflexivity | left; reflexivity] | auto]).
    rewrite eval_bind in *. destruct (decode_ascii b) as [s|e] eqn:Eb; [|discriminate].
    constructor; [|auto]. split; [reflexivity|]. right. eauto.
Qed.

(** The generator past the identification check, when it runs to its
    end. *)
Lemma _page_tagconv_it_ok (fromstring : string -> result Element) page :
  outcome (_page_tagconv_it fromstring page) = Return tt ->
  exists tail : gen unit,
    outcome (for_each (tags page) (tag_branch fromstring)) = Return tt /\
    outcome tail = Return tt /\
    tail = (if tags_contains page "GPSTag" then
              t ← eval (tags_getitem page "GPSTag");
              c ← eval (convert_gpstag t);
              yield "Coords" (VCoords c)
            else mret tt) /\
    yielded (_page_tagconv_it fromstring page)
      = yielded (for_each (tags page) (tag_branch fromstring)) ++ yielded tail.
Proof.
  unfold _page_tagconv_it, not_a_dji_xt2. rewrite !eval_bind.
  destruct (tags_getitem page "Make") as [mk|e]; [|discriminate].
  destruct (negb (eq_str (value mk) "DJI")).
  { destruct (tags_getitem page "Model"); discriminate. }
  destruct (tags_getitem page "Model") as [md|e]; [|discriminate].
  destruct (negb (eq_str (value md) "XT2")); [discriminate|].
  intros H. apply gen_bind_ok in H as ([] & Hloop & Htail & Hy).
  eexists. repeat split; eassumption.
Qed.

(** C9. On a page with a GPS tag group, when the normaliser runs to its
    end, the stream holds the GPS data twice: the entries of the group,
    one pair each (byte values as text), yielded by the nested-group branch
    inside the loop over the tags, and after everything the loop yields
    the pair of 'Coords' and the decoded coordinate, as the last pair. *)
Theorem gps_data_twice (fromstring : string -> result Element) page t gps :
  outcome (_page_tagconv_it fromstring page) = Return tt ->
  tags_getitem page "GPSTag" = Return t ->
  value t = VDict gps ->
  exists pre post c,
    yielded (for_each (tags page) (tag_branch fromstring))
      = pre ++ yielded (dict_branch gps) ++ post /\
    Forall2 entry_yielded gps (yielded (dict_branch gps)) /\
    convert_gpstag t = Return c /\
    yielded (_page_tagconv_it fromstring page)
      = pre ++ yielded (dict_branch gps) ++ post ++ [("Coords", VCoords c)].
Proof.
  intros Hend Ht Hv.
  destruct (tags_getitem_returns _ _ _ Ht) as (Hname & Hin & l1 & l2 & Htags).
  destruct (_page_tagconv_it_ok _ _ Hend) as (tail & Hloop & Htail & -> & Hy).
  rewrite Hin, Ht, eval_bind, eval_bind in *.
  destruct (convert_gpstag t) as [c|e] eqn:Ec; [|discriminate].
  rewrite Htags in Hloop |- *.
  apply for_each_app in Hloop as (H1 & H2 & Hy12).
  apply for_each_cons in H2 as (Hb & H3 & Hy2).
  assert (Hbranch : tag_branch fromstring t = dict_branch gps).
  { unfold tag_branch. rewrite Hname, Hv. reflexivity. }
  rewrite Hbranch in *.
  exists (yielded (for_each l1 (tag_branch fromstring))),
         (yielded (for_each l2 (tag_branch fromstring))), c.
  repeat split.
  - rewrite Hy12, Hy2. reflexivity.
  - apply dict_branch_yields. assumption.
  - rewrite Hy, Htags, Hy12, Hy2. cbn [yield yielded].
    rewrite <- !app_assoc. reflexivity.
Qed.

Lemma gps_data_twice_witness :
  exists pre post,
    yielded (_page_tagconv_it no_xml page_with_gps)
      = pre ++ berlin ++ post ++ [("Coords", VCoords berlin_coords)].
Proof.
  destruct (gps_data_twice no_xml page_with_gps (gpstag berlin) berlin
              eq_refl eq_refl eq_refl)
    as (pre & post & c & _ & _ & Hc & Hy).
  exists pre, post. rewrite Hy.
  replace c with berlin_coords; [reflexivity|].
  assert (E : convert_gpstag (gpstag berlin) = Return berlin_coords)
    by (vm_compute; reflexivity).
  congruence.
Defined.

(** ** Text *)

Lemma append_assoc (a b c : string) : ((a ++ b) ++ c = a ++ (b ++ c))%string.
Proof.
  induction a as [|x a IH]; [reflexivity|].
  change (String x ((a ++ b) ++ c) = String x (a ++ (b ++ c)))%string.
  f_equal. exact IH.
Qed.

Lemma append_nil_r (a : string) : (a ++ EmptyString)%string = a.
Proof.
  induction a as [|x a IH]; [reflexivity|].
  change (String x (a ++ EmptyString) = String x a)%string. f_equal. exact IH.
Qed.

Lemma append_length (a b : string) :
  String.length (a ++ b) = (String.length a + String.length b)%nat.
Proof.
  induction a as [|x a IH]; [reflexivity|].
  change (S (String.length (a ++ b)) = S (String.length a + String.length b)).
  f_equal. exact IH.
Qed.

Lemma substring_prefix (a b : string) : substring 0 (String.length a) (a ++ b) = a.
Proof.
  induction a as [|x a IH]; [destruct b; reflexivity|].
  change (String x (substring 0 (String.length a) (a ++ b)) = String x a).
  f_equal. exact IH.
Qed.

(** ** The matcher *)

Lemma strip_prefix_Some p s s' : strip_prefix p s = Some s' -> s = (p ++ s')%string.
Proof.
  revert s. induction p as [|a p IH]; intros s; simpl.
  - intros [= ->]. reflexivity.
  - destruct s as [|b s]; [discriminate|].
    destruct (Ascii.eqb_spec a b) as [->|]; [|discriminate].
    intros H. rewrite (IH _ H). reflexivity.
Qed.

Lemma consumed_prefix w rest : consumed (w ++ rest) rest = w.
Proof.
  unfold consumed. rewrite append_length.
  replace (String.length w + String.length rest - String.length rest)%nat
    with (String.length w) by lia.
  apply substring_prefix.
Qed.

Lemma all_in_nil p : all_in p EmptyString.
Proof. reflexivity. Qed.

Lemma all_in_cons p c w : p c = true -> all_in p w -> all_in p (String c w).
Proof. unfold all_in. simpl. intros -> ->. reflexivity. Qed.

(** A greedy repetition that succeeds consumed characters of the class
    and handed the rest to its continuation. *)
Lemma star_sound {A} p (k : string -> option A) s a :
  star p k s = Some a ->
  exists w s', s = (w ++ s')%string /\ all_in p w /\ k s' = Some a.
Proof.
  induction s as [|c s IH]; simpl.
  - intros H. exists EmptyString, EmptyString. auto using all_in_nil.
  - destruct (p c) eqn:Hc.
    + destruct (star p k s) as [r|] eqn:Es.
      * intros [= ->]. destruct (IH eq_refl) as (w & s' & -> & Hw & Hk).
        exists (String c w), s'. auto using all_in_cons.
      * intros H. exists EmptyString, (String c s). auto using all_in_nil.
    + intros H. exists EmptyString, (String c s). auto using all_in_nil.
Qed.

Ltac split_sound := repeat split; try assumption; try (constructor; assumption).

(** The matcher is sound: when it succeeds, the pattern consumed a prefix
    of the text in the sense of [matches], and the continuation succeeded
    on the rest. *)
Lemma run_sound {A} r : forall s g (k : string -> groups -> option A) a,
  run r s g k = Some a ->
  exists w s' g', s = (w ++ s')%string /\ matches r g w g' /\ k s' g' = Some a.
Proof.
  induction r as [l|p|p|p|r1 IH1 r2 IH2|r1 IH1 r2 IH2|n r IH|n]; intros s g k a;
    cbn [run].
  - destruct (strip_prefix l s) as [s'|] eqn:E; [|discriminate].
    intros H. apply strip_prefix_Some in E. subst s.
    exists l, s', g. split_sound.
  - destruct s as [|c s]; [discriminate|]. destruct (p c) eqn:Hc; [|discriminate].
    intros H. exists (String c EmptyString), s, g. split_sound.
  - intros H. apply star_sound in H as (w & s' & -> & Hw & Hk).
    exists w, s', g. split_sound.
  - destruct s as [|c s]; [discriminate|]. destruct (p c) eqn:Hc; [|discriminate].
    intros H. apply star_sound in H as (w & s' & -> & Hw & Hk).
    exists (String c w), s', g. repeat split; [|assumption].
    constructor; [discriminate | auto using all_in_cons].
  - intros H. apply IH1 in H as (w1 & s1 & g1 & -> & M1 & H).
    apply IH2 in H as (w2 & s2 & g2 & -> & M2 & H).
    exists (w1 ++ w2)%string, s2, g2. rewrite append_assoc.
    repeat split; [econstructor; eassumption | assumption].
  - destruct (run r1 s g k) as [x|] eqn:E.
    + intros [= ->]. apply IH1 in E as (w & s' & g' & -> & M & H).
      exists w, s', g'. split_sound.
    + intros H. apply IH2 in H as (w & s' & g' & -> & M & H).
      exists w, s', g'. split_sound.
  - intros H. apply IH in H as (w & s' & g' & -> & M & H).
    rewrite consumed_prefix in H. exists w, s', ((n, w) :: g'). split_sound.
  - destruct (group g n) as [t|] eqn:Eg; [|discriminate].
    destruct (strip_prefix t s) as [s'|] eqn:E; [|discriminate].
    intros H. apply strip_prefix_Some in E. subst s.
    exists t, s', g. split_sound.
Qed.

Lemma fullmatch_sound r s m : fullmatch r s = Some m -> matches r [] s m.
Proof.
  unfold fullmatch. intros H. apply run_sound in H as (w & s' & g' & -> & M & H).
  destruct (String.eqb_spec s' EmptyString) as [->|]; [|discriminate].
  injection H as <-.
  rewrite append_nil_r. assumption.
Qed.

(** *** The envelope pattern *)

Ltac invert_matches :=
  repeat match goal with
  | H : matches (Cat _ _) _ _ _ |- _ => inversion H; subst; clear H
  | H : matches (Alt _ _) _ _ _ |- _ => inversion H; subst; clear H
  | H : matches (Lit _) _ _ _ |- _ => inversion H; subst; clear H
  | H : matches (Star _) _ _ _ |- _ => inversion H; subst; clear H
  | H : matches (Plus _) _ _ _ |- _ => inversion H; subst; clear H
  | H : matches (Set1 _) _ _ _ |- _ => inversion H; subst; clear H
  end.

Lemma matches_cat_inv r1 r2 g w g2 :
  matches (Cat r1 r2) g w g2 ->
  exists w1 g1 w2, w = (w1 ++ w2)%string /\ matches r1 g w1 g1 /\ matches r2 g1 w2 g2.
Proof. intros H. inversion H; subst. eauto 6. Qed.

Lemma matches_lit_inv l g w g' : matches (Lit l) g w g' -> w = l /\ g' = g.
Proof. intros H. inversion H; subst. auto. Qed.

Lemma matches_star_inv p g w g' : matches (Star p) g w g' -> all_in p w /\ g' = g.
Proof. intros H. inversion H; subst. auto. Qed.

Lemma matches_plus_inv p g w g' : matches (Plus p) g w g' -> all_in p w /\ g' = g.
Proof. intros H. inversion H; subst. auto. Qed.

(** A quoted attribute value captures nothing. *)
Lemma matches_quoted_inv p p' g w g' :
  matches (Lit "'" · Star p · Lit "'" ∣ Lit dq · Star p' · Lit dq)%re g w g' -> g' = g.
Proof. intros H. invert_matches; reflexivity. Qed.

Lemma matches_quote_inv g w g' :
  matches (Group "q" (Set1 (one_of (dq ++ "'")))) g w g' ->
  (w = dq \/ w = "'") /\ g' = ("q", w) :: g.
Proof.
  intros H. inversion H as [| | | | | | |n r g0 w0 g1 Hq|]; subst.
  inversion Hq as [|p c g0 Hc| | | | | | |]; subst. split; [|reflexivity].
  unfold one_of in Hc. cbn [list_ascii_of_string append dq existsb] in Hc.
  apply orb_true_iff in Hc as [Hc | Hc].
  - apply Ascii.eqb_eq in Hc as ->. left. reflexivity.
  - apply orb_true_iff in Hc as [Hc | Hc]; [|discriminate].
    apply Ascii.eqb_eq in Hc as ->. right. reflexivity.
Qed.

Lemma matches_content_inv g w g' :
  matches (Group "content" (Star any)) g w g' -> g' = ("content", w) :: g.
Proof.
  intros H. inversion H as [| | | | | | |n r g0 w0 g1 Hc|]; subst.
  apply matches_star_inv in Hc as [_ ->]. reflexivity.
Qed.

Lemma matches_backref_inv n g w g' :
  matches (Backref n) g w g' -> group g n = Some w /\ g' = g.
Proof. intros H. inversion H; subst. auto. Qed.

(** Text that [_xmp_re] matches is an envelope around the content group. *)
Lemma xmp_envelope text m :
  fullmatch _xmp_re text = Some m -> envelope text (group_text m "content").
Proof.
  intros H. apply fullmatch_sound in H. unfold _xmp_re in H.
  apply matches_cat_inv in H as (u1 & g & pad & -> & H & Hpad).
  apply matches_cat_inv in H as (u2 & g15 & w15 & -> & H & H15).
  apply matches_cat_inv in H as (u3 & g14 & e & -> & H & He).
  apply matches_cat_inv in H as (u4 & g13 & w13 & -> & H & H13).
  apply matches_cat_inv in H as (u5 & g12 & sp3 & -> & H & Hsp3).
  apply matches_cat_inv in H as (u6 & g11 & w11 & -> & H & H11).
  apply matches_cat_inv in H as (u7 & g10 & content & -> & H & Hcontent).
  apply matches_cat_inv in H as (u8 & g9 & w9 & -> & H & H9).
  apply matches_cat_inv in H as (w & g8 & q' & -> & H & Hq').
  apply matches_cat_inv in H as (u9 & g7 & w7 & -> & H & H7).
  apply matches_cat_inv in H as (u10 & g6 & q & -> & H & Hq).
  apply matches_cat_inv in H as (u11 & g5 & w5 & -> & H & H5).
  apply matches_cat_inv in H as (u12 & g4 & sp2 & -> & H & Hsp2).
  apply matches_cat_inv in H as (u13 & g3 & b & -> & H & Hb).
  apply matches_cat_inv in H as (u14 & g2 & w2 & -> & H & H2).
  apply matches_cat_inv in H as (u15 & g1 & sp1 & -> & H & Hsp1).
  apply matches_cat_inv in H as (lead & g0 & w0 & -> & Hlead & H0).
  apply matches_star_inv in Hlead as [Hlead ->].
  apply matches_lit_inv in H0 as [-> ->].
  apply matches_plus_inv in Hsp1 as [_ ->].
  apply matches_lit_inv in H2 as [-> ->].
  apply matches_quoted_inv in Hb as ->.
  apply matches_plus_inv in Hsp2 as [_ ->].
  apply matches_lit_inv in H5 as [-> ->].
  apply matches_quote_inv in Hq as [Hq ->].
  apply matches_lit_inv in H7 as [-> ->].
  apply matches_backref_inv in Hq' as [Hq' ->]. injection Hq' as <-.
  apply matches_lit_inv in H9 as [-> ->].
  apply matches_content_inv in Hcontent as ->.
  apply matches_lit_inv in H11 as [-> ->].
  apply matches_plus_inv in Hsp3 as [_ ->].
  apply matches_lit_inv in H13 as [-> ->].
  apply matches_quoted_inv in He as ->.
  apply matches_lit_inv in H15 as [-> ->].
  apply matches_star_inv in Hpad as [Hpad ->].
  exists lead, sp1, b, sp2, q, sp3, e, pad.
  repeat split; try assumption.
  rewrite !append_assoc. reflexivity.
Qed.

(** Text in which the packet identifier does not occur is no envelope. *)
Lemma xmp_needs_id text : ~ occurs xpacket_id text -> fullmatch _xmp_re text = None.
Proof.
  intros Hno. destruct (fullmatch _xmp_re text) as [m|] eqn:E; [|reflexivity].
  exfalso. apply Hno.
  destruct (xmp_envelope _ _ E) as (lead & sp1 & b & sp2 & q & sp3 & e & pad & -> & _).
  exists (lead ++ "<?xpacket" ++ sp1 ++ "begin=" ++ b ++ sp2 ++ "id=" ++ q)%string.
  eexists. rewrite !append_assoc. reflexivity.
Qed.

(** The loop over the tags ends well only if every tag's branch does. *)
Lemma for_each_all {A} (l : list A) (body : A -> gen unit) x :
  outcome (for_each l body) = Return tt -> In x l -> outcome (body x) = Return tt.
Proof.
  intros H Hin. apply in_split in Hin as (l1 & l2 & ->).
  apply for_each_app in H as (_ & H & _).
  apply for_each_cons in H as (H & _). exact H.
Qed.

Lemma consume_raises g :
  outcome g <> Return tt -> raises (consume g []).
Proof.
  intros H. unfold consume.
  destruct (collect (yielded g) []) as [atts|e]; [|eexists; reflexivity].
  rewrite bind_Return. destruct (outcome g) as [[]|e]; [congruence|].
  eexists. reflexivity.
Qed.

(** A page with a tag whose branch raises yields no map. *)
Lemma pageprops_raises (fromstring : string -> result Element) idx page tag e :
  In tag (tags page) -> outcome (tag_branch fromstring tag) = Raise e ->
  raises (pageprops fromstring idx page).
Proof.
  intros Hin He. unfold pageprops.
  destruct (consume_raises (_page_tagconv_it fromstring page)) as [e' ->];
    [|eexists; reflexivity].
  intros Hend. apply _page_tagconv_it_ok in Hend as (tail & Hloop & _).
  rewrite (for_each_all _ _ _ Hloop Hin) in He. discriminate.
Qed.

(** C4. For an XMP payload that decodes to [text]: if [text] does not match
    the envelope pattern (as it cannot when the fixed identifier does not
    occur in it), the XMP branch raises the envelope-mismatch error and
    has yielded nothing; if it matches, it is an envelope with the fixed
    identifier around the content, and content the XML parser rejects
    makes the branch raise the parser's error instead, again with nothing
    yielded. Either way [pageprops] returns no map for the page. *)
Theorem xmp_envelope_or_error (fromstring : string -> result Element) tag text :
  name tag = "XMP" ->
  decode (value tag) = Return text ->
  (fullmatch _xmp_re text = None ->
     tag_branch fromstring tag
       = Gen [] (Raise (RuntimeError "Failed to parse XMP" [value tag]))) /\
  (~ occurs xpacket_id text -> fullmatch _xmp_re text = None) /\
  (forall m, fullmatch _xmp_re text = Some m ->
     envelope text (group_text m "content") /\
     (fromstring (group_text m "content") = Raise ParseError ->
        tag_branch fromstring tag = Gen [] (Raise ParseError))) /\
  (forall idx page,
     In tag (tags page) ->
     fullmatch _xmp_re text = None \/
     (exists m, fullmatch _xmp_re text = Some m /\
                fromstring (group_text m "content") = Raise ParseError) ->
     raises (pageprops fromstring idx page)).
Proof.
  intros Hn Hd.
  assert (Hb : tag_branch fromstring tag = xmp_branch fromstring tag).
  { unfold tag_branch. rewrite Hn. reflexivity. }
  assert (Hnone : fullmatch _xmp_re text = None ->
     tag_branch fromstring tag
       = Gen [] (Raise (RuntimeError "Failed to parse XMP" [value tag]))).
  { intros Hm. rewrite Hb. unfold xmp_branch. rewrite Hd, eval_bind, Hm. reflexivity. }
  assert (Hsome : forall m, fullmatch _xmp_re text = Some m ->
     fromstring (group_text m "content") = Raise ParseError ->
     tag_branch fromstring tag = Gen [] (Raise ParseError)).
  { intros m Hm Hx. rewrite Hb. unfold xmp_branch.
    rewrite Hd, eval_bind, Hm, eval_bind, Hx. reflexivity. }
  split; [exact Hnone | split; [apply xmp_needs_id | split]].
  - intros m Hm. split; [apply xmp_envelope; assumption | apply Hsome; assumption].
  - intros idx page Hin [Hm | (m & Hm & Hx)].
    + eapply pageprops_raises; [eassumption|]. rewrite (Hnone Hm). reflexivity.
    + eapply pageprops_raises; [eassumption|]. rewrite (Hsome m Hm Hx). reflexivity.
Qed.

Lemma xmp_envelope_or_error_witness :
  tag_branch no_xml (mkTiffTag "XMP" (bytes (xpacket "W5M0MpCehiHzreSzNTczkc9e" "<x/>")))
    = Gen [] (Raise (RuntimeError "Failed to parse XMP"
                       [bytes (xpacket "W5M0MpCehiHzreSzNTczkc9e" "<x/>")])) /\
  tag_branch no_xml (mkTiffTag "XMP" (bytes (xpacket xpacket_id "<x>")))
    = Gen [] (Raise ParseError) /\
  raises (pageprops no_xml 0 (page_with_xmp (xpacket "W5M0MpCehiHzreSzNTczkc9e" "<x/>"))).
Proof.
  split; [|split].
  - apply (proj1 (xmp_envelope_or_error no_xml
             (mkTiffTag "XMP" (bytes (xpacket "W5M0MpCehiHzreSzNTczkc9e" "<x/>")))
             (xpacket "W5M0MpCehiHzreSzNTczkc9e" "<x/>") eq_refl eq_refl)).
    vm_compute. reflexivity.
  - destruct (xmp_envelope_or_error no_xml
             (mkTiffTag "XMP" (bytes (xpacket xpacket_id "<x>")))
             (xpacket xpacket_id "<x>") eq_refl eq_refl) as (_ & _ & H & _).
    apply (H [("content", "<x>"); ("q", "'")]); [vm_compute|]; reflexivity.
  - destruct (xmp_envelope_or_error no_xml
             (mkTiffTag "XMP" (bytes (xpacket "W5M0MpCehiHzreSzNTczkc9e" "<x/>")))
             (xpacket "W5M0MpCehiHzreSzNTczkc9e" "<x/>") eq_refl eq_refl) as (_ & _ & _ & H).
    apply H; [right; right; left; reflexivity | left; vm_compute; reflexivity].
Defined.

(** * Further properties *)

(** ** The range of a decoded coordinate *)

Lemma ltb_opp (x y : float) : Float.ltb (Float.opp x) (Float.opp y) = Float.ltb y x.
Proof.
  unfold Float.ltb, SFltb, Float.opp.
  destruct x as [[]|[]| |[] m1 e1], y as [[]|[]| |[] m2 e2]; try reflexivity; cbn;
    rewrite ?(Z.compare_antisym e1 e2); destruct (e1 ?= e2); cbn; try reflexivity;
    fold (Pos.compare m1 m2); fold (Pos.compare m2 m1);
    rewrite ?(Pos.compare_antisym m1 m2); destruct (Pos.compare m1 m2); reflexivity.
Qed.

Lemma opp_involutive (x : float) : Float.opp (Float.opp x) = x.
Proof. destruct x as [[]|[]| |[] m e]; reflexivity. Qed.

(** What is not below zero is not below a negative number. *)
Lemma ltb_negative (x : float) (s : bool) m e :
  Float.ltb x (Float.of_Z 0) = false -> Float.ltb x (S754_finite true m e) = false.
Proof. destruct x as [[]|[]| |[] m' e']; cbn; intros; congruence. Qed.

Lemma axis_returns_inv gps key hi refkey pos neg v :
  axis gps key hi refkey pos neg = Return v ->
  exists m, out_of_range m hi = false /\ (v = m \/ v = Float.opp m).
Proof.
  unfold axis. intros H. step H as y Hy. step H as n Hn.
  destruct (negb _); [discriminate|]. step H as m Hm.
  destruct (out_of_range m hi) eqn:Hr; [discriminate|]. step H as ref Href.
  exists m. split; [assumption|].
  destruct (eq_str ref pos); [injection H as <-; auto|].
  destruct (eq_str ref neg); [injection H as <-; auto | discriminate].
Qed.

Lemma within_90 m v :
  out_of_range m 90 = false -> v = m \/ v = Float.opp m -> within v 90.
Proof.
  intros Hr Hv. apply out_of_range_false in Hr as [Hhi Hlo].
  assert (Hneg : Float.of_Z (Z.opp 90) = Float.opp (Float.of_Z 90)) by reflexivity.
  unfold within. destruct Hv as [-> | ->].
  - split; [assumption|]. apply (ltb_negative m true). assumption.
  - rewrite Hneg, ltb_opp. split; [|assumption].
    rewrite <- (opp_involutive (Float.of_Z 90)), ltb_opp.
    apply (ltb_negative m true). assumption.
Qed.

Lemma within_180 m v :
  out_of_range m 180 = false -> v = m \/ v = Float.opp m -> within v 180.
Proof.
  intros Hr Hv. apply out_of_range_false in Hr as [Hhi Hlo].
  assert (Hneg : Float.of_Z (Z.opp 180) = Float.opp (Float.of_Z 180)) by reflexivity.
  unfold within. destruct Hv as [-> | ->].
  - split; [assumption|]. apply (ltb_negative m true). assumption.
  - rewrite Hneg, ltb_opp. split; [|assumption].
    rewrite <- (opp_involutive (Float.of_Z 180)), ltb_opp.
    apply (ltb_negative m true). assumption.
Qed.

(** Two numbers of which the first is not below the second: the second is
    at most the first. *)
Lemma not_ltb_leb (x y : float) :
  Float.ltb x y = false -> Float.is_nan x = false -> Float.is_nan y = false ->
  Float.leb y x = true.
Proof.
  unfold Float.ltb, Float.leb, SFltb, SFleb.
  destruct x as [[]|[]| |[] m1 e1], y as [[]|[]| |[] m2 e2]; cbn; try congruence;
    rewrite ?(Z.compare_antisym e1 e2); destruct (e1 ?= e2); cbn; try congruence;
    fold (Pos.compare m1 m2); fold (Pos.compare m2 m1);
    rewrite ?(Pos.compare_antisym m1 m2); destruct (Pos.compare m1 m2); cbn; congruence.
Qed.

(** X1. Every coordinate the decoder returns has a latitude neither above
    90 nor below -90 and a longitude neither above 180 nor below -180;
    when they are numbers, that is -90 <= lat <= 90 and
    -180 <= lon <= 180. *)
Theorem convert_gpstag_in_range tag c :
  convert_gpstag tag = Return c ->
  within (lat c) 90 /\ within (lon c) 180 /\
  (Float.is_nan (lat c) = false ->
     Float.leb (Float.of_Z (- 90)) (lat c) = true /\
     Float.leb (lat c) (Float.of_Z 90) = true) /\
  (Float.is_nan (lon c) = false ->
     Float.leb (Float.of_Z (- 180)) (lon c) = true /\
     Float.leb (lon c) (Float.of_Z 180) = true).
Proof.
  unfold convert_gpstag. destruct (negb (String.eqb _ _)); [discriminate|].
  intros H. step H as datum Hd. destruct (negb (eq_str _ _)); [discriminate|].
  step H as la Hla. step H as lo Hlo. step H as al Hal. injection H as <-.
  cbn [lat lon].
  apply axis_returns_inv in Hla as (m1 & Hr1 & Hv1).
  apply axis_returns_inv in Hlo as (m2 & Hr2 & Hv2).
  pose proof (within_90 _ _ Hr1 Hv1) as [H1 H2].
  pose proof (within_180 _ _ Hr2 Hv2) as [H3 H4].
  split; [split; assumption|]. split; [split; assumption|].
  split; intros Hn; split; apply not_ltb_leb; (assumption || reflexivity).
Qed.

Lemma convert_gpstag_in_range_witness :
  convert_gpstag (gpstag santiago)
    = Return {| lat := Float.opp (ratio 3345 100);
                lon := Float.opp (ratio 7065 100);
                alt := ratio 520 1 |} /\
  within (Float.opp (ratio 3345 100)) 90.
Proof.
  assert (E : convert_gpstag (gpstag santiago)
              = Return {| lat := Float.opp (ratio 3345 100);
                          lon := Float.opp (ratio 7065 100);
                          alt := ratio 520 1 |}) by (vm_compute; reflexivity).
  split; [exact E|].
  exact (proj1 (convert_gpstag_in_range _ _ E)).
Defined.

(** ** What a returned coordinate vouches for *)





(** X3. On a group with the right datum, a latitude sequence that has not
    six elements is rejected as it is, before any element is looked at,
    and so is one that decodes below zero; the same holds for the
    longitude once the latitude has passed. *)
Theorem shape_and_sign_checked tag gps :
  datum_ok tag gps ->
  (forall y n, dict_get gps "GPSLatitude" = Some y -> len y = Return n -> n <> 6 ->
     convert_gpstag tag = Raise (RuntimeError "GPSLatitude" [y])) /\
  (forall y m, dict_get gps "GPSLatitude" = Some y -> sexagesimal y = Return m ->
     Float.ltb m (Float.of_Z 0) = true ->
     convert_gpstag tag = Raise (RuntimeError "GPSLatitude" [y])) /\
  (forall la, axis (VDict gps) "GPSLatitude" 90 "GPSLatitudeRef" "N" "S" = Return la ->
     (forall x n, dict_get gps "GPSLongitude" = Some x -> len x = Return n -> n <> 6 ->
        convert_gpstag tag = Raise (RuntimeError "GPSLongitude" [x])) /\
     (forall x m, dict_get gps "GPSLongitude" = Some x -> sexagesimal x = Return m ->
        Float.ltb m (Float.of_Z 0) = true ->
        convert_gpstag tag = Raise (RuntimeError "GPSLongitude" [x]))).
Proof.
  intros Hd. rewrite (convert_gpstag_datum_ok _ _ Hd).
  assert (Hshape : forall key hi refkey pos neg y n,
            dict_get gps key = Some y -> len y = Return n -> n <> 6 ->
            axis (VDict gps) key hi refkey pos neg = Raise (RuntimeError key [y])).
  { intros key hi refkey pos neg y n Hy Hn H6. unfold axis.
    rewrite (getitem_dict _ _ _ Hy), bind_Return, Hn, bind_Return.
    apply Z.eqb_neq in H6. rewrite H6. reflexivity. }
  assert (Hsign : forall key hi refkey pos neg y m,
            dict_get gps key = Some y -> sexagesimal y = Return m ->
            Float.ltb m (Float.of_Z 0) = true ->
            axis (VDict gps) key hi refkey pos neg = Raise (RuntimeError key [y])).
  { intros key hi refkey pos neg y m Hy Hm Hneg.
    apply (axis_out_of_range _ _ _ _ _ _ _ _ Hy Hm).
    unfold out_of_range. rewrite Hneg. apply orb_true_r. }
  split; [|split].
  - intros y n Hy Hn H6. rewrite (Hshape _ _ _ _ _ _ _ Hy Hn H6). reflexivity.
  - intros y m Hy Hm Hneg. rewrite (Hsign _ _ _ _ _ _ _ Hy Hm Hneg). reflexivity.
  - intros la Hla. rewrite Hla, bind_Return. split.
    + intros x n Hx Hn H6. rewrite (Hshape _ _ _ _ _ _ _ Hx Hn H6). reflexivity.
    + intros x m Hx Hm Hneg. rewrite (Hsign _ _ _ _ _ _ _ Hx Hm Hneg). reflexivity.
Qed.

Lemma shape_and_sign_checked_witness :
  convert_gpstag (gpstag lat_five)
    = Raise (RuntimeError "GPSLatitude" [ints [52; 1; 30; 1; 0]]).
Proof.
  assert (Hd : datum_ok (gpstag lat_five) lat_five) by (constructor; reflexivity).
  apply (proj1 (shape_and_sign_checked _ _ Hd) (ints [52; 1; 30; 1; 0]) 5);
    [reflexivity | reflexivity | discriminate].
Defined.

(** X4. A group that passes every check but has no altitude entry, or no
    altitude reference, is not decoded: the lookup raises [KeyError] with
    the missing key. *)
Theorem altitude_is_required tag gps la lo :
  datum_ok tag gps ->
  axis (VDict gps) "GPSLatitude" 90 "GPSLatitudeRef" "N" "S" = Return la ->
  axis (VDict gps) "GPSLongitude" 180 "GPSLongitudeRef" "E" "W" = Return lo ->
  (dict_get gps "GPSAltitudeRef" = None ->
     convert_gpstag tag = Raise (KeyError (VStr "GPSAltitudeRef"))) /\
  (forall r, dict_get gps "GPSAltitudeRef" = Some r -> eq_int r 0 = true ->
     dict_get gps "GPSAltitude" = None ->
     convert_gpstag tag = Raise (KeyError (VStr "GPSAltitude"))) /\
  (forall r, dict_get gps "GPSAltitudeRef" = Some r -> eq_int r 0 = false ->
     convert_gpstag tag = Raise (RuntimeError "GPSAltitudeRef" [r])).
Proof.
  intros Hd Hla Hlo.
  rewrite (convert_gpstag_datum_ok _ _ Hd), Hla, bind_Return, Hlo, bind_Return.
  unfold altitude. split; [|split].
  - intros Hr. cbn [getitem]. rewrite Hr. reflexivity.
  - intros r Hr H0 Hz. rewrite (getitem_dict _ _ _ Hr), bind_Return, H0.
    cbn [negb getitem]. rewrite Hz. reflexivity.
  - intros r Hr H0. rewrite (getitem_dict _ _ _ Hr), bind_Return, H0. reflexivity.
Qed.

Lemma altitude_is_required_witness :
  convert_gpstag (gpstag no_altitude) = Raise (KeyError (VStr "GPSAltitude")).
Proof.
  assert (Hd : datum_ok (gpstag no_altitude) no_altitude) by (constructor; reflexivity).
  destruct (altitude_is_required (gpstag no_altitude) no_altitude
              (ratio 525 10) (ratio 134 10) Hd) as (_ & H & _);
    [vm_compute; reflexivity | vm_compute; reflexivity |].
  apply (H (VInt 0)); reflexivity.
Defined.

(** ** The tag normaliser: identification and key collisions *)

(** X5. A page whose make is not 'DJI' or whose model is not 'XT2' is
    rejected before any tag is processed: the normaliser yields nothing and
    raises the identification error with the make and model found, and so
    does [pageprops], whatever the other tags hold. *)
Theorem identification_first (fromstring : string -> result Element) idx page mk md :
  tags_getitem page "Make" = Return mk ->
  tags_getitem page "Model" = Return md ->
  value mk <> VStr "DJI" \/ value md <> VStr "XT2" ->
  _page_tagconv_it fromstring page
    = Gen [] (Raise (RuntimeError "This is not a DJI XT2, it is a" [value mk; value md])) /\
  pageprops fromstring idx page
    = Raise (RuntimeError "This is not a DJI XT2, it is a" [value mk; value md]).
Proof.
  intros Hmk Hmd Hne.
  assert (E : _page_tagconv_it fromstring page
    = Gen [] (Raise (RuntimeError "This is not a DJI XT2, it is a" [value mk; value md]))).
  { unfold _page_tagconv_it, not_a_dji_xt2. rewrite Hmk, Hmd, !eval_bind.
    destruct (eq_str (value mk) "DJI") eqn:E1; cbn [negb]; [|reflexivity].
    rewrite ?eval_bind.
    destruct (eq_str (value md) "XT2") eqn:E2; cbn [negb]; [|reflexivity].
    apply eq_str_true in E1, E2. destruct Hne; contradiction. }
  split; [exact E|]. unfold pageprops, consume. rewrite E. reflexivity.
Qed.

Lemma identification_first_witness :
  pageprops no_xml 0 page_other_camera
    = Raise (RuntimeError "This is not a DJI XT2, it is a" [VStr "FLIR"; VStr "Vue Pro"]).
Proof.
  assert (Hmk : tags_getitem page_other_camera "Make"
                = Return (mkTiffTag "Make" (VStr "FLIR"))) by reflexivity.
  assert (Hmd : tags_getitem page_other_camera "Model"
                = Return (mkTiffTag "Model" (VStr "Vue Pro"))) by reflexivity.
  assert (Hne : value (mkTiffTag "Make" (VStr "FLIR")) <> VStr "DJI"
                \/ value (mkTiffTag "Model" (VStr "Vue Pro")) <> VStr "XT2")
    by (left; discriminate).
  exact (proj2 (identification_first no_xml 0 page_other_camera _ _ Hmk Hmd Hne)).
Defined.

Lemma NoDup_app_In {A} (l1 l2 : list A) x :
  List.NoDup (l1 ++ l2) -> In x l1 -> In x l2 -> False.
Proof.
  induction l1 as [|a l1 IH]; simpl; [tauto|].
  intros Hnd [-> | Hin] H2; apply List.NoDup_cons_iff in Hnd as [Ha Hnd].
  - apply Ha. apply in_or_app. auto.
  - eauto.
Qed.

Lemma NoDup_app_r {A} (l1 l2 : list A) : List.NoDup (l1 ++ l2) -> List.NoDup l2.
Proof.
  induction l1 as [|a l1 IH]; simpl; [auto|].
  intros H. apply List.NoDup_cons_iff in H as [_ H]. auto.
Qed.

(** When [pageprops] returns, the stream ended well, without a repeated
    key. *)
Lemma pageprops_returns_stream (fromstring : string -> result Element) idx page atts :
  pageprops fromstring idx page = Return atts ->
  outcome (_page_tagconv_it fromstring page) = Return tt /\
  List.NoDup (map fst (yielded (_page_tagconv_it fromstring page))).
Proof.
  unfold pageprops. intros H. step H as atts0 H0.
  apply consume_returns in H0 as (Hnd & _ & Hend). auto.
Qed.

(** X6. Keys are not qualified by the tag they come from: when two tags
    of a page contribute the same key (two tags of one name, a nested
    group that has a key named as another tag, two groups that share a
    key), [pageprops] returns no map; nor does it when a tag contributes
    the key 'Coords' on a page that has a GPS tag group. *)
Theorem shared_key_fails (fromstring : string -> result Element) idx page :
  (forall l1 t1 l2 t2 l3 k,
     tags page = l1 ++ t1 :: l2 ++ t2 :: l3 ->
     In k (keys_of fromstring t1) -> In k (keys_of fromstring t2) ->
     raises (pageprops fromstring idx page)) /\
  (forall t,
     In t (tags page) -> In "Coords" (keys_of fromstring t) ->
     tags_contains page "GPSTag" = true ->
     raises (pageprops fromstring idx page)).
Proof.
  split.
  - intros l1 t1 l2 t2 l3 k Htags H1 H2.
    destruct (pageprops fromstring idx page) as [atts|e] eqn:E; [|eexists; reflexivity].
    exfalso. apply pageprops_returns_stream in E as (Hend & Hnd).
    apply _page_tagconv_it_ok in Hend as (tail & Hloop & _ & _ & Hy).
    rewrite Hy, Htags, map_app in Hnd. apply NoDup_app_remove_r in Hnd.
    rewrite Htags in Hloop.
    apply for_each_app in Hloop as (_ & Hloop & Hy1). rewrite Hy1 in Hnd.
    apply for_each_cons in Hloop as (_ & Hloop & Hy2). rewrite Hy2 in Hnd.
    apply for_each_app in Hloop as (_ & Hloop & Hy3). rewrite Hy3 in Hnd.
    apply for_each_cons in Hloop as (_ & _ & Hy4). rewrite Hy4 in Hnd.
    rewrite !map_app in Hnd. apply NoDup_app_r in Hnd.
    apply (NoDup_app_In _ _ k Hnd); [exact H1|].
    apply in_or_app. right. apply in_or_app. left. exact H2.
  - intros t Hin Hk Hgps.
    destruct (pageprops fromstring idx page) as [atts|e] eqn:E; [|eexists; reflexivity].
    exfalso. apply pageprops_returns_stream in E as (Hend & Hnd).
    apply _page_tagconv_it_ok in Hend as (tail & Hloop & Htail & -> & Hy).
    rewrite Hgps in *. rewrite Hy, map_app in Hnd.
    destruct (tags_getitem page "GPSTag") as [g|e]; [|discriminate].
    rewrite eval_bind, eval_bind in *.
    destruct (convert_gpstag g) as [c|e]; [|discriminate].
    apply in_split in Hin as (l1 & l2 & Htags). rewrite Htags in Hloop, Hnd.
    apply for_each_app in Hloop as (_ & Hloop & Hy1). rewrite Hy1 in Hnd.
    apply for_each_cons in Hloop as (_ & _ & Hy2). rewrite Hy2 in Hnd.
    apply (NoDup_app_In _ _ "Coords" Hnd); [|left; reflexivity].
    rewrite !map_app. apply in_or_app. right. apply in_or_app. left. exact Hk.
Qed.

Lemma shared_key_fails_witness :
  raises (pageprops no_xml 0 page_coords_twice) /\
  raises (pageprops no_xml 0 page_duplicate).
Proof.
  split.
  - apply (proj2 (shared_key_fails no_xml 0 page_coords_twice)
             (mkTiffTag "Coords" (VStr "here")));
      [right; right; left; reflexivity | left; reflexivity | reflexivity].
  - apply (proj1 (shared_key_fails no_xml 0 page_duplicate)
             [] make_dji [model_xt2]
             (mkTiffTag "ExifTag" (VDict [("Make", VStr "Hasselblad")]))
             [mkTiffTag "XMP" (bytes "junk")] "Make");
      [reflexivity | left; reflexivity | left; reflexivity].
Defined.

(** ** The property assembler: what is returned *)

Lemma dict_get_Some_In d k v : dict_get d k = Some v -> In (k, v) d.
Proof.
  induction d as [|[k' v'] d IH]; [discriminate|].
  rewrite dict_get_cons. destruct (String.eqb_spec k' k) as [->|Hne].
  - intros [= ->]. left. reflexivity.
  - intros H. right. auto.
Qed.

(** X7. Without a 'DateTimeOriginal' pair nothing is fixed up: when the
    stream ends well with distinct keys, [pageprops] returns exactly the
    pairs yielded, in the order yielded; a sub-second value is then left as
    it is, whatever it holds. *)
Theorem pageprops_without_datetime (fromstring : string -> result Element) idx page :
  outcome (_page_tagconv_it fromstring page) = Return tt ->
  List.NoDup (map fst (yielded (_page_tagconv_it fromstring page))) ->
  ~ In "DateTimeOriginal" (map fst (yielded (_page_tagconv_it fromstring page))) ->
  pageprops fromstring idx page = Return (yielded (_page_tagconv_it fromstring page)).
Proof.
  intros Hend Hnd Hno. unfold pageprops, consume.
  rewrite collect_fresh by (assumption || reflexivity).
  rewrite bind_Return, Hend, !bind_Return. cbn [app].
  unfold fixup_datetime, dict_in.
  destruct (dict_get _ "DateTimeOriginal") as [v|] eqn:E; [|reflexivity].
  exfalso. apply Hno. apply dict_get_Some_In in E.
  change "DateTimeOriginal" with (fst ("DateTimeOriginal", v)). apply in_map. exact E.
Qed.

Lemma pageprops_without_datetime_witness :
  pageprops no_xml 0 page_subsec_only
    = Return [("Make", VStr "DJI"); ("Model", VStr "XT2");
              ("SubsecTimeOriginal", VStr "250")].
Proof.
  apply (pageprops_without_datetime no_xml 0 page_subsec_only).
  - reflexivity.
  - repeat constructor; simpl; intuition discriminate.
  - simpl. intuition discriminate.
Defined.

(** X8. A 'DateTimeOriginal' in a map [pageprops] returns is never the
    text any more: it is a valid timestamp whose microsecond is a multiple
    of 10000 below 1000000; every other key holds the value yielded for
    it. Without a sub-second pair the microsecond is 0. *)
Theorem pageprops_timestamp (fromstring : string -> result Element) idx page atts :
  pageprops fromstring idx page = Return atts ->
  (forall v, dict_get atts "DateTimeOriginal" = Some v ->
     exists dt, v = VDateTime dt /\ valid_datetime dt = true /\
                microsecond dt mod 10000 = 0 /\
                (dict_get atts "SubsecTimeOriginal" = None -> microsecond dt = 0)) /\
  (forall k, k <> "DateTimeOriginal" ->
     dict_get atts k = dict_get (yielded (_page_tagconv_it fromstring page)) k).
Proof.
  unfold pageprops. intros H. step H as atts0 H0.
  apply consume_returns in H0 as (_ & -> & _).
  set (ys := yielded (_page_tagconv_it fromstring page)) in *.
  split; [|apply fixup_datetime_returns; assumption].
  intros v Hv.
  pose proof (proj2 (fixup_datetime_returns _ _ H)) as Hother.
  unfold fixup_datetime, dict_in in H.
  destruct (dict_get ys "DateTimeOriginal") as [v0|] eqn:E0.
  - rewrite (getitem_dict _ _ _ E0), bind_Return in H. step H as dt Hdt.
    step H as dt' Hdt'. injection H as <-.
    rewrite dict_get_set, String.eqb_refl in Hv. injection Hv as <-.
    destruct (strptime_returns _ _ Hdt) as [Hvalid Hus].
    exists dt'. split; [reflexivity|].
    destruct (dict_get ys "SubsecTimeOriginal") as [s|] eqn:Es.
    + step Hdt' as s' Hs'. step Hdt' as n Hn.
      apply replace_microsecond_returns in Hdt' as [-> Hv'].
      repeat split; [assumption | apply Z.mod_mul; lia |].
      rewrite dict_get_set. cbn. congruence.
    + injection Hdt' as <-. rewrite Hus. repeat split; auto.
  - injection H as <-. congruence.
Qed.

Lemma pageprops_timestamp_witness :
  exists atts dt,
    pageprops no_xml 0 (page_taken "2022:05:01 12:00:00" "50") = Return atts /\
    dict_get atts "DateTimeOriginal" = Some (VDateTime dt) /\
    microsecond dt mod 10000 = 0.
Proof.
  assert (E : pageprops no_xml 0 (page_taken "2022:05:01 12:00:00" "50")
              = Return [("Make", VStr "DJI"); ("Model", VStr "XT2");
                        ("DateTimeOriginal", VDateTime (mkdatetime 2022 5 1 12 0 0 500000));
                        ("SubsecTimeOriginal", VStr "50")]) by (vm_compute; reflexivity).
  destruct (proj1 (pageprops_timestamp _ _ _ _ E)
              (VDateTime (mkdatetime 2022 5 1 12 0 0 500000)) eq_refl)
    as (dt & Hdt & _ & Hmod & _).
  eexists _, dt. split; [exact E|]. split; [rewrite Hdt; reflexivity | exact Hmod].
Defined.

(** ** The nested-group branch *)

(** Decoding ASCII bytes gives the text of the same character codes, and
    fails on any other byte. *)
Lemma decode_ascii_spec b :
  decode_ascii b = if is_ascii b then Return (string_of_list_byte b)
                   else Raise UnicodeDecodeError.
Proof.
  induction b as [|x b IH]; [reflexivity|].
  cbn [decode_ascii is_ascii forallb]. fold (is_ascii b).
  destruct (Byte.to_N x <? 128)%N; cbn [andb]; [|reflexivity].
  rewrite IH. destruct (is_ascii b); reflexivity.
Qed.

Lemma dict_branch_cons kv d :
  dict_branch (kv :: d)
    = (_ ← match snd kv with
           | VBytes b => s ← eval (decode_ascii b); yield (fst kv) (VStr s)
           | v => yield (fst kv) v
           end; dict_branch d).
Proof. reflexivity. Qed.

Lemma entry_yields kv :
  ~ undecodable kv ->
  match snd kv with
  | VBytes b => s ← eval (decode_ascii b); yield (fst kv) (VStr s)
  | v => yield (fst kv) v
  end = yield (fst kv) (snd (entry_pair kv)) /\ fst (entry_pair kv) = fst kv.
Proof.
  intros H. unfold entry_pair. destruct (snd kv) eqn:E; try (split; reflexivity).
  rewrite eval_bind, decode_ascii_spec.
  destruct (is_ascii b) eqn:Eb; [split; reflexivity|].
  exfalso. apply H. exists b. auto.
Qed.

(** A group without undecodable values is yielded whole. *)
Lemma dict_branch_decodable d :
  Forall (fun kv => ~ undecodable kv) d ->
  dict_branch d = Gen (map entry_pair d) (Return tt).
Proof.
  induction d as [|kv d IH]; intros H; [reflexivity|].
  apply Forall_cons in H as [Hkv Hd].
  rewrite dict_branch_cons, (proj1 (entry_yields kv Hkv)), (IH Hd).
  unfold entry_pair, yield. destruct kv as [k v]. cbn [fst snd].
  destruct v; reflexivity.
Qed.

(** X9. A nested group is yielded entry by entry, under the entries' own
    keys and in their order, a byte value as the text of the same
    character codes. At the first byte value that is not ASCII the branch
    raises [UnicodeDecodeError], having yielded the entries before it, and
    [pageprops] returns no map for a page with such a group. *)
Theorem nested_group_entries (fromstring : string -> result Element) :
  (forall d, Forall (fun kv => ~ undecodable kv) d ->
     dict_branch d = Gen (map entry_pair d) (Return tt)) /\
  (forall pre kv post,
     Forall (fun kv => ~ undecodable kv) pre -> undecodable kv ->
     dict_branch (pre ++ kv :: post) = Gen (map entry_pair pre) (Raise UnicodeDecodeError)) /\
  (forall idx page t pre kv post,
     In t (tags page) -> name t <> "XMP" -> value t = VDict (pre ++ kv :: post) ->
     Forall (fun kv => ~ undecodable kv) pre -> undecodable kv ->
     raises (pageprops fromstring idx page)).
Proof.
  assert (Hbad : forall pre kv post,
     Forall (fun kv => ~ undecodable kv) pre -> undecodable kv ->
     dict_branch (pre ++ kv :: post) = Gen (map entry_pair pre) (Raise UnicodeDecodeError)).
  { induction pre as [|kv0 pre IH]; intros kv post Hpre (b & Hb & Hascii).
    - cbn [app map]. rewrite dict_branch_cons, Hb, eval_bind, decode_ascii_spec, Hascii.
      reflexivity.
    - apply Forall_cons in Hpre as [H0 Hpre]. cbn [app map].
      rewrite dict_branch_cons, (proj1 (entry_yields kv0 H0)).
      rewrite (IH kv post Hpre) by (exists b; auto).
      unfold entry_pair, yield. destruct kv0 as [k v]. cbn [fst snd].
      destruct v; reflexivity. }
  split; [exact dict_branch_decodable | split; [exact Hbad|]].
  intros idx page t pre kv post Hin Hn Hv Hpre Hkv.
  apply (pageprops_raises fromstring idx page t UnicodeDecodeError Hin).
  unfold tag_branch. apply String.eqb_neq in Hn. rewrite Hn, Hv, (Hbad _ _ _ Hpre Hkv).
  reflexivity.
Qed.

Lemma nested_group_entries_witness :
  tag_branch no_xml (mkTiffTag "ExifTag" (VDict [("ExifVersion", bytes "0210");
                                                 ("MakerNote", VBytes [Byte.xff])]))
    = Gen [("ExifVersion", VStr "0210")] (Raise UnicodeDecodeError) /\
  raises (pageprops no_xml 0 page_bad_bytes).
Proof.
  assert (Hpre : Forall (fun kv => ~ undecodable kv) [("ExifVersion", bytes "0210")]).
  { constructor; [|constructor]. intros (b & Hb & Hascii). injection Hb as <-.
    vm_compute in Hascii. discriminate. }
  assert (Hkv : undecodable ("MakerNote", VBytes [Byte.xff]))
    by (eexists; split; reflexivity).
  destruct (nested_group_entries no_xml) as (_ & Hbad & Hpage). split.
  - exact (Hbad [("ExifVersion", bytes "0210")] ("MakerNote", VBytes [Byte.xff]) [] Hpre Hkv).
  - apply (Hpage 0 page_bad_bytes
             (mkTiffTag "ExifTag" (VDict [("ExifVersion", bytes "0210");
                                          ("MakerNote", VBytes [Byte.xff])]))
             [("ExifVersion", bytes "0210")] ("MakerNote", VBytes [Byte.xff]) []);
      [right; right; left; reflexivity | discriminate | reflexivity | exact Hpre | exact Hkv].
Defined.

(** ** The matcher on text it accepts *)

Lemma strip_prefix_app p s : strip_prefix p (p ++ s)%string = Some s.
Proof.
  induction p as [|a p IH]; [reflexivity|].
  change (strip_prefix (String a p) (String a (p ++ s)) = Some s).
  cbn [strip_prefix]. rewrite Ascii.eqb_refl. exact IH.
Qed.

Lemma run_lit {A} l s g (k : string -> groups -> option A) :
  run (Lit l) (l ++ s)%string g k = k s g.
Proof. cbn [run]. rewrite strip_prefix_app. reflexivity. Qed.

Lemma all_in_inv p c w : all_in p (String c w) -> p c = true /\ all_in p w.
Proof. unfold all_in. cbn [list_ascii_of_string forallb]. apply andb_true_iff. Qed.

(** A greedy repetition that can take all of [w] and no more hands the
    rest to its continuation, and succeeds if the continuation does. *)
Lemma star_max {A} p (k : string -> option A) w rest r :
  all_in p w -> stops p rest -> k rest = Some r ->
  star p k (w ++ rest)%string = Some r.
Proof.
  intros Hw Hstop Hk. induction w as [|c w IH].
  - change (star p k rest = Some r). destruct rest as [|c rest]; [exact Hk|].
    change (p c = false) in Hstop.
    change ((if p c then match star p k rest with Some x => Some x | None => k (String c rest) end
             else k (String c rest)) = Some r).
    rewrite Hstop. exact Hk.
  - apply all_in_inv in Hw as [Hc Hw].
    change ((if p c then match star p k (w ++ rest) with Some x => Some x
                                  | None => k (String c (w ++ rest)) end
             else k (String c (w ++ rest))) = Some r).
    rewrite Hc, (IH Hw). reflexivity.
Qed.

Lemma run_star_max {A} p w rest g (k : string -> groups -> option A) r :
  all_in p w -> stops p rest -> k rest g = Some r ->
  run (Star p) (w ++ rest)%string g k = Some r.
Proof. intros. cbn [run]. apply star_max; assumption. Qed.

Lemma run_plus_max {A} p w rest g (k : string -> groups -> option A) r :
  w <> EmptyString -> all_in p w -> stops p rest -> k rest g = Some r ->
  run (Plus p) (w ++ rest)%string g k = Some r.
Proof.
  intros Hne Hw Hstop Hk. destruct w as [|c w]; [congruence|].
  apply all_in_inv in Hw as [Hc Hw].
  change (run (Plus p) (String c (w ++ rest)) g k = Some r). cbn [run].
  rewrite Hc. apply star_max; assumption.
Qed.

Lemma consumed_all s : consumed s EmptyString = s.
Proof.
  rewrite <- (append_nil_r s) at 1. apply consumed_prefix.
Qed.

(** *** Element tags *)

Lemma tagname_complete ns local :
  ns <> EmptyString -> all_in (none_of "}") ns -> is_word local = true ->
  fullmatch _tagname_re ("{" ++ ns ++ "}" ++ local) = Some [("name", local)].
Proof.
  intros Hns Hnsc Hw. unfold is_word in Hw. apply andb_true_iff in Hw as [Hne Hw].
  apply negb_true_iff, String.eqb_neq in Hne.
  unfold fullmatch, _tagname_re. cbn [run].
  rewrite strip_prefix_app.
  change (run (Plus (none_of "}")) (ns ++ "}" ++ local) []
            (fun s' g' => run (Lit "}") s' g'
               (fun s'' g'' => run (Group "name" (Plus word)) s'' g''
                  (fun rest g => if String.eqb rest "" then Some g else None)))
          = Some [("name", local)]).
  apply run_plus_max; [assumption | assumption | reflexivity |].
  rewrite run_lit. cbn [run].
  rewrite <- (append_nil_r local) at 1.
  change (run (Plus word) (local ++ "") []
            (fun s' g' => if String.eqb s' "" then Some (("name", consumed local s') :: g')
                          else None) = Some [("name", local)]).
  apply run_plus_max; [assumption | assumption | exact I |].
  cbn. rewrite consumed_all. reflexivity.
Qed.

(** A text is split at its first closing brace in one way only. *)
Lemma split_at_brace a a' b b' :
  all_in (none_of "}") a -> all_in (none_of "}") a' ->
  (a ++ "}" ++ b = a' ++ "}" ++ b')%string -> a = a' /\ b = b'.
Proof.
  revert a'. induction a as [|c a IH]; intros [|c' a'] Ha Ha' E.
  - change (String "}" b = String "}" b') in E. injection E as ->. auto.
  - change (String "}" b = String c' (a' ++ "}" ++ b')) in E.
    injection E as <- _. apply all_in_inv in Ha' as [Hc _]. discriminate.
  - change (String c (a ++ "}" ++ b) = String "}" b') in E.
    injection E as -> _. apply all_in_inv in Ha as [Hc _]. discriminate.
  - change (String c (a ++ "}" ++ b) = String c' (a' ++ "}" ++ b')) in E.
    injection E as <- E. apply all_in_inv in Ha as [_ Ha].
    apply all_in_inv in Ha' as [_ Ha'].
    destruct (IH _ Ha Ha' E) as [-> ->]. auto.
Qed.

Lemma tagname_sound tag m :
  fullmatch _tagname_re tag = Some m ->
  exists ns local,
    tag = ("{" ++ ns ++ "}" ++ local)%string /\ ns <> EmptyString /\
    all_in (none_of "}") ns /\ is_word local = true /\ m = [("name", local)].
Proof.
  intros H. apply fullmatch_sound in H. unfold _tagname_re in H.
  apply matches_cat_inv in H as (u1 & g3 & local & -> & H & Hname).
  apply matches_cat_inv in H as (u2 & g2 & w2 & -> & H & H2).
  apply matches_cat_inv in H as (w0 & g0 & ns & -> & H0 & Hns).
  apply matches_lit_inv in H0 as [-> ->].
  inversion Hns as [| | |p w g Hne Hall| | | | |]; subst.
  apply matches_lit_inv in H2 as [-> ->].
  inversion Hname as [| | | | | | |n r g0 w0 g1 Hw|]; subst.
  inversion Hw as [| | |p w g Hne' Hall'| | | | |]; subst.
  exists ns, local. rewrite !append_assoc. repeat split; try assumption.
  unfold is_word. apply andb_true_iff. split; [|exact Hall'].
  apply negb_true_iff, String.eqb_neq. assumption.
Qed.

Lemma tagname_not_word ns local :
  all_in (none_of "}") ns -> is_word local = false ->
  fullmatch _tagname_re ("{" ++ ns ++ "}" ++ local) = None.
Proof.
  intros Hnsc Hw. destruct (fullmatch _ _) as [m|] eqn:E; [|reflexivity].
  apply tagname_sound in E as (ns' & local' & E & _ & Hnsc' & Hw' & _).
  injection E as E. apply split_at_brace in E as [_ ->]; [congruence | assumption..].
Qed.

(** X10. [_tagname_re] takes the name space off an element tag: a tag
    '{ns}local' (the name space not empty and without a closing brace)
    matches exactly when the local name is a non-empty text of word
    characters, and the name captured is then the local name. *)
Theorem tagname_is_local_name ns local :
  ns <> EmptyString -> all_in (none_of "}") ns ->
  fullmatch _tagname_re ("{" ++ ns ++ "}" ++ local)
    = if is_word local then Some [("name", local)] else None.
Proof.
  intros Hns Hnsc. destruct (is_word local) eqn:Hw.
  - apply tagname_complete; assumption.
  - apply tagname_not_word; assumption.
Qed.

Lemma tagname_is_local_name_witness :
  fullmatch _tagname_re "{http://www.dji.com/FLIR/1.0/}TlinearGain"
    = Some [("name", "TlinearGain")].
Proof.
  exact (tagname_is_local_name ns_flir "TlinearGain" ltac:(discriminate) eq_refl).
Defined.

(** ** The XMP fields *)

Lemma after_brace_tag ns local :
  all_in (none_of "}") ns -> after_brace ("{" ++ ns ++ "}" ++ local) = local.
Proof.
  intros H. change (after_brace (ns ++ "}" ++ local) = local).
  induction ns as [|c ns IH]; [reflexivity|].
  apply all_in_inv in H as [Hc H].
  change ((if Ascii.eqb c "}" then (ns ++ "}" ++ local)%string
           else after_brace (ns ++ "}" ++ local)) = local).
  unfold none_of, one_of in Hc. cbn [list_ascii_of_string existsb] in Hc.
  rewrite orb_false_r in Hc. apply negb_true_iff in Hc. rewrite Hc. exact (IH H).
Qed.

Lemma findall_ns_tag ns x e :
  In e (findall_ns ns x) ->
  exists local, Element_tag e = ("{" ++ ns ++ "}" ++ local)%string.
Proof.
  unfold findall_ns. intros H. apply List.filter_In in H as [_ H].
  destruct (strip_prefix _ _) as [local|] eqn:E; [|discriminate].
  apply strip_prefix_Some in E. exists local. rewrite E, !append_assoc. reflexivity.
Qed.

Lemma xmp_elements_tag x e :
  In e (xmp_elements x) ->
  exists ns local, Element_tag e = ("{" ++ ns ++ "}" ++ local)%string /\
                   ns <> EmptyString /\ all_in (none_of "}") ns.
Proof.
  unfold xmp_elements. intros H. apply in_app_or in H as [H|H];
    apply findall_ns_tag in H as [local H]; eexists _, local;
    (split; [exact H | split; [discriminate | reflexivity]]).
Qed.

(** The body of the loop over the elements. *)
Lemma xmp_body x e :
  In e (xmp_elements x) ->
  match fullmatch _tagname_re (Element_tag e) with
  | None => eval (Raise (RuntimeError "Failed to parse tag name" [VStr (Element_tag e)]))
  | Some m => yield (group_text m "name") (VStr (strip (join " " (itertext e))))
  end
  = if well_named e then Gen [xmp_entry e] (Return tt)
    else Gen [] (Raise (RuntimeError "Failed to parse tag name" [VStr (Element_tag e)])).
Proof.
  intros H. apply xmp_elements_tag in H as (ns & local & E & Hns & Hc).
  unfold well_named, xmp_entry. rewrite E, (after_brace_tag ns local Hc).
  destruct (is_word local) eqn:Hw.
  - rewrite (tagname_complete ns local Hns Hc Hw). reflexivity.
  - rewrite (tagname_not_word ns local Hc Hw). reflexivity.
Qed.

Lemma for_each_ext {A} (l : list A) (f g : A -> gen unit) :
  (forall x, In x l -> f x = g x) -> for_each l f = for_each l g.
Proof.
  induction l as [|x l IH]; intros H; [reflexivity|]. cbn [for_each].
  rewrite (H x (or_introl eq_refl)), IH; [reflexivity|].
  intros y Hy. apply H. right. exact Hy.
Qed.

Lemma for_each_entries (l : list Element) (err : Element -> exn) :
  let body e := if well_named e then Gen [xmp_entry e] (Return tt)
                else Gen [] (Raise (err e)) in
  (forallb well_named l = true -> for_each l body = Gen (map xmp_entry l) (Return tt)) /\
  (forall good e rest, l = good ++ e :: rest ->
     forallb well_named good = true -> well_named e = false ->
     for_each l body = Gen (map xmp_entry good) (Raise (err e))).
Proof.
  cbv zeta. split.
  - induction l as [|e l IH]; [reflexivity|]. cbn [forallb for_each map].
    intros H. apply andb_true_iff in H as [He Hl]. rewrite (IH Hl), He. reflexivity.
  - intros good e rest -> Hgood He. induction good as [|a good IH].
    + cbn [app for_each map]. rewrite He. reflexivity.
    + cbn [forallb] in Hgood. apply andb_true_iff in Hgood as [Ha Hgood].
      cbn [app for_each map]. rewrite (IH Hgood), Ha. reflexivity.
Qed.

(** X11. With the packet parsed, the XMP branch visits the elements of
    the DJI name space in document order and then those of the FLIR name
    space.  If every local name is a word, it yields for each element, in
    that order, its local name with its text, joined by spaces and without
    the white space at its ends; otherwise it yields
    the pairs of the elements before the first other one and raises
    'Failed to parse tag name' with that element's tag. *)
Theorem xmp_fields_in_order (fromstring : string -> result Element) tag text m x :
  decode (value tag) = Return text ->
  fullmatch _xmp_re text = Some m ->
  fromstring (group_text m "content") = Return x ->
  (forallb well_named (xmp_elements x) = true ->
   xmp_branch fromstring tag = Gen (map xmp_entry (xmp_elements x)) (Return tt)) /\
  (forall good e rest,
     xmp_elements x = good ++ e :: rest ->
     forallb well_named good = true -> well_named e = false ->
     xmp_branch fromstring tag
       = Gen (map xmp_entry good)
             (Raise (RuntimeError "Failed to parse tag name" [VStr (Element_tag e)]))).
Proof.
  intros Hdec Hm Hx.
  assert (E : xmp_branch fromstring tag
              = for_each (xmp_elements x) (fun e =>
                  if well_named e then Gen [xmp_entry e] (Return tt)
                  else Gen [] (Raise (RuntimeError "Failed to parse tag name"
                                        [VStr (Element_tag e)])))).
  { unfold xmp_branch. rewrite eval_bind, Hdec, Hm, eval_bind, Hx.
    apply for_each_ext. intros e He. apply (xmp_body x e He). }
  rewrite E.
  exact (for_each_entries (xmp_elements x)
           (fun e => RuntimeError "Failed to parse tag name" [VStr (Element_tag e)])).
Qed.

Lemma xmp_fields_in_order_witness :
  xmp_branch parse_sample (mkTiffTag "XMP" (bytes (xpacket xpacket_id sample_content)))
    = Gen [("GimbalRollDegree", VStr "+0.00"); ("TlinearGain", VStr "0.04")] (Return tt).
Proof.
  assert (Hd : decode (value (mkTiffTag "XMP" (bytes (xpacket xpacket_id sample_content))))
               = Return (xpacket xpacket_id sample_content))
    by (vm_compute; reflexivity).
  assert (Hm : fullmatch _xmp_re (xpacket xpacket_id sample_content)
               = Some [("content", sample_content); ("q", "'")])
    by (vm_compute; reflexivity).
  assert (Hx : parse_sample (group_text [("content", sample_content); ("q", "'")] "content")
               = Return sample_tree) by (vm_compute; reflexivity).
  exact (proj1 (xmp_fields_in_order parse_sample _ _ _ _ Hd Hm Hx) eq_refl).
Defined.

Lemma for_each_yielded_In {A} (l : list A) (body : A -> gen unit) p :
  In p (yielded (for_each l body)) -> exists x, In x l /\ In p (yielded (body x)).
Proof.
  induction l as [|x l IH]; cbn [for_each]; [intros []|].
  unfold mbind, gen_mbind, gen_bind. intros H.
  destruct (outcome (body x)) as [[]|e]; cbn [yielded] in H.
  - apply in_app_or in H as [H|H].
    + exists x. split; [left; reflexivity | exact H].
    + destruct (IH H) as (y & Hy & Hp). exists y. split; [right; exact Hy | exact Hp].
  - exists x. split; [left; reflexivity | exact H].
Qed.

Lemma lstrip_starts s : starts_with_space (lstrip s) = false.
Proof.
  induction s as [|c s IH]; [reflexivity|]. cbn [lstrip].
  destruct (isspace c) eqn:E; [exact IH|]. cbn [starts_with_space]. exact E.
Qed.

Lemma rstrip_starts s : starts_with_space s = false -> starts_with_space (rstrip s) = false.
Proof.
  destruct s as [|c s]; [reflexivity|]. cbn [starts_with_space rstrip]. intros H.
  destruct (rstrip s); [rewrite H|]; assumption.
Qed.

Lemma rstrip_ends s : ends_with_space (rstrip s) = false.
Proof.
  induction s as [|c s IH]; [reflexivity|]. cbn [rstrip].
  destruct (rstrip s) as [|d t].
  - destruct (isspace c) eqn:E; [reflexivity | exact E].
  - exact IH.
Qed.

(** X12. Whatever the XMP tag holds, every pair its branch yields has a
    non-empty word as its key and a text as its value, and the text
    neither starts nor ends with white space, the no-break space and the
    next line control included. *)
Theorem xmp_fields_trimmed (fromstring : string -> result Element) tag k v :
  In (k, v) (yielded (xmp_branch fromstring tag)) ->
  is_word k = true /\
  exists s, v = VStr s /\ starts_with_space s = false /\ ends_with_space s = false.
Proof.
  unfold xmp_branch. rewrite eval_bind.
  destruct (decode (value tag)) as [text|]; [|intros []].
  destruct (fullmatch _xmp_re text) as [m|]; [|intros []].
  rewrite eval_bind. destruct (fromstring _) as [x|]; [|intros []].
  intros H. apply for_each_yielded_In in H as (e & _ & H).
  destruct (fullmatch _tagname_re (Element_tag e)) as [m'|] eqn:E; [|destruct H].
  apply tagname_sound in E as (ns & local & _ & _ & _ & Hw & ->).
  destruct H as [[= <- <-]|[]]. split; [exact Hw|].
  eexists. split; [reflexivity|]. unfold strip. split.
  - apply rstrip_starts, lstrip_starts.
  - apply rstrip_ends.
Qed.

Lemma xmp_fields_trimmed_witness :
  is_word "GimbalRollDegree" = true /\
  exists s, VStr "+0.00" = VStr s /\ starts_with_space s = false /\ ends_with_space s = false.
Proof.
  apply (xmp_fields_trimmed parse_sample
           (mkTiffTag "XMP" (bytes (xpacket xpacket_id sample_content)))).
  vm_compute. left. reflexivity.
Defined.

(** ** The packet pattern on packets *)

Lemma run_cat {A} r1 r2 s g (k : string -> groups -> option A) :
  run (Cat r1 r2) s g k = run r1 s g (fun s' g' => run r2 s' g' k).
Proof. reflexivity. Qed.

Lemma all_in_app p a b : all_in p a -> all_in p b -> all_in p (a ++ b)%string.
Proof.
  intros Ha Hb. induction a as [|c a IH]; [exact Hb|].
  apply all_in_inv in Ha as [Hc Ha].
  change (all_in p (String c (a ++ b))). apply all_in_cons; auto.
Qed.

Lemma all_in_suffix p a t : all_in p (a ++ t)%string -> all_in p t.
Proof.
  induction a as [|c a IH]; [auto|].
  change (all_in p (String c (a ++ t)) -> all_in p t).
  intros H. apply all_in_inv in H as [_ H]. auto.
Qed.

Lemma all_in_impl (p q : charset) w :
  (forall c, p c = true -> q c = true) -> all_in p w -> all_in q w.
Proof.
  intros Hpq. induction w as [|c w IH]; [auto|].
  intros H. apply all_in_inv in H as [Hc H]. apply all_in_cons; auto.
Qed.

Lemma none_of_lt c (p : charset) : p "<"%char = false -> p c = true -> none_of "<" c = true.
Proof.
  intros Hlt Hc. unfold none_of, one_of. cbn [list_ascii_of_string existsb].
  destruct (Ascii.eqb_spec c "<") as [->|]; [congruence | reflexivity].
Qed.

(** Where the continuation fails on every suffix of [u], the repetition
    of any character fails on [u]. *)
Lemma star_any_none {A} (k : string -> option A) u :
  (forall a t, u = (a ++ t)%string -> k t = None) -> star any k u = None.
Proof.
  induction u as [|d u IH]; intros H.
  - exact (H EmptyString EmptyString eq_refl).
  - change (match star any k u with Some x => Some x | None => k (String d u) end = None).
    rewrite IH.
    + exact (H EmptyString (String d u) eq_refl).
    + intros a t ->. exact (H (String d a) t eq_refl).
Qed.

(** The repetition of any character gives back as little as it can:
    it stops at the last place from which the continuation succeeds. *)
Lemma star_any_last {A} (k : string -> option A) w c u r :
  (forall a t, u = (a ++ t)%string -> k t = None) ->
  k (String c u) = Some r ->
  star any k (w ++ String c u)%string = Some r.
Proof.
  intros Hu Hk. induction w as [|x w IH].
  - change (match star any k u with Some y => Some y | None => k (String c u) end = Some r).
    rewrite (star_any_none k u Hu). exact Hk.
  - change (match star any k (w ++ String c u) with
            | Some y => Some y | None => k (String x (w ++ String c u)) end = Some r).
    rewrite IH. reflexivity.
Qed.

Lemma run_content {A} content rest g (K : string -> groups -> option A) r :
  all_in (none_of "<") rest ->
  K rest (("content", content) :: g) = Some r ->
  run (Group "content" (Star any)) (content ++ "<?xpacket" ++ rest) g
      (fun s' g' => run (Lit "<?xpacket") s' g' K) = Some r.
Proof.
  intros Hrest HK.
  change (star any
            (fun s' => run (Lit "<?xpacket") s'
                         (("content",
                           consumed (content ++ "<?xpacket" ++ rest) s') :: g) K)
            (content ++ String "<" ("?xpacket" ++ rest)) = Some r).
  apply star_any_last.
  - intros a t E.
    assert (Ht : all_in (none_of "<") t).
    { apply (all_in_suffix _ a). rewrite <- E.
      apply (all_in_app _ "?xpacket" rest); [reflexivity | exact Hrest]. }
    destruct t as [|d t]; [reflexivity|].
    apply all_in_inv in Ht as [Hd _]. unfold none_of, one_of in Hd.
    cbn [list_ascii_of_string existsb] in Hd. rewrite orb_false_r in Hd.
    apply negb_true_iff in Hd. rewrite Ascii.eqb_sym in Hd.
    cbn [run strip_prefix]. rewrite Hd. reflexivity.
  - change (run (Lit "<?xpacket") ("<?xpacket" ++ rest)
              (("content", consumed (content ++ "<?xpacket" ++ rest)
                                    ("<?xpacket" ++ rest)) :: g) K = Some r).
    rewrite run_lit, consumed_prefix. exact HK.
Qed.

Lemma run_attribute {A} s rest g (k : string -> groups -> option A) r :
  attribute s -> k rest g = Some r ->
  run (Lit "'" · Star (none_of "'>") · Lit "'"
       ∣ Lit dq · Star (none_of (dq ++ ">")) · Lit dq)%re (s ++ rest) g k = Some r.
Proof.
  intros [v [[-> Hv]|[-> Hv]]] Hk; rewrite !append_assoc.
  - assert (E : run (Lit "'" · Star (none_of "'>") · Lit "'")%re
                  ("'" ++ v ++ "'" ++ rest) g k = Some r).
    { rewrite !run_cat, run_lit.
      apply run_star_max; [exact Hv | reflexivity |].
      rewrite run_lit. exact Hk. }
    change (match run (Lit "'" · Star (none_of "'>") · Lit "'")%re
                      ("'" ++ v ++ "'" ++ rest) g k with
            | Some x => Some x
            | None => run (Lit dq · Star (none_of (dq ++ ">")) · Lit dq)%re
                          ("'" ++ v ++ "'" ++ rest) g k
            end = Some r).
    rewrite E. reflexivity.
  - change (match run (Lit "'" · Star (none_of "'>") · Lit "'")%re
                      (String (ascii_of_nat 34) (v ++ dq ++ rest)) g k with
            | Some x => Some x
            | None => run (Lit dq · Star (none_of (dq ++ ">")) · Lit dq)%re
                          (dq ++ v ++ dq ++ rest) g k
            end = Some r).
    rewrite !run_cat.
    change (run (Lit "'") (String (ascii_of_nat 34) (v ++ dq ++ rest)) g
              (fun s' g' => run (Star (none_of "'>")) s' g'
                 (fun s'' g'' => run (Lit "'") s'' g'' k)))
      with (@None A).
    rewrite run_lit. apply run_star_max; [exact Hv | reflexivity |].
    rewrite run_lit. exact Hk.
Qed.

Lemma run_quote {A} q rest g (k : string -> groups -> option A) r :
  q = dq \/ q = "'" -> k rest (("q", q) :: g) = Some r ->
  run (Group "q" (Set1 (one_of (dq ++ "'")))) (q ++ rest) g k = Some r.
Proof.
  intros Hq Hk.
  assert (E : run (Group "q" (Set1 (one_of (dq ++ "'")))) (q ++ rest) g k
              = k rest (("q", consumed (q ++ rest) rest) :: g))
    by (destruct Hq as [-> | ->]; reflexivity).
  rewrite E, consumed_prefix. exact Hk.
Qed.

Lemma run_backref_q {A} q rest g (k : string -> groups -> option A) :
  run (Backref "q") (q ++ rest) (("q", q) :: g) k = k rest (("q", q) :: g).
Proof.
  change (match strip_prefix q (q ++ rest) with
          | Some s' => k s' (("q", q) :: g) | None => None end
          = k rest (("q", q) :: g)).
  rewrite strip_prefix_app. reflexivity.
Qed.

Lemma space_not_lt w : all_in space w -> all_in (none_of "<") w.
Proof. apply all_in_impl. intros c. apply none_of_lt. reflexivity. Qed.

Lemma padding_not_lt w : all_in (union space nul) w -> all_in (none_of "<") w.
Proof. apply all_in_impl. intros c. apply none_of_lt. reflexivity. Qed.

(** X13. [_xmp_re] accepts every XMP packet, whatever the content, and
    captures the content whole: all the text between the header and the
    last trailer, also when the content itself holds text that looks like
    a trailer. *)
Theorem xmp_packet_content text content :
  packet text content ->
  exists m, fullmatch _xmp_re text = Some m /\ group_text m "content" = content.
Proof.
  intros (lead & sp1 & b & sp2 & q & sp3 & e & pad & -> & Hlead & [Hn1 H1] & Hb
          & [Hn2 H2] & Hq & [Hn3 H3] & [He Hlt] & Hpad).
  exists [("content", content); ("q", q)]. split; [|reflexivity].
  unfold fullmatch, _xmp_re. rewrite !run_cat.
  apply run_star_max; [exact Hlead | reflexivity |]. rewrite run_lit.
  apply run_plus_max; [exact Hn1 | exact H1 | reflexivity |]. rewrite run_lit.
  apply run_attribute; [exact Hb|].
  apply run_plus_max; [exact Hn2 | exact H2 | reflexivity |]. rewrite run_lit.
  apply run_quote; [exact Hq|].
  unfold xpacket_id. rewrite run_lit, run_backref_q, run_lit.
  apply run_content.
  { apply all_in_app; [exact (space_not_lt _ H3)|].
    apply (all_in_app _ "end="); [reflexivity|].
    apply all_in_app; [exact Hlt|].
    apply (all_in_app _ "?>"); [reflexivity | exact (padding_not_lt _ Hpad)]. }
  apply run_plus_max; [exact Hn3 | exact H3 | reflexivity |]. rewrite run_lit.
  apply run_attribute; [exact He|]. rewrite run_lit.
  rewrite <- (append_nil_r pad).
  apply run_star_max; [exact Hpad | exact I |]. reflexivity.
Qed.

Lemma xmp_packet_content_witness :
  exists m,
    fullmatch _xmp_re (xpacket xpacket_id "<x/><?xpacket end='r'?>") = Some m /\
    group_text m "content" = "<x/><?xpacket end='r'?>".
Proof.
  apply xmp_packet_content.
  exists "", " ", "''", " ", "'", " ", "'w'", nl.
  split; [reflexivity|]. split; [reflexivity|].
  split; [split; [discriminate | reflexivity]|].
  split; [exists ""; left; split; reflexivity|].
  split; [split; [discriminate | reflexivity]|].
  split; [right; reflexivity|].
  split; [split; [discriminate | reflexivity]|].
  split; [split; [exists "w"; left; split; reflexivity | reflexivity]|].
  reflexivity.
Defined.

(** ** The example script *)

Section PlotFacts.

Variable ndarray : Type.
Variable TiffFile : string -> result (list TiffPage).
Variable asarray : TiffPage -> result ndarray.
Variable fromstring : string -> result Element.
Variable maxsize : Z.
Variable islice_message : Z -> Z -> string.

Lemma all_given_cons p pages :
  all_given asarray fromstring (p :: pages) ->
  (exists x, page_item asarray fromstring 0 p = Return x) /\
  all_given asarray fromstring pages.
Proof.
  intros H. split; [exact (H 0%nat p eq_refl)|].
  intros i q Hq. destruct (H (S i) q Hq) as [x Hx]. exists x. exact Hx.
Qed.

(** Past pages that give their items, the stream goes on with the rest. *)
Lemma nth_each_page before : forall idx rest next n,
  all_given asarray fromstring before -> 0 <= n ->
  nth_item (Z.of_nat (length before) + n)
           (each_page asarray fromstring idx (before ++ rest) next)
    = nth_item n (each_page asarray fromstring (idx + Z.of_nat (length before)) rest next).
Proof.
  induction before as [|p before IH]; intros idx rest next n H Hn.
  - cbn [length app]. rewrite Z.add_0_r. reflexivity.
  - apply all_given_cons in H as [[x Hx] H].
    cbn [length app each_page].
    change (page_item asarray fromstring idx p) with (page_item asarray fromstring 0 p).
    rewrite Hx. cbn [nth_item].
    destruct (Z.leb_spec (Z.of_nat (S (length before)) + n) 0); [lia|].
    replace (Z.of_nat (S (length before)) + n - 1) with (Z.of_nat (length before) + n)
      by lia.
    rewrite (IH (idx + 1) rest next n H Hn). f_equal. f_equal. lia.
Qed.

Lemma iter_nth_below {A} (s : stream A) (n : Z) :
  0 <= n < maxsize ->
  iter_nth maxsize islice_message s n = nth_item n s.
Proof.
  intros Hn. unfold iter_nth.
  destruct (Z.ltb_spec n 0), (Z.ltb_spec maxsize (n + 1)); try lia. reflexivity.
Qed.

(** X14. [iter_nth] on [allimgs] is lazy: if the pages of the first file
    before index [n] give their items, the result is the item of page
    [n], or the exception raised for that page, whatever the later pages
    and the later files are: those are neither decoded nor opened.  The
    index is the number of the pages before, which is below
    [sys.maxsize]. *)
Theorem iter_nth_allimgs_lazy fn files before page after :
  TiffFile fn = Return (before ++ page :: after) ->
  all_given asarray fromstring before ->
  Z.of_nat (length before) < maxsize ->
  iter_nth maxsize islice_message (allimgs TiffFile asarray fromstring (fn :: files))
           (Z.of_nat (length before))
    = match page_item asarray fromstring (Z.of_nat (length before)) page with
      | Return x => Got x
      | Raise e => Raised e
      end.
Proof.
  intros Hfn Hbefore Hmax. rewrite iter_nth_below by lia.
  cbn [allimgs]. rewrite Hfn.
  rewrite <- (Z.add_0_r (Z.of_nat (length before))) at 1.
  rewrite (nth_each_page before 0 (page :: after) _ 0 Hbefore) by lia.
  cbn [each_page].
  change (page_item asarray fromstring (0 + Z.of_nat (length before)) page)
    with (page_item asarray fromstring (Z.of_nat (length before)) page).
  destruct (page_item asarray fromstring _ page); reflexivity.
Qed.

(** X15. [allimgs] normalises every page on the way to the one asked
    for: if a page of the first file raises and the pages before it give
    their items, every index from that page's on and below [sys.maxsize]
    gets that exception, also when the page asked for is well formed; and
    no such index can be fetched when the first file cannot be read.  An
    index that is negative, or [sys.maxsize] or more, is refused by
    [islice] with a [ValueError], whatever the files are. *)
Theorem earlier_page_fails fn files :
  (forall before bad after e n,
     TiffFile fn = Return (before ++ bad :: after) ->
     all_given asarray fromstring before ->
     page_item asarray fromstring (Z.of_nat (length before)) bad = Raise e ->
     Z.of_nat (length before) <= n < maxsize ->
     iter_nth maxsize islice_message (allimgs TiffFile asarray fromstring (fn :: files)) n
       = Raised e) /\
  (forall e n, TiffFile fn = Raise e -> 0 <= n < maxsize ->
     iter_nth maxsize islice_message (allimgs TiffFile asarray fromstring (fn :: files)) n
       = Raised e) /\
  (forall n, n < 0 \/ maxsize <= n ->
     iter_nth maxsize islice_message (allimgs TiffFile asarray fromstring (fn :: files)) n
       = Raised (ValueError (islice_message n (n + 1)))).
Proof.
  split; [|split].
  - intros before bad after e n Hfn Hbefore Hbad Hn.
    rewrite iter_nth_below by lia. cbn [allimgs]. rewrite Hfn.
    replace n with (Z.of_nat (length before) + (n - Z.of_nat (length before))) by lia.
    rewrite (nth_each_page before 0 (bad :: after) _ _ Hbefore) by lia.
    cbn [each_page].
    change (page_item asarray fromstring (0 + Z.of_nat (length before)) bad)
      with (page_item asarray fromstring (Z.of_nat (length before)) bad).
    rewrite Hbad. reflexivity.
  - intros e n Hfn Hn.
    rewrite iter_nth_below by lia. cbn [allimgs]. rewrite Hfn. reflexivity.
  - intros n Hn. unfold iter_nth.
    destruct (Z.ltb_spec n 0), (Z.ltb_spec maxsize (n + 1)); try lia; reflexivity.
Qed.

(** X16. The index given to [iter_nth] counts the pages of all files in
    turn: past a file whose pages all give their items, it goes on in the
    next file; past the last page of the last file there is nothing to
    fetch and [StopIteration] is raised.  This is so for an index below
    [sys.maxsize]. *)
Theorem index_runs_through_files fn files pages n :
  TiffFile fn = Return pages ->
  all_given asarray fromstring pages ->
  0 <= n -> Z.of_nat (length pages) + n < maxsize ->
  iter_nth maxsize islice_message (allimgs TiffFile asarray fromstring (fn :: files))
           (Z.of_nat (length pages) + n)
    = iter_nth maxsize islice_message (allimgs TiffFile asarray fromstring files) n /\
  iter_nth maxsize islice_message (allimgs TiffFile asarray fromstring [fn])
           (Z.of_nat (length pages) + n)
    = StopIteration.
Proof.
  intros Hfn Hpages Hn Hmax.
  assert (E : forall fs,
            iter_nth maxsize islice_message (allimgs TiffFile asarray fromstring (fn :: fs))
                     (Z.of_nat (length pages) + n)
            = iter_nth maxsize islice_message (allimgs TiffFile asarray fromstring fs) n).
  { intros fs.
    rewrite !iter_nth_below by lia. cbn [allimgs]. rewrite Hfn.
    rewrite <- (app_nil_r pages) at 2.
    rewrite (nth_each_page pages 0 [] _ _ Hpages) by lia. reflexivity. }
  split; [apply E|]. rewrite E.
  rewrite iter_nth_below by lia. reflexivity.
Qed.

End PlotFacts.

Lemma iter_nth_allimgs_lazy_witness :
  iter_nth maxsize64 no_message (allimgs two_pages no_pixels no_xml ["b.tif"; "none.tif"]) 0
    = Got (0%nat, [("Make", VStr "DJI"); ("Model", VStr "XT2")]).
Proof.
  assert (Hfn : two_pages "b.tif" = Return ([] ++ mkTiffPage [make_dji; model_xt2] :: []))
    by reflexivity.
  assert (Hb : all_given no_pixels no_xml []) by (intros i p H; discriminate H).
  assert (Hm : Z.of_nat (length (@nil TiffPage)) < maxsize64) by reflexivity.
  exact (iter_nth_allimgs_lazy nat two_pages no_pixels no_xml maxsize64 no_message
           "b.tif" ["none.tif"] [] _ [] Hfn Hb Hm).
Defined.

Lemma earlier_page_fails_witness :
  iter_nth maxsize64 no_message (allimgs two_pages no_pixels no_xml ["a.tif"]) 1
    = Raised (RuntimeError "This is not a DJI XT2, it is a" [VStr "FLIR"; VStr "Vue Pro"]) /\
  iter_nth maxsize64 no_message (allimgs two_pages no_pixels no_xml ["none.tif"]) 0
    = Raised (RuntimeError "not a TIFF file" []).
Proof.
  assert (Hfn : two_pages "a.tif"
                = Return ([] ++ page_other_camera :: [mkTiffPage [make_dji; model_xt2]]))
    by reflexivity.
  assert (Hb : all_given no_pixels no_xml []) by (intros i p H; discriminate H).
  assert (Hbad : page_item no_pixels no_xml (Z.of_nat (length (@nil TiffPage)))
                   page_other_camera
                 = Raise (RuntimeError "This is not a DJI XT2, it is a"
                            [VStr "FLIR"; VStr "Vue Pro"]))
    by (vm_compute; reflexivity).
  assert (Hle : Z.of_nat (length (@nil TiffPage)) <= 1 < maxsize64)
    by (split; [cbn; lia | reflexivity]).
  assert (Hfn' : two_pages "none.tif" = Raise (RuntimeError "not a TIFF file" []))
    by reflexivity.
  assert (H0 : 0 <= 0 < maxsize64) by (split; [lia | reflexivity]).
  split.
  - exact (proj1 (earlier_page_fails nat two_pages no_pixels no_xml maxsize64 no_message "a.tif" [])
             [] _ _ _ 1 Hfn Hb Hbad Hle).
  - exact (proj1 (proj2 (earlier_page_fails nat two_pages no_pixels no_xml maxsize64
                           no_message "none.tif" []))
             _ 0 Hfn' H0).
Defined.

Lemma index_runs_through_files_witness :
  iter_nth maxsize64 no_message (allimgs two_pages no_pixels no_xml ["b.tif"; "b.tif"]) (1 + 0)
    = iter_nth maxsize64 no_message (allimgs two_pages no_pixels no_xml ["b.tif"]) 0 /\
  iter_nth maxsize64 no_message (allimgs two_pages no_pixels no_xml ["b.tif"]) (1 + 0)
    = StopIteration.
Proof.
  assert (Hfn : two_pages "b.tif" = Return [mkTiffPage [make_dji; model_xt2]])
    by reflexivity.
  assert (Hp : all_given no_pixels no_xml [mkTiffPage [make_dji; model_xt2]]).
  { intros [|[|i]] p H; try discriminate H. injection H as <-.
    eexists. vm_compute. reflexivity. }
  assert (H0 : 0 <= 0) by lia.
  assert (Hm : Z.of_nat (length [mkTiffPage [make_dji; model_xt2]]) + 0 < maxsize64)
    by reflexivity.
  exact (index_runs_through_files nat two_pages no_pixels no_xml maxsize64 no_message
           "b.tif" ["b.tif"] _ 0 Hfn Hp H0 Hm).
Defined.

(** ** Serialising what the assembler returned *)

(** Replacing the value of a key, if it is there, touches that pair only. *)
Lemma dict_update_map d k (g : pyval -> pyval) :
  List.NoDup (map fst d) ->
  match dict_get d k with Some v => dict_set d k (g v) | None => d end
    = map (fun kv => if String.eqb (fst kv) k then (fst kv, g (snd kv)) else kv) d.
Proof.
  induction d as [|[k0 v0] d IH]; intros Hnd; [reflexivity|].
  apply List.NoDup_cons_iff in Hnd as [Hk0 Hnd]. specialize (IH Hnd).
  rewrite dict_get_cons. cbn [map fst snd dict_set].
  destruct (String.eqb_spec k0 k) as [->|Hne].
  - f_equal. destruct (dict_get d k) as [v|] eqn:E.
    + exfalso. apply Hk0. apply dict_get_Some_In in E.
      apply (in_map fst) in E. exact E.
    + exact IH.
  - destruct (dict_get d k) as [v|] eqn:E.
    + cbn [dict_set]. destruct (String.eqb_spec k0 k); [congruence|]. f_equal. exact IH.
    + f_equal. exact IH.
Qed.

(** [props2json] as a function of the caller's map. *)
Lemma props2json_run float_repr builtin_str (h : heap) atts d :
  h !! atts = Some d ->
  snd (run_action (props2json float_repr builtin_str atts) h)
    = (d1 ← match dict_get d "DateTimeOriginal" with
            | Some v => s ← isoformat v; Return (dict_set d "DateTimeOriginal" (VStr s))
            | None => Return d
            end;
       json_dumps float_repr
         match dict_get d1 "Coords" with
         | Some v => dict_set d1 "Coords" (VStr (str builtin_str v))
         | None => d1
         end).
Proof.
  intros Hd. unfold props2json.
  rewrite run_bind, (run_copy _ _ _ Hd).
  rewrite run_bind, (run_contains _ _ _ _ (lookup_new h d)).
  unfold dict_in at 1.
  assert (Hrest : forall (h1 : heap) d1, h1 !! length h = Some d1 ->
            snd (run_action
                   (b ← contains (length h) "Coords";
                    _ ← (if b : bool then
                           v ← load (length h) "Coords";
                           store (length h) "Coords" (VStr (str builtin_str v))
                         else mret tt);
                    d ← deref (length h);
                    lift (json_dumps float_repr d)) h1)
            = json_dumps float_repr
                match dict_get d1 "Coords" with
                | Some v => dict_set d1 "Coords" (VStr (str builtin_str v))
                | None => d1
                end).
  { intros h1 d1 H1.
    rewrite run_bind, (run_contains _ _ _ _ H1). unfold dict_in.
    destruct (dict_get d1 "Coords") as [v|] eqn:Ec.
    - rewrite run_bind, run_bind, (run_load _ _ _ _ H1), (getitem_dict _ _ _ Ec).
      rewrite (run_store _ _ _ _ _ H1).
      rewrite run_bind.
      assert (H2 : <[length h := dict_set d1 "Coords" (VStr (str builtin_str v))]> h1
                     !! length h
                   = Some (dict_set d1 "Coords" (VStr (str builtin_str v)))).
      { apply list_lookup_insert_eq. eapply lookup_lt_Some. exact H1. }
      rewrite (run_deref _ _ _ H2). reflexivity.
    - rewrite run_bind. cbn [mret action_mret run_action].
      rewrite run_bind, (run_deref _ _ _ H1). reflexivity. }
  destruct (dict_get d "DateTimeOriginal") as [v|] eqn:Edt.
  - rewrite run_bind, run_bind, (run_load _ _ _ _ (lookup_new h d)).
    rewrite (getitem_dict _ _ _ Edt). rewrite run_bind.
    destruct (isoformat v) as [s|e] eqn:Es; cbn [lift run_action]; [|reflexivity].
    rewrite (run_store _ _ _ _ _ (lookup_new h d)). rewrite bind_Return.
    apply Hrest. apply lookup_stored.
  - rewrite run_bind. cbn [mret action_mret run_action]. rewrite bind_Return.
    apply Hrest. apply lookup_new.
Qed.

(** A map [pageprops] returned has distinct keys, and its timestamp, if it
    has one, is a [datetime]. *)
Lemma pageprops_shape (fromstring : string -> result Element) idx page atts :
  pageprops fromstring idx page = Return atts ->
  List.NoDup (map fst atts) /\
  (forall v, dict_get atts "DateTimeOriginal" = Some v -> exists dt, v = VDateTime dt).
Proof.
  unfold pageprops. intros H. step H as atts0 H0.
  apply consume_returns in H0 as (Hnd & -> & _).
  split.
  - rewrite (proj1 (fixup_datetime_returns _ _ H)). exact Hnd.
  - intros v Hv. unfold fixup_datetime, dict_in in H.
    destruct (dict_get _ "DateTimeOriginal") as [v0|] eqn:E0.
    + step H. step H as dt Hdt. step H as dt' Hdt'. injection H as <-.
      rewrite dict_get_set, String.eqb_refl in Hv. injection Hv as <-. eauto.
    + injection H as <-. congruence.
Qed.

Lemma serialise_returned float_repr builtin_str (fromstring : string -> result Element)
    idx page d (h : heap) atts :
  pageprops fromstring idx page = Return d ->
  h !! atts = Some d ->
  snd (run_action (props2json float_repr builtin_str atts) h)
    = json_dumps float_repr (map (printable builtin_str) d).
Proof.
  intros Hp Hd. apply pageprops_shape in Hp as [Hnd Hdt].
  rewrite (props2json_run _ _ _ _ _ Hd).
  set (iso := fun v => match v with VDateTime dt => VStr (isoformat_ms dt) | _ => v end).
  assert (E1 : match dict_get d "DateTimeOriginal" with
               | Some v => s ← isoformat v; Return (dict_set d "DateTimeOriginal" (VStr s))
               | None => Return d
               end
               = Return (map (fun kv => if String.eqb (fst kv) "DateTimeOriginal"
                                        then (fst kv, iso (snd kv)) else kv) d)).
  { rewrite <- (dict_update_map d "DateTimeOriginal" iso Hnd).
    destruct (dict_get d "DateTimeOriginal") as [v|]; [|reflexivity].
    destruct (Hdt v eq_refl) as [dt ->]. reflexivity. }
  rewrite E1, bind_Return. clear E1.
  set (d1 := map _ d).
  assert (Hnd1 : List.NoDup (map fst d1)).
  { unfold d1. rewrite map_map.
    erewrite map_ext; [exact Hnd|].
    intros [k v]. cbn [fst snd]. destruct (String.eqb k _); reflexivity. }
  rewrite (dict_update_map d1 "Coords" (fun v => VStr (str builtin_str v)) Hnd1).
  unfold d1. rewrite map_map. f_equal. apply map_ext.
  intros [k v]. unfold printable. cbv zeta. cbn [fst snd].
  destruct (String.eqb_spec k "DateTimeOriginal") as [->|Hk]; cbn [fst snd].
  - reflexivity.
  - destruct (String.eqb k "Coords"); reflexivity.
Qed.

(** Encoding fails with [TypeError] only. *)
Lemma json_value_raises float_repr : forall v level e,
  json_value float_repr level v = Raise e -> e = TypeError.
Proof.
  fix IH 1. intros v level e. destruct v; cbn [json_value]; try discriminate.
  - intros [= <-]. reflexivity.
  - (* tuple *)
    match goal with |- (_ ← ?f l; _) = _ -> _ => set (enc := f) end.
    assert (Hl : forall e', enc l = Raise e' -> e' = TypeError).
    { induction l as [|x l IHl]; intros e'; [discriminate|]. cbn [enc].
      destruct (json_value float_repr (S level) x) as [s|e''] eqn:Ex.
      - fold enc. destruct (enc l) as [ss|e3]; [discriminate|].
        intros [= <-]. exact (IHl _ eq_refl).
      - intros [= <-]. exact (IH _ _ _ Ex). }
    destruct (enc l) as [ss|e'] eqn:El; [discriminate|].
    intros [= <-]. exact (Hl _ eq_refl).
  - (* dict *)
    match goal with |- (_ ← ?f d; _) = _ -> _ => set (enc := f) end.
    assert (Hl : forall e', enc d = Raise e' -> e' = TypeError).
    { induction d as [|[k x] d IHd]; intros e'; [discriminate|]. cbn [enc].
      destruct (json_value float_repr (S level) x) as [s|e''] eqn:Ex.
      - fold enc. destruct (enc d) as [ss|e3]; [discriminate|].
        intros [= <-]. exact (IHd _ eq_refl).
      - intros [= <-]. exact (IH _ _ _ Ex). }
    destruct (enc d) as [ss|e'] eqn:El; [discriminate|].
    intros [= <-]. exact (Hl _ eq_refl).
  - intros [= <-]. reflexivity.
Qed.

Lemma json_dumps_bytes float_repr d k b :
  In (k, VBytes b) d -> json_dumps float_repr d = Raise TypeError.
Proof.
  intros Hin. unfold json_dumps. cbn [json_value].
  match goal with |- (_ ← ?f d; _) = _ => set (enc := f) end.
  assert (E : enc d = Raise TypeError).
  { induction d as [|[k' x] d IHd]; [destruct Hin|]. cbn [enc]. fold enc.
    destruct (json_value float_repr 1 x) as [s|e] eqn:Ex.
    - destruct Hin as [[= -> ->]|Hin]; [discriminate Ex|].
      rewrite (IHd Hin). reflexivity.
    - rewrite (json_value_raises _ _ _ _ Ex). reflexivity. }
  rewrite E. reflexivity.
Qed.

(** X17. [props2json] on a map [pageprops] returned writes every key
    where it stands, the timestamp as ISO text with milliseconds, the
    coordinate as its text and the other values as they are; reading the
    timestamp never fails, so that the only exception there can be is the
    [TypeError] of the JSON encoder. *)
Theorem serialise_assembled float_repr builtin_str (fromstring : string -> result Element)
    idx page d (h : heap) atts :
  pageprops fromstring idx page = Return d ->
  h !! atts = Some d ->
  snd (run_action (props2json float_repr builtin_str atts) h)
    = json_dumps float_repr (map (printable builtin_str) d) /\
  map fst (map (printable builtin_str) d) = map fst d /\
  (forall e, snd (run_action (props2json float_repr builtin_str atts) h) = Raise e ->
             e = TypeError).
Proof.
  intros Hp Hd.
  pose proof (serialise_returned float_repr builtin_str _ _ _ _ _ _ Hp Hd) as E.
  split; [exact E|]. split.
  - rewrite map_map. apply map_ext. intros [k v]. unfold printable. cbv zeta.
    cbn [fst snd]. destruct (String.eqb k _); [reflexivity|].
    destruct (String.eqb k _); reflexivity.
  - intros e He. rewrite E in He. exact (json_value_raises _ _ _ _ He).
Qed.

Lemma serialise_assembled_witness :
  snd (run_action (props2json no_repr no_str 0%nat)
         [[("Make", VStr "DJI"); ("Model", VStr "XT2");
           ("DateTimeOriginal", VDateTime (mkdatetime 2022 5 1 12 0 0 500000));
           ("SubsecTimeOriginal", VStr "50")]])
    = json_dumps no_repr
        [("Make", VStr "DJI"); ("Model", VStr "XT2");
         ("DateTimeOriginal", VStr "2022-05-01 12:00:00.500");
         ("SubsecTimeOriginal", VStr "50")].
Proof.
  assert (E : pageprops no_xml 0 (page_taken "2022:05:01 12:00:00" "50")
              = Return [("Make", VStr "DJI"); ("Model", VStr "XT2");
                        ("DateTimeOriginal", VDateTime (mkdatetime 2022 5 1 12 0 0 500000));
                        ("SubsecTimeOriginal", VStr "50")]) by (vm_compute; reflexivity).
  exact (proj1 (serialise_assembled no_repr no_str no_xml 0 _ _ [_] 0%nat E eq_refl)).
Defined.

(** X18. A tag of bytes other than the XMP packet is passed on as it is,
    and JSON has no encoding for bytes: if a map [pageprops] returned
    holds bytes under a key other than 'Coords', [props2json] raises
    [TypeError]. *)
Theorem bytes_are_not_serialised float_repr builtin_str
    (fromstring : string -> result Element) idx page d (h : heap) atts k b :
  pageprops fromstring idx page = Return d ->
  h !! atts = Some d ->
  In (k, VBytes b) d -> k <> "Coords" ->
  snd (run_action (props2json float_repr builtin_str atts) h) = Raise TypeError.
Proof.
  intros Hp Hd Hin Hk.
  rewrite (serialise_returned float_repr builtin_str _ _ _ _ _ _ Hp Hd).
  apply (json_dumps_bytes _ _ k b).
  apply (in_map (printable builtin_str)) in Hin.
  unfold printable at 1 in Hin. cbv zeta in Hin. cbn [fst snd] in Hin.
  destruct (String.eqb k "DateTimeOriginal"); [exact Hin|].
  destruct (String.eqb_spec k "Coords"); [contradiction | exact Hin].
Qed.

Lemma bytes_are_not_serialised_witness :
  pageprops no_xml 0 page_with_profile
    = Return [("Make", VStr "DJI"); ("Model", VStr "XT2");
              ("InterColorProfile", bytes "acsp")] /\
  snd (run_action (props2json no_repr no_str 0%nat)
         [[("Make", VStr "DJI"); ("Model", VStr "XT2");
           ("InterColorProfile", bytes "acsp")]]) = Raise TypeError.
Proof.
  assert (E : pageprops no_xml 0 page_with_profile
              = Return [("Make", VStr "DJI"); ("Model", VStr "XT2");
                        ("InterColorProfile", bytes "acsp")]) by (vm_compute; reflexivity).
  split; [exact E|].
  refine (bytes_are_not_serialised no_repr no_str no_xml 0 _ _ [_] 0%nat
            "InterColorProfile" _ E eq_refl _ _).
  - right. right. left. reflexivity.
  - discriminate.
Defined.

(** ** The order of the keys *)

Lemma for_each_yielded {A} (l : list A) (body : A -> gen unit) :
  outcome (for_each l body) = Return tt ->
  yielded (for_each l body) = flat_map (fun x => yielded (body x)) l.
Proof.
  induction l as [|x l IH]; intros H; [reflexivity|].
  apply for_each_cons in H as (_ & Hl & ->). cbn [flat_map]. rewrite (IH Hl). reflexivity.
Qed.

(** X19. The keys of the map [pageprops] returns stand in the order of
    the tags of the page, each tag with the keys it contributes in their
    order (its name, or the keys of its group, or the local names of its
    XMP elements); 'Coords' comes last, and is there exactly when the page
    has a GPS tag group. *)
Theorem pageprops_key_order (fromstring : string -> result Element) idx page atts :
  pageprops fromstring idx page = Return atts ->
  map fst atts
    = flat_map (keys_of fromstring) (tags page)
      ++ (if tags_contains page "GPSTag" then ["Coords"] else []).
Proof.
  unfold pageprops. intros H. step H as atts0 H0.
  apply consume_returns in H0 as (_ & -> & Hend).
  rewrite (proj1 (fixup_datetime_returns _ _ H)).
  apply _page_tagconv_it_ok in Hend as (tail & Hloop & Htail & -> & ->).
  rewrite map_app, (for_each_yielded _ _ Hloop). f_equal.
  - unfold keys_of. clear Hloop Htail H. induction (tags page) as [|t l IH]; [reflexivity|].
    cbn [flat_map]. rewrite map_app, IH. reflexivity.
  - destruct (tags_contains page "GPSTag"); [|reflexivity].
    rewrite eval_bind in *. destruct (tags_getitem page "GPSTag"); [|discriminate].
    rewrite eval_bind in *. destruct (convert_gpstag _); [|discriminate]. reflexivity.
Qed.

Lemma pageprops_key_order_witness :
  exists atts,
    pageprops no_xml 0 page_with_gps = Return atts /\
    map fst atts = ["ImageWidth"; "Make"; "Model"] ++ map fst berlin ++ ["Software"; "Coords"].
Proof.
  destruct (pageprops no_xml 0 page_with_gps) as [atts|e] eqn:E;
    [|vm_compute in E; discriminate E].
  exists atts. split; [reflexivity|].
  rewrite (pageprops_key_order no_xml 0 page_with_gps atts E). vm_compute. reflexivity.
Defined.

(** ** Digits and their values *)

Lemma fold_digits l : forall a,
  fold_left (fun acc c => 10 * acc + (Z.of_N (code c) - 48)) l a
    = a * 10 ^ Z.of_nat (length l)
      + fold_left (fun acc c => 10 * acc + (Z.of_N (code c) - 48)) l 0.
Proof.
  induction l as [|c l IH]; intros a.
  - cbn [fold_left length]. change (Z.of_nat 0) with 0. rewrite Z.pow_0_r. lia.
  - cbn [fold_left length]. rewrite (IH (10 * a + _)), (IH (10 * 0 + _)).
    rewrite Nat2Z.inj_succ, Z.pow_succ_r by lia. ring.
Qed.

Lemma length_list_ascii_of_string s :
  length (list_ascii_of_string s) = String.length s.
Proof.
  induction s as [|x s IH]; [reflexivity|].
  cbn [list_ascii_of_string length String.length]. rewrite IH. reflexivity.
Qed.

Lemma digits_value_cons c s :
  digits_value (String c s)
    = (Z.of_N (code c) - 48) * 10 ^ Z.of_nat (String.length s) + digits_value s.
Proof.
  unfold digits_value. cbn [list_ascii_of_string fold_left].
  rewrite fold_digits, length_list_ascii_of_string. lia.
Qed.

Lemma code_digit_char d : 0 <= d < 10 -> Z.of_N (code (digit_char d)) - 48 = d.
Proof.
  intros H.
  assert (d = 0 \/ d = 1 \/ d = 2 \/ d = 3 \/ d = 4 \/ d = 5 \/ d = 6 \/ d = 7
          \/ d = 8 \/ d = 9) as Hd by lia.
  repeat (destruct Hd as [-> | Hd]; [reflexivity|]). subst d. reflexivity.
Qed.

Lemma low_digits_succ p n :
  low_digits (S p) n
    = String (digit_char ((n / 10 ^ Z.of_nat p) mod 10)) (low_digits p n).
Proof.
  unfold low_digits. rewrite seq_S, rev_app_distr. reflexivity.
Qed.

(** The last [p] digits read back as the number modulo [10^p]. *)
Lemma digits_value_low_digits p n :
  0 <= n -> digits_value (low_digits p n) = n mod 10 ^ Z.of_nat p.
Proof.
  intros Hn. induction p as [|p IH].
  - change (Z.of_nat 0) with 0. rewrite Z.pow_0_r, Z.mod_1_r. reflexivity.
  - rewrite low_digits_succ, digits_value_cons, low_digits_length, IH.
    rewrite code_digit_char by (apply Z.mod_pos_bound; lia).
    rewrite Nat2Z.inj_succ, Z.pow_succ_r by lia.
    rewrite (Z.mul_comm 10), Z.rem_mul_r by lia. lia.
Qed.

Lemma digits_value_decimal_aux fuel : forall n acc,
  0 <= n < 2 ^ Z.of_nat fuel ->
  digits_value (decimal_aux fuel n acc)
    = n * 10 ^ Z.of_nat (String.length acc) + digits_value acc.
Proof.
  induction fuel as [|fuel IH]; intros n acc Hn; cbn [decimal_aux].
  - change (Z.of_nat 0) with 0 in Hn. rewrite Z.pow_0_r in Hn.
    replace n with 0 by lia. lia.
  - rewrite Nat2Z.inj_succ, Z.pow_succ_r in Hn by lia.
    assert (Hacc : digits_value (String (digit_char (n mod 10)) acc)
                   = n mod 10 * 10 ^ Z.of_nat (String.length acc) + digits_value acc).
    { rewrite digits_value_cons, code_digit_char by (apply Z.mod_pos_bound; lia).
      reflexivity. }
    destruct (Z.ltb_spec n 10) as [Hlt|Hge].
    + rewrite Hacc, Z.mod_small by lia. reflexivity.
    + rewrite IH.
      * rewrite Hacc. cbn [String.length]. rewrite Nat2Z.inj_succ, Z.pow_succ_r by lia.
        pose proof (Z.div_mod n 10 ltac:(lia)) as E.
        set (q := n / 10) in *. set (r := n mod 10) in *.
        set (t := 10 ^ Z.of_nat (String.length acc)).
        replace (n * t) with ((10 * q + r) * t) by (rewrite <- E; reflexivity). ring.
      * split; [apply Z.div_pos; lia|].
        apply Z.div_lt_upper_bound; lia.
Qed.

(** The decimal digits of a number read back as the number. *)
Lemma digits_value_decimal n : 0 <= n -> digits_value (decimal n) = n.
Proof.
  intros Hn. unfold decimal. rewrite digits_value_decimal_aux.
  - cbn [String.length]. change (Z.of_nat 0) with 0. rewrite Z.pow_0_r.
    change (digits_value "") with 0. lia.
  - split; [assumption|]. rewrite Nat2Z.inj_succ, Z2Nat.id by apply Z.log2_nonneg.
    destruct (Z.eq_dec n 0) as [->|Hne]; [reflexivity|].
    apply Z.log2_spec. lia.
Qed.

Lemma scaled_round_nonneg p m e : 0 <= scaled_round p m e.
Proof.
  unfold scaled_round.
  assert (Hnum : 0 < Zpos m * 10 ^ Z.of_nat p) by (apply Z.mul_pos_pos; lia).
  destruct (Z.leb_spec 0 e) as [He|He].
  - apply Z.mul_nonneg_nonneg; [lia|]. apply Z.pow_nonneg. lia.
  - assert (Hden : 0 < 2 ^ (- e)) by (apply Z.pow_pos_nonneg; lia).
    assert (Hq : 0 <= Zpos m * 10 ^ Z.of_nat p / 2 ^ (- e)) by (apply Z.div_pos; lia).
    destruct (2 * _ ?= _); [destruct (Z.even _)| |]; lia.
Qed.

Lemma scaled_round_nearest p m e : nearest p m e (scaled_round p m e).
Proof.
  unfold nearest, scaled_round. cbv zeta.
  destruct (Z.leb_spec 0 e) as [He|He]; [reflexivity|].
  set (num := Zpos m * 10 ^ Z.of_nat p).
  set (den := 2 ^ (- e)).
  assert (Hden : 0 < den) by (apply Z.pow_pos_nonneg; lia).
  pose proof (Z.div_mod num den ltac:(lia)) as E.
  pose proof (Z.mod_pos_bound num den Hden) as Hr.
  set (q := num / den) in *. set (r := num mod den) in *.
  destruct (Z.compare_spec (2 * r) den) as [Heq|Hlt|Hgt].
  - destruct (Z.even q) eqn:Hev.
    + split; [|intros _; exact Hev].
      replace (q * den - num) with (- r) by lia. lia.
    + split.
      * replace ((q + 1) * den - num) with (den - r) by lia. lia.
      * intros _. rewrite Z.even_add, Hev. reflexivity.
  - split.
    + replace (q * den - num) with (- r) by lia. lia.
    + replace (q * den - num) with (- r) by lia. lia.
  - split.
    + replace ((q + 1) * den - num) with (den - r) by lia. lia.
    + replace ((q + 1) * den - num) with (den - r) by lia. lia.
Qed.



(** ** Time stamps from their EXIF text *)

Ltac enumerate n v fuel tac :=
  lazymatch fuel with
  | O => exfalso; lia
  | S ?f =>
      destruct (Z.eq_dec n v) as [->|];
      [tac | let v' := eval vm_compute in (v + 1) in enumerate n v' f tac]
  end.

Lemma isspace_digit_char d : 0 <= d < 10 -> isspace (digit_char d) = false.
Proof.
  intros H. enumerate d 0 10%nat ltac:(reflexivity).
Qed.

Lemma run_set1 {A} (p : charset) c s g (k : string -> groups -> option A) :
  p c = true -> run (Set1 p) (String c s) g k = k s g.
Proof. intros H. cbn [run]. rewrite H. reflexivity. Qed.

(** A group around a pattern that captures nothing itself. *)
Lemma run_group_prefix {A} name r w rest g (k : string -> groups -> option A) x :
  (forall k' : string -> groups -> option A,
     k' rest g = Some x -> run r (w ++ rest) g k' = Some x) ->
  k rest ((name, w) :: g) = Some x ->
  run (Group name r) (w ++ rest) g k = Some x.
Proof.
  intros Hr Hk. cbn [run]. apply Hr. rewrite consumed_prefix. exact Hk.
Qed.

Lemma pad2_chars n :
  pad2 n = String (digit_char ((n / 10) mod 10)) (String (digit_char (n mod 10)) "").
Proof.
  unfold pad2. rewrite !low_digits_succ.
  change (10 ^ Z.of_nat 1) with 10. change (10 ^ Z.of_nat 0) with 1.
  rewrite Z.div_1_r. reflexivity.
Qed.

Lemma run_year {A} y rest g (k : string -> groups -> option A) x :
  k rest (("Y", pad4 y) :: g) = Some x ->
  run (Group "Y" (Set1 digit · Set1 digit · Set1 digit · Set1 digit)) (pad4 y ++ rest) g k
    = Some x.
Proof.
  apply run_group_prefix. intros k' Hk'.
  unfold pad4. rewrite !low_digits_succ.
  change (low_digits 0 y) with EmptyString.
  rewrite !run_cat.
  change (String ?a (String ?b (String ?c (String ?d ""))) ++ rest)%string
    with (String a (String b (String c (String d rest)))).
  rewrite !run_set1 by (apply digit_char_is_digit, Z.mod_pos_bound; lia).
  exact Hk'.
Qed.

Lemma run_month {A} n rest g (k : string -> groups -> option A) x :
  1 <= n <= 12 ->
  k rest (("m", pad2 n) :: g) = Some x ->
  run (Group "m" (Lit "1" · rng "0" "2" ∣ Lit "0" · rng "1" "9" ∣ rng "1" "9"))
      (pad2 n ++ rest) g k = Some x.
Proof.
  intros Hn. apply run_group_prefix. intros k' Hk'.
  enumerate n 1 12%nat ltac:(vm_compute; rewrite Hk'; reflexivity).
Qed.

Lemma run_day {A} n rest g (k : string -> groups -> option A) x :
  1 <= n <= 31 ->
  k rest (("d", pad2 n) :: g) = Some x ->
  run (Group "d" (Lit "3" · rng "0" "1" ∣ rng "1" "2" · Set1 digit ∣ Lit "0" · rng "1" "9"
                  ∣ rng "1" "9" ∣ Lit " " · rng "1" "9"))
      (pad2 n ++ rest) g k = Some x.
Proof.
  intros Hn. apply run_group_prefix. intros k' Hk'.
  enumerate n 1 31%nat ltac:(vm_compute; rewrite Hk'; reflexivity).
Qed.

Lemma run_hour {A} n rest g (k : string -> groups -> option A) x :
  0 <= n <= 23 ->
  k rest (("H", pad2 n) :: g) = Some x ->
  run (Group "H" (Lit "2" · rng "0" "3" ∣ rng "0" "1" · Set1 digit ∣ Set1 digit))
      (pad2 n ++ rest) g k = Some x.
Proof.
  intros Hn. apply run_group_prefix. intros k' Hk'.
  enumerate n 0 24%nat ltac:(vm_compute; rewrite Hk'; reflexivity).
Qed.

Lemma run_minute {A} n rest g (k : string -> groups -> option A) x :
  0 <= n <= 59 ->
  k rest (("M", pad2 n) :: g) = Some x ->
  run (Group "M" (rng "0" "5" · Set1 digit ∣ Set1 digit)) (pad2 n ++ rest) g k = Some x.
Proof.
  intros Hn. apply run_group_prefix. intros k' Hk'.
  enumerate n 0 60%nat ltac:(vm_compute; rewrite Hk'; reflexivity).
Qed.

Lemma run_second {A} n rest g (k : string -> groups -> option A) x :
  0 <= n <= 61 ->
  k rest (("S", pad2 n) :: g) = Some x ->
  run (Group "S" (Lit "6" · rng "0" "1" ∣ rng "0" "5" · Set1 digit ∣ Set1 digit))
      (pad2 n ++ rest) g k = Some x.
Proof.
  intros Hn. apply run_group_prefix. intros k' Hk'.
  enumerate n 0 62%nat ltac:(vm_compute; rewrite Hk'; reflexivity).
Qed.

Lemma valid_datetime_ranges dt :
  valid_datetime dt = true ->
  1 <= year dt <= 9999 /\ 1 <= month dt <= 12 /\
  1 <= day dt <= days_in_month (year dt) (month dt) /\
  0 <= hour dt <= 23 /\ 0 <= minute dt <= 59 /\ 0 <= second dt <= 59 /\
  0 <= microsecond dt <= 999999.
Proof.
  unfold valid_datetime. rewrite !andb_true_iff, !Z.leb_le. tauto.
Qed.

Lemma days_in_month_le y m : days_in_month y m <= 31.
Proof.
  unfold days_in_month. destruct (m =? 2); [destruct (is_leap y); lia|].
  destruct (_ || _); lia.
Qed.

Lemma valid_exif_fields dt : valid_datetime dt = true -> exif_fields dt.
Proof.
  intros Hv. apply valid_datetime_ranges in Hv as (Hy & Hm & Hd & HH & HM & HS & _).
  pose proof (days_in_month_le (year dt) (month dt)).
  unfold exif_fields. lia.
Qed.

Lemma strptime_re_exif dt :
  exif_fields dt ->
  fullmatch strptime_re (exif_text dt)
    = Some [("S", pad2 (second dt)); ("M", pad2 (minute dt)); ("H", pad2 (hour dt));
            ("d", pad2 (day dt)); ("m", pad2 (month dt)); ("Y", pad4 (year dt))].
Proof.
  intros (Hy & Hm & Hd & HH & HM & HS).
  unfold fullmatch, strptime_re, exif_text. cbv zeta. rewrite !run_cat.
  apply run_year. rewrite run_lit.
  apply run_month; [lia|]. rewrite run_lit.
  apply run_day; [lia|].
  apply (run_plus_max isspace " "); [discriminate | reflexivity | |].
  { rewrite pad2_chars. apply isspace_digit_char, Z.mod_pos_bound. lia. }
  apply run_hour; [lia|]. rewrite run_lit.
  apply run_minute; [lia|]. rewrite run_lit.
  rewrite <- (append_nil_r (pad2 (second dt))).
  apply run_second; [lia|]. reflexivity.
Qed.

Lemma lstrip_pad2 n : lstrip (pad2 n) = pad2 n.
Proof.
  rewrite pad2_chars. cbn [lstrip].
  rewrite isspace_digit_char by (apply Z.mod_pos_bound; lia). reflexivity.
Qed.

Lemma lstrip_pad4 n : lstrip (pad4 n) = pad4 n.
Proof.
  unfold pad4. rewrite low_digits_succ. cbn [lstrip].
  rewrite isspace_digit_char by (apply Z.mod_pos_bound; lia). reflexivity.
Qed.

Lemma digits_value_pad2 n : 0 <= n <= 99 -> digits_value (pad2 n) = n.
Proof.
  intros H. unfold pad2. rewrite digits_value_low_digits by lia.
  apply Z.mod_small. change (10 ^ Z.of_nat 2) with 100. lia.
Qed.

Lemma digits_value_pad4 n : 0 <= n <= 9999 -> digits_value (pad4 n) = n.
Proof.
  intros H. unfold pad4. rewrite digits_value_low_digits by lia.
  apply Z.mod_small. change (10 ^ Z.of_nat 4) with 10000. lia.
Qed.

(** [strptime] reads the fields back from the EXIF text and hands them to
    the [datetime] constructor. *)
Lemma strptime_exif_fields dt :
  exif_fields dt -> microsecond dt = 0 ->
  strptime (VStr (exif_text dt)) = make_datetime dt.
Proof.
  intros Hf Hus. unfold strptime. rewrite (strptime_re_exif dt Hf). cbv zeta.
  destruct Hf as (Hy & Hm & Hd & HH & HM & HS).
  change (group_text _ "Y") with (pad4 (year dt)).
  change (group_text _ "m") with (pad2 (month dt)).
  change (group_text _ "d") with (pad2 (day dt)).
  change (group_text _ "H") with (pad2 (hour dt)).
  change (group_text _ "M") with (pad2 (minute dt)).
  change (group_text _ "S") with (pad2 (second dt)).
  rewrite lstrip_pad4, !lstrip_pad2, digits_value_pad4, !digits_value_pad2 by lia.
  rewrite <- Hus. destruct dt as [y mo d h mi s us]. reflexivity.
Qed.

Lemma strptime_exif dt :
  valid_datetime dt = true -> microsecond dt = 0 ->
  strptime (VStr (exif_text dt)) = Return dt.
Proof.
  intros Hv Hus. rewrite (strptime_exif_fields dt (valid_exif_fields dt Hv) Hus).
  unfold make_datetime. rewrite Hv. reflexivity.
Qed.

Lemma int_pad2 n : 0 <= n <= 99 -> int (VStr (pad2 n)) = Return n.
Proof.
  intros H. enumerate n 0 100%nat ltac:(vm_compute; reflexivity).
Qed.

Lemma pad3_tens n : 0 <= n <= 99 -> pad3 (n * 10000 / 1000) = (pad2 n ++ "0")%string.
Proof.
  intros H. replace (n * 10000 / 1000) with (n * 10)
    by (apply Z.div_unique_exact; lia).
  unfold pad3. rewrite pad2_chars, !low_digits_succ.
  change (low_digits 0 (n * 10)) with EmptyString.
  change (10 ^ Z.of_nat 2) with (10 * 10). change (10 ^ Z.of_nat 1) with 10.
  change (10 ^ Z.of_nat 0) with 1.
  rewrite Z.div_mul_cancel_r, Z.div_mul, Z.div_1_r, Z.mod_mul by lia.
  reflexivity.
Qed.

(** X21. The time stamp is read back from its EXIF text: for a valid
    date and time written as 'YYYY:MM:DD HH:MM:SS', [pageprops] stores
    exactly that date and time; with a sub-second text '00' to '99' its
    microsecond is that number of hundredths of a second, and its ISO text
    with milliseconds, which [props2json] writes, is the same date and
    time followed by a point, the two digits and '0'. *)
Theorem exif_timestamp_read_back (fromstring : string -> result Element) idx page atts dt :
  valid_datetime dt = true -> microsecond dt = 0 ->
  consume (_page_tagconv_it fromstring page) [] = Return atts ->
  dict_get atts "DateTimeOriginal" = Some (VStr (exif_text dt)) ->
  (dict_get atts "SubsecTimeOriginal" = None ->
   pageprops fromstring idx page
     = Return (dict_set atts "DateTimeOriginal" (VDateTime dt))) /\
  (forall n, 0 <= n <= 99 ->
     dict_get atts "SubsecTimeOriginal" = Some (VStr (pad2 n)) ->
     pageprops fromstring idx page
       = Return (dict_set atts "DateTimeOriginal"
                   (VDateTime (with_microsecond dt (n * 10000)))) /\
     isoformat_ms (with_microsecond dt (n * 10000))
       = (pad4 (year dt) ++ "-" ++ pad2 (month dt) ++ "-" ++ pad2 (day dt) ++ " " ++
          pad2 (hour dt) ++ ":" ++ pad2 (minute dt) ++ ":" ++ pad2 (second dt) ++ "." ++
          pad2 n ++ "0")%string).
Proof.
  intros Hv Hus Hc Hdt.
  pose proof (strptime_exif dt Hv Hus) as Hp.
  split.
  - intros Hno. unfold pageprops. rewrite Hc, bind_Return.
    unfold fixup_datetime, dict_in. rewrite Hdt, Hno.
    rewrite (getitem_dict _ _ _ Hdt), bind_Return, Hp, !bind_Return. reflexivity.
  - intros n Hn Hs. split.
    + unfold pageprops. rewrite Hc, bind_Return.
      rewrite (fixup_datetime_subsec _ _ _ _ _ Hdt Hp Hs (int_pad2 n Hn)).
      rewrite replace_microsecond_in_range by (assumption || lia). reflexivity.
    + unfold isoformat_ms.
      cbn [with_microsecond year month day hour minute second microsecond].
      rewrite (pad3_tens n Hn). reflexivity.
Qed.

Lemma exif_timestamp_read_back_witness :
  pageprops no_xml 0 (page_taken "2024:02:29 23:59:58" "07")
    = Return [("Make", VStr "DJI"); ("Model", VStr "XT2");
              ("DateTimeOriginal", VDateTime (mkdatetime 2024 2 29 23 59 58 70000));
              ("SubsecTimeOriginal", VStr "07")] /\
  isoformat_ms (mkdatetime 2024 2 29 23 59 58 70000) = "2024-02-29 23:59:58.070".
Proof.
  assert (Hv : valid_datetime (mkdatetime 2024 2 29 23 59 58 0) = true) by reflexivity.
  assert (Hus : microsecond (mkdatetime 2024 2 29 23 59 58 0) = 0) by reflexivity.
  assert (Hc : consume (_page_tagconv_it no_xml (page_taken "2024:02:29 23:59:58" "07")) []
               = Return [("Make", VStr "DJI"); ("Model", VStr "XT2");
                         ("DateTimeOriginal", VStr "2024:02:29 23:59:58");
                         ("SubsecTimeOriginal", VStr "07")]) by reflexivity.
  assert (Hn : 0 <= 7 <= 99) by lia.
  exact (proj2 (exif_timestamp_read_back no_xml 0 _ _ (mkdatetime 2024 2 29 23 59 58 0)
                  Hv Hus Hc eq_refl) 7 Hn eq_refl).
Defined.

(** ** The name check of the GPS decoder *)

Lemma bind_raises {A B} (m : result A) (k : A -> result B) e :
  (m ≫= k) = Raise e -> m = Raise e \/ exists a, m = Return a /\ k a = Raise e.
Proof. destruct m as [a|e']; cbn; [eauto | intros [= <-]; auto]. Qed.

Lemma getitem_no_value_error v k e : getitem v k = Raise e -> not_value_error e.
Proof.
  unfold getitem. destruct v; try (intros [= <-]; exact I).
  destruct (dict_get d k); [discriminate | intros [= <-]; exact I].
Qed.

Lemma len_no_value_error v e : len v = Raise e -> not_value_error e.
Proof. destruct v; cbn; try discriminate; intros [= <-]; exact I. Qed.

Lemma index_no_value_error v i e : index v i = Raise e -> not_value_error e.
Proof.
  unfold index. destruct v; try (intros [= <-]; exact I).
  - destruct (String.get i s); [discriminate | intros [= <-]; exact I].
  - destruct (b !! i); [discriminate | intros [= <-]; exact I].
  - destruct (l !! i); [discriminate | intros [= <-]; exact I].
Qed.

Lemma float_truediv_no_value_error a b e :
  float_truediv a b = Raise e -> not_value_error e.
Proof.
  unfold float_truediv. destruct (Float.is_zero b); [intros [= <-]; exact I | discriminate].
Qed.

Lemma int_to_float_no_value_error n e : int_to_float n = Raise e -> not_value_error e.
Proof.
  unfold int_to_float. destruct (Float.is_inf _); [intros [= <-]; exact I | discriminate].
Qed.

Lemma truediv_no_value_error a b e : truediv a b = Raise e -> not_value_error e.
Proof.
  unfold truediv.
  destruct (as_number a) as [[x|x]|], (as_number b) as [[y|y]|];
    try (intros [= <-]; exact I).
  - unfold int_truediv. destruct (y =? 0); [intros [= <-]; exact I|].
    destruct (Float.is_inf _); [intros [= <-]; exact I | discriminate].
  - intros H. apply bind_raises in H as [H | (x' & _ & H)].
    + exact (int_to_float_no_value_error _ _ H).
    + exact (float_truediv_no_value_error _ _ _ H).
  - intros H. apply bind_raises in H as [H | (y' & _ & H)].
    + exact (int_to_float_no_value_error _ _ H).
    + exact (float_truediv_no_value_error _ _ _ H).
  - apply float_truediv_no_value_error.
Qed.

Ltac no_value_error H :=
  repeat (apply bind_raises in H as [H | (? & _ & H)];
          [eauto using getitem_no_value_error, len_no_value_error, index_no_value_error,
             truediv_no_value_error, float_truediv_no_value_error |]).

Lemma sexagesimal_no_value_error y e : sexagesimal y = Raise e -> not_value_error e.
Proof. unfold sexagesimal. intros H. no_value_error H. discriminate H. Qed.

Lemma axis_no_value_error gps key hi refkey pos neg e :
  axis gps key hi refkey pos neg = Raise e -> not_value_error e.
Proof.
  unfold axis. intros H.
  apply bind_raises in H as [H | (y & _ & H)]; [eauto using getitem_no_value_error|].
  apply bind_raises in H as [H | (n & _ & H)]; [eauto using len_no_value_error|].
  destruct (negb (n =? 6)); [injection H as <-; exact I|].
  apply bind_raises in H as [H | (v & _ & H)]; [eauto using sexagesimal_no_value_error|].
  destruct (out_of_range v hi); [injection H as <-; exact I|].
  apply bind_raises in H as [H | (ref & _ & H)]; [eauto using getitem_no_value_error|].
  destruct (eq_str ref pos); [discriminate|].
  destruct (eq_str ref neg); [discriminate|]. injection H as <-. exact I.
Qed.

Lemma altitude_no_value_error gps e : altitude gps = Raise e -> not_value_error e.
Proof.
  unfold altitude. intros H.
  apply bind_raises in H as [H | (r & _ & H)]; [eauto using getitem_no_value_error|].
  destruct (negb (eq_int r 0)); [injection H as <-; exact I|].
  no_value_error H. exact (truediv_no_value_error _ _ _ H).
Qed.

(** X22. [convert_gpstag] raises [ValueError] for a tag that is not named
    'GPSTag' and for nothing else; so the tag [_page_tagconv_it] looks up
    under that name never fails this check, and whatever the decoder
    raises on a page is one of its other exceptions. *)
Theorem name_check_only_for_callers tag :
  (name tag <> "GPSTag" -> convert_gpstag tag = Raise (ValueError EmptyString)) /\
  (forall e, name tag = "GPSTag" -> convert_gpstag tag = Raise e -> not_value_error e) /\
  (forall page e,
     tags_getitem page "GPSTag" = Return tag -> convert_gpstag tag = Raise e ->
     not_value_error e).
Proof.
  assert (H2 : forall e, name tag = "GPSTag" -> convert_gpstag tag = Raise e ->
                         not_value_error e).
  { intros e Hname. unfold convert_gpstag. rewrite Hname. cbn [String.eqb negb].
    change (negb (String.eqb "GPSTag" "GPSTag")) with false. cbv iota.
    intros H.
    apply bind_raises in H as [H | (datum & _ & H)]; [eauto using getitem_no_value_error|].
    destruct (negb (eq_str datum "WGS-84")); [injection H as <-; exact I|].
    apply bind_raises in H as [H | (la & _ & H)]; [eauto using axis_no_value_error|].
    apply bind_raises in H as [H | (lo & _ & H)]; [eauto using axis_no_value_error|].
    apply bind_raises in H as [H | (al & _ & H)]; [eauto using altitude_no_value_error|].
    discriminate H. }
  split; [|split].
  - intros Hname. unfold convert_gpstag.
    destruct (String.eqb_spec (name tag) "GPSTag"); [contradiction | reflexivity].
  - exact H2.
  - intros page e Ht. apply H2. apply (tags_getitem_returns _ _ _ Ht).
Qed.

Lemma name_check_only_for_callers_witness :
  convert_gpstag (mkTiffTag "GPSInfo" (VDict berlin)) = Raise (ValueError EmptyString).
Proof.
  apply (proj1 (name_check_only_for_callers (mkTiffTag "GPSInfo" (VDict berlin)))).
  discriminate.
Defined.

(** ** The one failure of the serialiser before encoding *)

(** X23. On any map of the caller, [props2json] raises [AttributeError]
    exactly when the map has a 'DateTimeOriginal' that is not a
    [datetime], a text for instance; a map that holds the text as the tag
    gave it, and not the timestamp [pageprops] puts in its place, cannot
    be serialised. *)
Theorem props2json_needs_datetime float_repr builtin_str (h : heap) atts d :
  h !! atts = Some d ->
  snd (run_action (props2json float_repr builtin_str atts) h) = Raise AttributeError <->
  exists v, dict_get d "DateTimeOriginal" = Some v /\ forall dt, v <> VDateTime dt.
Proof.
  intros Hd. rewrite (props2json_run _ _ _ _ _ Hd).
  destruct (dict_get d "DateTimeOriginal") as [v|] eqn:E.
  - destruct v; cbn [isoformat mbind result_bind bind];
      try (split; [intros _; eexists; split; [reflexivity | discriminate] | reflexivity]).
    split.
    + intros H. apply json_value_raises in H. discriminate H.
    + intros (v & [= <-] & Hv). destruct (Hv dt eq_refl).
  - rewrite bind_Return. split.
    + intros H. apply json_value_raises in H. discriminate H.
    + intros (v & Hv & _). discriminate Hv.
Qed.

Lemma props2json_needs_datetime_witness :
  snd (run_action (props2json no_repr no_str 0%nat)
         [[("Make", VStr "DJI"); ("DateTimeOriginal", VStr "2022:05:01 12:00:00")]])
    = Raise AttributeError.
Proof.
  apply (proj2 (props2json_needs_datetime no_repr no_str
                  [[("Make", VStr "DJI"); ("DateTimeOriginal", VStr "2022:05:01 12:00:00")]]
                  0%nat _ eq_refl)).
  exists (VStr "2022:05:01 12:00:00"). split; [reflexivity | discriminate].
Defined.

(** X24. The calendar is checked: a 'DateTimeOriginal' text of the right
    form whose date or time does not exist (the year 0, a day past the
    end of its month, 29 February outside a leap year, a second of 60 or
    61) passes the pattern of [strptime] but not the [datetime]
    constructor, and [pageprops] raises [ValueError] for the page. *)
Theorem calendar_is_checked (fromstring : string -> result Element) idx page atts dt :
  exif_fields dt -> microsecond dt = 0 ->
  consume (_page_tagconv_it fromstring page) [] = Return atts ->
  dict_get atts "DateTimeOriginal" = Some (VStr (exif_text dt)) ->
  (valid_datetime dt = false <->
   year dt = 0 \/ days_in_month (year dt) (month dt) < day dt \/ 60 <= second dt) /\
  (valid_datetime dt = false ->
   pageprops fromstring idx page = Raise (ValueError "datetime")).
Proof.
  intros Hf Hus Hc Hdt. split.
  - destruct Hf as (Hy & Hm & Hd & HH & HM & HS). unfold valid_datetime.
    rewrite Hus. rewrite !andb_false_iff, !Z.leb_gt. lia.
  - intros Hv. unfold pageprops. rewrite Hc, bind_Return.
    unfold fixup_datetime, dict_in. rewrite Hdt.
    rewrite (getitem_dict _ _ _ Hdt), bind_Return, (strptime_exif_fields dt Hf Hus).
    unfold make_datetime. rewrite Hv. reflexivity.
Qed.

Lemma calendar_is_checked_witness :
  pageprops no_xml 0 (page_taken "2023:02:29 12:00:00" "07") = Raise (ValueError "datetime").
Proof.
  assert (Hf : exif_fields (mkdatetime 2023 2 29 12 0 0 0))
    by (unfold exif_fields; cbn; lia).
  assert (Hus : microsecond (mkdatetime 2023 2 29 12 0 0 0) = 0) by reflexivity.
  assert (Hc : consume (_page_tagconv_it no_xml (page_taken "2023:02:29 12:00:00" "07")) []
               = Return [("Make", VStr "DJI"); ("Model", VStr "XT2");
                         ("DateTimeOriginal", VStr "2023:02:29 12:00:00");
                         ("SubsecTimeOriginal", VStr "07")]) by reflexivity.
  exact (proj2 (calendar_is_checked no_xml 0 _ _ (mkdatetime 2023 2 29 12 0 0 0)
                  Hf Hus Hc eq_refl) eq_refl).
Defined.

(** ** The text of a coordinate *)

Lemma decimal_aux_head fuel : forall n acc,
  0 < n < 2 ^ Z.of_nat fuel ->
  exists d rest, decimal_aux fuel n acc = String (digit_char d) rest /\ 1 <= d <= 9.
Proof.
  induction fuel as [|fuel IH]; intros n acc Hn.
  - change (Z.of_nat 0) with 0 in Hn. rewrite Z.pow_0_r in Hn. lia.
  - rewrite Nat2Z.inj_succ, Z.pow_succ_r in Hn by lia. cbn [decimal_aux].
    destruct (Z.ltb_spec n 10) as [Hlt|Hge].
    + exists (n mod 10), acc. rewrite Z.mod_small by lia. split; [reflexivity | lia].
    + apply IH. split.
      * apply Z.div_str_pos. lia.
      * apply Z.div_lt_upper_bound; lia.
Qed.

Lemma digit_char_not_zero d : 1 <= d <= 9 -> digit_char d <> "0"%char.
Proof.
  intros H. enumerate d 1 9%nat ltac:(discriminate).
Qed.

Lemma decimal_plain n : 0 <= n -> plain_digits (decimal n).
Proof.
  intros Hn. split; [apply decimal_all_digits|].
  destruct (Z.eq_dec n 0) as [->|Hne]; [left; reflexivity|]. right.
  destruct (decimal_aux_head (S (Z.to_nat (Z.log2 n))) n "") as (d & rest & E & Hd).
  { split; [lia|]. rewrite Nat2Z.inj_succ, Z2Nat.id by apply Z.log2_nonneg.
    apply Z.log2_spec. lia. }
  exists (digit_char d), rest. split; [exact E | apply digit_char_not_zero, Hd].
Qed.

(** The text of an integer [n >= 0] of units of the last decimal. *)
Lemma fixed_digits p n :
  p <> 0%nat -> 0 <= n ->
  exists i f,
    fixed p n = (i ++ "." ++ f)%string /\
    plain_digits i /\ all_digits f = true /\ String.length f = p /\
    digits_value i * 10 ^ Z.of_nat p + digits_value f = n.
Proof.
  intros Hp Hn.
  assert (Hpow : 0 < 10 ^ Z.of_nat p) by (apply Z.pow_pos_nonneg; lia).
  exists (decimal (n / 10 ^ Z.of_nat p)), (low_digits p n).
  split; [unfold fixed; destruct p; [congruence | reflexivity]|].
  split; [apply decimal_plain, Z.div_pos; lia|].
  split; [apply low_digits_all_digits|].
  split; [apply low_digits_length|].
  rewrite digits_value_decimal by (apply Z.div_pos; lia).
  rewrite digits_value_low_digits by assumption.
  rewrite (Z.div_mod n (10 ^ Z.of_nat p)) at 3 by lia. ring.
Qed.

(** A number is written with its sign and its correctly rounded digits. *)
Lemma format_f_written p x :
  p <> 0%nat -> Float.is_finite x = true -> written p x (format_f p x).
Proof.
  intros Hp Hx. destruct x as [s|s| |s m e]; try discriminate Hx.
  - destruct (fixed_digits p 0 Hp ltac:(lia)) as (i & f & E & Hi & Hf & Hlen & Hv).
    exists i, f. cbn [format_f negative]. rewrite E.
    split; [destruct s; reflexivity|]. auto.
  - destruct (fixed_digits p (scaled_round p m e) Hp (scaled_round_nonneg p m e))
      as (i & f & E & Hi & Hf & Hlen & Hv).
    exists i, f. cbn [format_f negative]. rewrite E, Hv.
    split; [destruct s; reflexivity|].
    split; [exact Hi|]. split; [exact Hf|]. split; [exact Hlen|].
    apply scaled_round_nearest.
Qed.

(** What lies between two numbers is a number. *)
Lemma between_is_finite lo hi x :
  Float.is_finite lo = true -> Float.is_finite hi = true ->
  Float.leb lo x = true -> Float.leb x hi = true ->
  Float.is_finite x = true.
Proof.
  destruct x as [s|[|]| |s m e]; try reflexivity; intros Hlo Hhi H1 H2; exfalso.
  - revert H1. unfold Float.leb, SFleb.
    destruct lo as [|[|]| |]; try discriminate Hlo; cbn; discriminate.
  - revert H2. unfold Float.leb, SFleb.
    destruct hi as [|[|]| |]; try discriminate Hhi; cbn; discriminate.
  - revert H2. unfold Float.leb, SFleb. cbn. discriminate.
Qed.

(** C6. The text of a coordinate is its latitude, then its longitude,
    then its altitude, joined by commas, each written with exactly 9, 9
    and 2 decimals: a minus sign exactly for a negative number, the
    integer digits, a point and the decimals, which together are the
    number rounded to that many decimals.  [props2json] writes that text
    as the value of the coordinate key.  The coordinate (lat=52.5,
    lon=13.4, alt=34.12) gives 52.500000000,13.400000000,34.12 as a JSON
    string, and (lat=-33.45, lon=-70.66, alt=-5.5) gives
    -33.450000000,-70.660000000,-5.50. *)
Theorem coordinate_text (c : WGS84Coords) :
  Coordinate c ->
  (exists la lo al,
     WGS84Coords_str c = (la ++ "," ++ lo ++ "," ++ al)%string /\
     written 9 (lat c) la /\ written 9 (lon c) lo /\ written 2 (alt c) al) /\
  (forall float_repr builtin_str (h : heap) atts d,
     h !! atts = Some d ->
     dict_get d "DateTimeOriginal" = None ->
     dict_get d "Coords" = Some (VCoords c) ->
     snd (run_action (props2json float_repr builtin_str atts) h)
       = json_dumps float_repr (dict_set d "Coords" (VStr (WGS84Coords_str c)))) /\
  WGS84Coords_str berlin_coords = "52.500000000,13.400000000,34.12" /\
  WGS84Coords_str south_west_coords = "-33.450000000,-70.660000000,-5.50" /\
  (forall float_repr builtin_str,
     snd (run_action (props2json float_repr builtin_str 0%nat)
            [[("Coords", VCoords berlin_coords)]])
       = Return ("{" ++ nl ++ "  " ++ dq ++ "Coords" ++ dq ++ ": "
                 ++ dq ++ "52.500000000,13.400000000,34.12" ++ dq ++ nl ++ "}")%string).
Proof.
  intros ([Hla1 Hla2] & [Hlo1 Hlo2] & Hal). split; [|split; [|split; [|split]]].
  - exists (format_f 9 (lat c)), (format_f 9 (lon c)), (format_f 2 (alt c)).
    split; [reflexivity|].
    split; [|split]; apply format_f_written; try discriminate; try assumption.
    + exact (between_is_finite (Float.of_Z (- 90)) (Float.of_Z 90) _
               eq_refl eq_refl Hla1 Hla2).
    + exact (between_is_finite (Float.of_Z (- 180)) (Float.of_Z 180) _
               eq_refl eq_refl Hlo1 Hlo2).
  - intros. apply props2json_coords; assumption.
  - vm_compute. reflexivity.
  - vm_compute. reflexivity.
  - intros float_repr builtin_str.
    rewrite (props2json_coords float_repr builtin_str
               [[("Coords", VCoords berlin_coords)]] 0%nat
               [("Coords", VCoords berlin_coords)] berlin_coords) by reflexivity.
    vm_compute. reflexivity.
Qed.

Lemma coordinate_text_witness :
  Coordinate south_west_coords /\
  exists la lo al,
    WGS84Coords_str south_west_coords = (la ++ "," ++ lo ++ "," ++ al)%string /\
    written 9 (lat south_west_coords) la /\ written 9 (lon south_west_coords) lo /\
    written 2 (alt south_west_coords) al.
Proof.
  assert (Hc : Coordinate south_west_coords)
    by (repeat split; vm_compute; reflexivity).
  split; [exact Hc|]. exact (proj1 (coordinate_text south_west_coords Hc)).
Defined.
